(** * vgmstream mixing engine (src/mixing.c): shallow embedding and properties

    The mixing engine keeps, per stream, a chain of at most 128 mix commands
    together with two channel counters, and applies the chain to decoded
    PCM16 frames through a float working buffer.

    Conventions of the embedding:
    - C [int] / [int32_t] values are [Z].  Signed overflow has no defined
      behaviour in C, so arithmetic on them is plain [Z] arithmetic.
    - C [float] is IEEE binary32 and [double] is IEEE binary64, both carried
      by [spec_float] and operated on with the parameterised operations of
      [SpecFloat] (round to nearest even).  Every operation is carried out
      in the precision of its C type: no excess precision, no fused
      multiply-add.
    - [uint32_t] masks are [Z] in [0, 2^32).
    - Arrays are lists; [mixing_count] is the length of the live prefix of
      [mixing_chain]. *)

From Stdlib Require Import ZArith Bool Ascii Lia.
From Stdlib Require Import Floats.SpecFloat.
From stdpp Require Import base list.

Local Open Scope Z_scope.

(** ** IEEE arithmetic used by the C code *)

Module F32.
Definition prec : Z := 24.
Definition emax : Z := 128.
Definition add := SFadd prec emax.
Definition sub := SFsub prec emax.
Definition mul := SFmul prec emax.
Definition div := SFdiv prec emax.
(** [(float)z] for an integer [z]. *)
Definition of_Z (z : Z) : spec_float := binary_normalize prec emax z 0 false.
(** [(float)d] for a double [d]. *)
Definition of_double (d : spec_float) : spec_float :=
  match d with
  | S754_finite s m e => binary_round prec emax s m e
  | _ => d
  end.
Definition zero : spec_float := S754_zero false.
Definition one : spec_float := of_Z 1.
End F32.

Module F64.
Definition prec : Z := 53.
Definition emax : Z := 1024.
Definition add := SFadd prec emax.
Definition sub := SFsub prec emax.
Definition mul := SFmul prec emax.
Definition div := SFdiv prec emax.
Definition sqrt := SFsqrt prec emax.
(** [(double)z] for an integer [z]. *)
Definition of_Z (z : Z) : spec_float := binary_normalize prec emax z 0 false.
(** [(double)f] for a float [f]: exact, only the mantissa is re-aligned. *)
Definition of_float (f : spec_float) : spec_float :=
  match f with
  | S754_finite s m e => binary_round prec emax s m e
  | _ => f
  end.
Definition zero : spec_float := S754_zero false.
Definition one : spec_float := of_Z 1.
End F64.

(** Decimal literal [num / 10^digits], correctly rounded to the format. *)
Definition decimal_literal (prec emax : Z) (num : positive) (digits : Z) : spec_float :=
  SFdiv prec emax (S754_finite false num 0)
        (S754_finite false (Z.to_pos (10 ^ digits)) 0).

(** [(int32_t)f]: the value is truncated toward zero.  NaN, infinities and
    values outside the [int32_t] range have no defined result in C; the
    embedding returns [INT_MIN] for them, as SSE conversion does. *)
Definition INT_MAX : Z := 2147483647.
Definition INT_MIN : Z := -2147483648.

Definition trunc_to_int32 (f : spec_float) : Z :=
  match f with
  | S754_zero _ => 0
  | S754_finite s m e =>
      let mag := if 0 <=? e then Z.pos m * 2 ^ e else Z.pos m / 2 ^ (- e) in
      let v := if s then - mag else mag in
      if (INT_MIN <=? v) && (v <=? INT_MAX) then v else INT_MIN
  | _ => INT_MIN
  end.

(** Modelled from the spec: [clamp16] is declared in the repository's util
    header, which is not part of the sources at hand; section 4.4 says the
    final pass clamps "to the signed 16-bit range". *)
Definition clamp16 (val : Z) : Z :=
  if val >? 32767 then 32767
  else if val <? -32768 then -32768
  else val.

(** ** Mixing data model *)

Definition VGMSTREAM_MAX_MIXING : Z := 128.

Inductive mix_command_t :=
  | MIX_SWAP
  | MIX_ADD
  | MIX_VOLUME
  | MIX_LIMIT
  | MIX_UPMIX
  | MIX_DOWNMIX
  | MIX_KILLMIX
  | MIX_FADE.

Definition mix_command_eqb (a b : mix_command_t) : bool :=
  match a, b with
  | MIX_SWAP, MIX_SWAP | MIX_ADD, MIX_ADD | MIX_VOLUME, MIX_VOLUME
  | MIX_LIMIT, MIX_LIMIT | MIX_UPMIX, MIX_UPMIX | MIX_DOWNMIX, MIX_DOWNMIX
  | MIX_KILLMIX, MIX_KILLMIX | MIX_FADE, MIX_FADE => true
  | _, _ => false
  end.

Record mix_command_data := MixCommand {
  command : mix_command_t;
  ch_dst : Z;
  ch_src : Z;
  vol : spec_float;
  vol_start : spec_float;
  vol_end : spec_float;
  shape : ascii;
  time_pre : Z;
  time_start : Z;
  time_end : Z;
  time_post : Z
}.

(** [mix_command_data mix = {0}] *)
Definition mix_zero : mix_command_data :=
  MixCommand MIX_SWAP 0 0 F32.zero F32.zero F32.zero Ascii.zero 0 0 0 0.

Definition set_time_pre (v : Z) (m : mix_command_data) : mix_command_data :=
  MixCommand (command m) (ch_dst m) (ch_src m) (vol m) (vol_start m) (vol_end m)
             (shape m) v (time_start m) (time_end m) (time_post m).

Definition set_time_post (v : Z) (m : mix_command_data) : mix_command_data :=
  MixCommand (command m) (ch_dst m) (ch_src m) (vol m) (vol_start m) (vol_end m)
             (shape m) (time_pre m) (time_start m) (time_end m) v.

Record mixing_data := MixingData {
  mixing_channels : Z;
  output_channels : Z;
  mixing_on : bool;
  mixing_size : Z;
  mixing_chain : list mix_command_data;
  mixbuf : list spec_float
}.

Definition mixing_count (data : mixing_data) : Z :=
  Z.of_nat (length (mixing_chain data)).

Definition set_mixing_channels (v : Z) (d : mixing_data) : mixing_data :=
  MixingData v (output_channels d) (mixing_on d) (mixing_size d)
             (mixing_chain d) (mixbuf d).

Definition set_output_channels (v : Z) (d : mixing_data) : mixing_data :=
  MixingData (mixing_channels d) v (mixing_on d) (mixing_size d)
             (mixing_chain d) (mixbuf d).

Definition set_mixing_on (v : bool) (d : mixing_data) : mixing_data :=
  MixingData (mixing_channels d) (output_channels d) v (mixing_size d)
             (mixing_chain d) (mixbuf d).

Definition set_mixing_chain (v : list mix_command_data) (d : mixing_data) : mixing_data :=
  MixingData (mixing_channels d) (output_channels d) (mixing_on d) (mixing_size d)
             v (mixbuf d).

Definition set_mixbuf (v : list spec_float) (d : mixing_data) : mixing_data :=
  MixingData (mixing_channels d) (output_channels d) (mixing_on d) (mixing_size d)
             (mixing_chain d) v.

(** The fields of [VGMSTREAM] that the mixing code reads or writes.
    [vgmstream_mixing] is the [mixing_data] pointer ([None] is [NULL]). *)
Record VGMSTREAM := Vgmstream {
  channels : Z;
  sample_rate : Z;
  loop_flag : bool;
  loop_start_sample : Z;
  loop_end_sample : Z;
  current_sample : Z;
  loop_count : Z;
  config_loop_count : Z;
  channel_layout : Z;
  vgmstream_mixing : option mixing_data
}.

Definition set_vgmstream_mixing (v : option mixing_data) (s : VGMSTREAM) : VGMSTREAM :=
  Vgmstream (channels s) (sample_rate s) (loop_flag s) (loop_start_sample s)
            (loop_end_sample s) (current_sample s) (loop_count s)
            (config_loop_count s) (channel_layout s) v.

Definition set_config_loop_count (v : Z) (s : VGMSTREAM) : VGMSTREAM :=
  Vgmstream (channels s) (sample_rate s) (loop_flag s) (loop_start_sample s)
            (loop_end_sample s) (current_sample s) (loop_count s)
            v (channel_layout s) (vgmstream_mixing s).

Definition set_channel_layout (v : Z) (s : VGMSTREAM) : VGMSTREAM :=
  Vgmstream (channels s) (sample_rate s) (loop_flag s) (loop_start_sample s)
            (loop_end_sample s) (current_sample s) (loop_count s)
            (config_loop_count s) v (vgmstream_mixing s).

(** Runs [f] on the stream's mixing data; a stream without mixing data is
    returned as it is (the [if (!data) return;] of every entry point). *)
Definition with_mixing (f : mixing_data -> mixing_data) (s : VGMSTREAM) : VGMSTREAM :=
  match vgmstream_mixing s with
  | Some data => set_vgmstream_mixing (Some (f data)) s
  | None => s
  end.

Section Mixing.

(** [VGMSTREAM_MAX_CHANNELS] comes from the stream header and the three
    transcendental functions from the C library; neither is defined in
    mixing.c, so they are parameters of the embedding. *)
Variable VGMSTREAM_MAX_CHANNELS : Z.
Variables libm_exp libm_cos libm_sin : spec_float -> spec_float.

(** ** Activity check and playback position *)

Definition is_fade (mix : mix_command_data) : bool :=
  mix_command_eqb (command mix) MIX_FADE.

Fixpoint is_active_chain (chain : list mix_command_data)
         (current_start current_end : Z) : bool :=
  match chain with
  | [] => false
  | mix :: rest =>
      if negb (is_fade mix) then true
      else
        let fade_start := if time_pre mix <? 0 then 0 else time_pre mix in
        let fade_end := if time_post mix <? 0 then INT_MAX else time_post mix in
        if (current_start <? fade_end) && (current_end >? fade_start) then true
        else is_active_chain rest current_start current_end
  end.

Definition is_active (data : mixing_data) (current_start current_end : Z) : bool :=
  is_active_chain (mixing_chain data) current_start current_end.

Definition get_current_pos (vgmstream : VGMSTREAM) : Z :=
  if loop_flag vgmstream && (current_sample vgmstream >? loop_start_sample vgmstream) then
    let loop_pre := loop_start_sample vgmstream in
    let loop_into := current_sample vgmstream - loop_start_sample vgmstream in
    let loop_samples := loop_end_sample vgmstream - loop_start_sample vgmstream in
    loop_pre + loop_into + loop_samples * loop_count vgmstream
  else current_sample vgmstream.

(** ** Fade curve evaluator *)

(** [-5.75646273248511f] and [M_PI] *)
Definition fade_factor : spec_float :=
  SFopp (decimal_literal F32.prec F32.emax 575646273248511 14).
Definition M_PI : spec_float :=
  decimal_literal F64.prec F64.emax 314159265358979323846 20.
Definition f32_two : spec_float := F32.of_Z 2.

(** The [switch (mix->shape)] of [get_fade_gain].  Calls into the C library
    take and return doubles; the result is stored in a [float]. *)
Definition shape_gain (sh : ascii) (index : spec_float) : spec_float :=
  if Ascii.eqb sh "E" then
    F32.of_double
      (libm_exp (F64.of_float (F32.mul fade_factor (F32.sub F32.one index))))
  else if Ascii.eqb sh "L" then
    F32.of_double
      (F64.sub F64.one (libm_exp (F64.of_float (F32.mul fade_factor index))))
  else if Ascii.eqb sh "H" then
    F32.of_double
      (F64.div
         (F64.sub (F64.of_float F32.one)
                  (libm_cos (F64.mul (F64.of_float index) M_PI)))
         (F64.of_float f32_two))
  else if Ascii.eqb sh "Q" then
    F32.of_double
      (libm_sin (F64.div (F64.mul (F64.of_float index) M_PI) (F64.of_float f32_two)))
  else if Ascii.eqb sh "p" then
    F32.of_double
      (F64.sub (F64.of_float F32.one)
               (F64.sqrt (F64.of_float (F32.sub F32.one index))))
  else if Ascii.eqb sh "P" then
    F32.sub F32.one (F32.mul (F32.sub F32.one index) (F32.sub F32.one index))
  else index.

(** The "in between" branch: [index] and the final volume. *)
Definition fade_index (mix : mix_command_data) (current_subpos : Z) : spec_float :=
  if SFltb (vol_start mix) (vol_end mix) then
    let range_dur := F32.of_Z (time_end mix - time_start mix) in
    let range_idx := F32.of_Z (current_subpos - time_start mix) in
    F32.div range_idx range_dur
  else
    let range_dur := F32.of_Z (time_end mix - time_start mix) in
    let range_idx := F32.of_Z (time_end mix - current_subpos) in
    F32.div range_idx range_dur.

Definition fade_between (mix : mix_command_data) (current_subpos : Z) : spec_float :=
  let range_vol := F32.sub (vol_end mix) (vol_start mix) in
  let index := fade_index mix current_subpos in
  let gain := shape_gain (shape mix) index in
  if SFltb (vol_start mix) (vol_end mix) then
    F32.add (vol_start mix) (F32.mul range_vol gain)
  else
    F32.sub (vol_end mix) (F32.mul range_vol gain).

(** [Some cur_vol] when the C function returns 1 after writing
    [*out_cur_vol]; [None] when it returns 0. *)
Definition get_fade_gain (mix : mix_command_data) (current_subpos : Z)
  : option spec_float :=
  if ((current_subpos >=? time_pre mix) || (time_pre mix <? 0))
       && (current_subpos <? time_start mix) then
    Some (vol_start mix)
  else if (current_subpos >=? time_end mix)
            && ((current_subpos <? time_post mix) || (time_post mix <? 0)) then
    Some (vol_end mix)
  else if (current_subpos >=? time_start mix) && (current_subpos <? time_end mix) then
    Some (fade_between mix current_subpos)
  else None.

(** ** Execution engine *)

(** [stpbuf] is the working buffer seen from the row pointer.  Reading or
    writing a lane outside the allocated buffer has no defined behaviour in
    C: the embedding reads [0.0f] and drops the write. *)
Definition lane (stpbuf : list spec_float) (ch : Z) : spec_float :=
  if ch <? 0 then F32.zero else default F32.zero (stpbuf !! Z.to_nat ch).

Definition set_lane (ch : Z) (v : spec_float) (stpbuf : list spec_float)
  : list spec_float :=
  if ch <? 0 then stpbuf else <[Z.to_nat ch := v]> stpbuf.

(** [for (ch = 0; ch < step_channels; ch++) stpbuf[ch] = stpbuf[ch] * v;] *)
Definition scale_lane (v : spec_float) (stpbuf : list spec_float) (ch : Z)
  : list spec_float :=
  set_lane ch (F32.mul (lane stpbuf ch) v) stpbuf.

Definition limit_lane (temp_max temp_min : spec_float)
           (stpbuf : list spec_float) (ch : Z) : list spec_float :=
  if SFltb temp_max (lane stpbuf ch) then set_lane ch temp_max stpbuf
  else if SFltb (lane stpbuf ch) temp_min then set_lane ch temp_min stpbuf
  else stpbuf.

Definition limiter_max : spec_float := F32.of_Z 32767.
Definition limiter_min : spec_float := F32.of_Z (-32768).

(** One [case] of the command [switch], on the row and its channel count. *)
Definition mix_step (current_subpos : Z) (st : list spec_float * Z)
           (mix : mix_command_data) : list spec_float * Z :=
  let '(stpbuf, step_channels) := st in
  match command mix with
  | MIX_SWAP =>
      let temp_f := lane stpbuf (ch_dst mix) in
      let b1 := set_lane (ch_dst mix) (lane stpbuf (ch_src mix)) stpbuf in
      (set_lane (ch_src mix) temp_f b1, step_channels)
  | MIX_ADD =>
      (set_lane (ch_dst mix)
                (F32.add (lane stpbuf (ch_dst mix))
                         (F32.mul (lane stpbuf (ch_src mix)) (vol mix)))
                stpbuf,
       step_channels)
  | MIX_VOLUME =>
      if ch_dst mix <? 0 then
        (fold_left (scale_lane (vol mix)) (seqZ 0 step_channels) stpbuf, step_channels)
      else (scale_lane (vol mix) stpbuf (ch_dst mix), step_channels)
  | MIX_LIMIT =>
      let temp_max := F32.mul limiter_max (vol mix) in
      let temp_min := F32.mul limiter_min (vol mix) in
      if ch_dst mix <? 0 then
        (fold_left (limit_lane temp_max temp_min) (seqZ 0 step_channels) stpbuf,
         step_channels)
      else (limit_lane temp_max temp_min stpbuf (ch_dst mix), step_channels)
  | MIX_UPMIX =>
      let step_channels := step_channels + 1 in
      let b1 :=
        fold_left (fun b ch => set_lane ch (lane b (ch - 1)) b)
                  (reverse (seqZ (ch_dst mix + 1) (step_channels - 1 - ch_dst mix)))
                  stpbuf in
      (set_lane (ch_dst mix) F32.zero b1, step_channels)
  | MIX_DOWNMIX =>
      let step_channels := step_channels - 1 in
      (fold_left (fun b ch => set_lane ch (lane b (ch + 1)) b)
                 (seqZ (ch_dst mix) (step_channels - ch_dst mix))
                 stpbuf,
       step_channels)
  | MIX_KILLMIX => (stpbuf, ch_dst mix)
  | MIX_FADE =>
      match get_fade_gain mix current_subpos with
      | None => (stpbuf, step_channels)
      | Some cur_vol =>
          if ch_dst mix <? 0 then
            (fold_left (scale_lane cur_vol) (seqZ 0 step_channels) stpbuf, step_channels)
          else (scale_lane cur_vol stpbuf (ch_dst mix), step_channels)
      end
  end.

(** The whole command loop for one sample step. *)
Definition mix_row (current_subpos : Z) (chain : list mix_command_data)
           (st : list spec_float * Z) : list spec_float * Z :=
  fold_left (mix_step current_subpos) chain st.

(** [stpbuf[ch] = temp_outbuf[ch]] for the stream's channels. *)
Definition copy_lanes (temp_outbuf : list Z) (step_channels : Z)
           (stpbuf : list spec_float) : list spec_float :=
  fold_left (fun b ch => set_lane ch (F32.of_Z (default 0 (temp_outbuf !! Z.to_nat ch))) b)
            (seqZ 0 step_channels) stpbuf.

(** State of the sample loop: the working buffer and the two advancing
    pointers, as offsets into [mixbuf] and [outbuf]. *)
Definition mix_sample (vgmstream : VGMSTREAM) (chain : list mix_command_data)
           (outbuf : list Z) (current_pos : Z)
           (st : list spec_float * Z * Z) (s : Z) : list spec_float * Z * Z :=
  let '(buf, temp_mixbuf, temp_outbuf) := st in
  let stpbuf := drop (Z.to_nat temp_mixbuf) buf in
  let step_channels := channels vgmstream in
  let stpbuf := copy_lanes (drop (Z.to_nat temp_outbuf) outbuf) step_channels stpbuf in
  let '(stpbuf, step_channels) :=
    mix_row (current_pos + s) chain (stpbuf, step_channels) in
  (take (Z.to_nat temp_mixbuf) buf ++ stpbuf,
   temp_mixbuf + step_channels,
   temp_outbuf + channels vgmstream).

(** [outbuf[s] = clamp16((int32_t)data->mixbuf[s])] *)
Definition copy_back (buf : list spec_float) (outbuf : list Z) (s : Z) : list Z :=
  <[Z.to_nat s := clamp16 (trunc_to_int32 (lane buf s))]> outbuf.

(** Everything after the two early returns of [mix_vgmstream]. *)
Definition mix_pass (outbuf : list Z) (sample_count : Z) (vgmstream : VGMSTREAM)
           (data : mixing_data) (current_pos : Z) : list Z * VGMSTREAM :=
  let '(buf, _, _) :=
    fold_left (mix_sample vgmstream (mixing_chain data) outbuf current_pos)
              (seqZ 0 sample_count) (mixbuf data, 0, 0) in
  (fold_left (copy_back buf) (seqZ 0 (sample_count * output_channels data)) outbuf,
   set_vgmstream_mixing (Some (set_mixbuf buf data)) vgmstream).

Definition mix_vgmstream (outbuf : list Z) (sample_count : Z) (vgmstream : VGMSTREAM)
  : list Z * VGMSTREAM :=
  match vgmstream_mixing vgmstream with
  | None => (outbuf, vgmstream)
  | Some data =>
      if negb (mixing_on data) || (mixing_count data =? 0) then (outbuf, vgmstream)
      else
        let current_pos := get_current_pos vgmstream in
        if negb (is_active data current_pos (current_pos + sample_count)) then
          (outbuf, vgmstream)
        else mix_pass outbuf sample_count vgmstream data current_pos
  end.

(** ** Lifecycle *)

(** [calloc] zeroes the state; the chain is empty and there is no buffer. *)
Definition mixing_init (vgmstream : VGMSTREAM) : VGMSTREAM :=
  set_vgmstream_mixing
    (Some (MixingData (channels vgmstream) (channels vgmstream) false
                      VGMSTREAM_MAX_MIXING [] []))
    vgmstream.

Definition mixing_update_channel (vgmstream : VGMSTREAM) : VGMSTREAM :=
  with_mixing
    (fun data =>
       set_output_channels (output_channels data + 1)
         (set_mixing_channels (mixing_channels data + 1) data))
    vgmstream.

(** ** Chain builder *)

Definition add_mixing (vgmstream : VGMSTREAM) (mix : mix_command_data)
  : bool * VGMSTREAM :=
  match vgmstream_mixing vgmstream with
  | None => (false, vgmstream)
  | Some data =>
      if mixing_on data then (false, vgmstream)
      else if mixing_count data + 1 >? mixing_size data then (false, vgmstream)
      else
        (true,
         set_vgmstream_mixing
           (Some (set_mixing_chain (mixing_chain data ++ [mix]) data)) vgmstream)
  end.

Definition new_mix (cmd : mix_command_t) (dst src : Z) (v : spec_float)
  : mix_command_data :=
  MixCommand cmd dst src v (vol_start mix_zero) (vol_end mix_zero) (shape mix_zero)
             (time_pre mix_zero) (time_start mix_zero) (time_end mix_zero)
             (time_post mix_zero).

Definition mixing_push_swap (vgmstream : VGMSTREAM) (ch_dst ch_src : Z) : VGMSTREAM :=
  if (ch_dst <? 0) || (ch_src <? 0) || (ch_dst =? ch_src) then vgmstream
  else
    match vgmstream_mixing vgmstream with
    | None => vgmstream
    | Some data =>
        if (ch_dst >=? output_channels data) || (ch_src >=? output_channels data)
        then vgmstream
        else snd (add_mixing vgmstream (new_mix MIX_SWAP ch_dst ch_src (vol mix_zero)))
    end.

Definition mixing_push_add (vgmstream : VGMSTREAM) (ch_dst ch_src : Z)
           (volume : spec_float) : VGMSTREAM :=
  match vgmstream_mixing vgmstream with
  | None => vgmstream
  | Some data =>
      if SFeqb volume F64.zero then vgmstream
      else if (ch_dst <? 0) || (ch_src <? 0) then vgmstream
      else if (ch_dst >=? output_channels data) || (ch_src >=? output_channels data)
      then vgmstream
      else snd (add_mixing vgmstream
                           (new_mix MIX_ADD ch_dst ch_src (F32.of_double volume)))
  end.

Definition mixing_push_volume (vgmstream : VGMSTREAM) (ch_dst : Z)
           (volume : spec_float) : VGMSTREAM :=
  if SFeqb volume F64.one then vgmstream
  else
    match vgmstream_mixing vgmstream with
    | None => vgmstream
    | Some data =>
        if ch_dst >=? output_channels data then vgmstream
        else snd (add_mixing vgmstream
                             (new_mix MIX_VOLUME ch_dst (ch_src mix_zero)
                                      (F32.of_double volume)))
    end.

Definition mixing_push_limit (vgmstream : VGMSTREAM) (ch_dst : Z)
           (volume : spec_float) : VGMSTREAM :=
  if SFltb volume F64.zero then vgmstream
  else if SFeqb volume F64.one then vgmstream
  else
    match vgmstream_mixing vgmstream with
    | None => vgmstream
    | Some data =>
        if ch_dst >=? output_channels data then vgmstream
        else snd (add_mixing vgmstream
                             (new_mix MIX_LIMIT ch_dst (ch_src mix_zero)
                                      (F32.of_double volume)))
    end.

Definition mixing_push_upmix (vgmstream : VGMSTREAM) (ch_dst : Z) : VGMSTREAM :=
  if ch_dst <? 0 then vgmstream
  else
    match vgmstream_mixing vgmstream with
    | None => vgmstream
    | Some data =>
        if (ch_dst >? output_channels data)
           || (output_channels data + 1 >? VGMSTREAM_MAX_CHANNELS)
        then vgmstream
        else
          let '(ok, vgmstream) :=
            add_mixing vgmstream
                       (new_mix MIX_UPMIX ch_dst (ch_src mix_zero) (vol mix_zero)) in
          if ok then
            with_mixing
              (fun data =>
                 let data := set_output_channels (output_channels data + 1) data in
                 if mixing_channels data <? output_channels data
                 then set_mixing_channels (output_channels data) data
                 else data)
              vgmstream
          else vgmstream
    end.

Definition mixing_push_downmix (vgmstream : VGMSTREAM) (ch_dst : Z) : VGMSTREAM :=
  if ch_dst <? 0 then vgmstream
  else
    match vgmstream_mixing vgmstream with
    | None => vgmstream
    | Some data =>
        if (ch_dst >=? output_channels data) || (output_channels data - 1 <? 1)
        then vgmstream
        else
          let '(ok, vgmstream) :=
            add_mixing vgmstream
                       (new_mix MIX_DOWNMIX ch_dst (ch_src mix_zero) (vol mix_zero)) in
          if ok then
            with_mixing
              (fun data => set_output_channels (output_channels data - 1) data)
              vgmstream
          else vgmstream
    end.

Definition mixing_push_killmix (vgmstream : VGMSTREAM) (ch_dst : Z) : VGMSTREAM :=
  if ch_dst <=? 0 then vgmstream
  else
    match vgmstream_mixing vgmstream with
    | None => vgmstream
    | Some data =>
        if ch_dst >=? output_channels data then vgmstream
        else
          let '(ok, vgmstream) :=
            add_mixing vgmstream
                       (new_mix MIX_KILLMIX ch_dst (ch_src mix_zero) (vol mix_zero)) in
          if ok then with_mixing (set_output_channels ch_dst) vgmstream
          else vgmstream
    end.

(** [get_last_fade] returns a pointer into the chain; here it is the index
    of that element.  [i] runs from [mixing_count] down to 1. *)
Fixpoint get_last_fade_from (chain : list mix_command_data) (i : nat)
         (target_channel : Z) : option nat :=
  match i with
  | O => None
  | S j =>
      match chain !! j with
      | Some mix =>
          if negb (is_fade mix) then get_last_fade_from chain j target_channel
          else if ch_dst mix =? target_channel then Some j
          else get_last_fade_from chain j target_channel
      | None => get_last_fade_from chain j target_channel
      end
  end.

Definition get_last_fade (data : mixing_data) (target_channel : Z) : option nat :=
  get_last_fade_from (mixing_chain data) (length (mixing_chain data)) target_channel.

(** The stitching block of [mixing_push_fade] for a previous fade [prev]:
    returns the previous fade and the new one after the assignments. *)
Definition stitch_fades (mix_prev mix : mix_command_data)
  : mix_command_data * mix_command_data :=
  if (time_post mix_prev <? 0) || (time_pre mix <? 0) then
    let is_prev :=
      negb ((time_end mix_prev >? time_start mix)
            || ((time_post mix_prev >=? 0) && (time_post mix_prev >? time_start mix))
            || ((time_pre mix >=? 0) && (time_pre mix <? time_end mix_prev))) in
    if is_prev then
      let '(mix_prev, mix) :=
        if (time_post mix_prev <? 0) && (time_post mix_prev <? 0) then
          let mix_prev := set_time_post (time_end mix_prev) mix_prev in
          (mix_prev, set_time_pre (time_post mix_prev) mix)
        else (mix_prev, mix) in
      if (time_post mix_prev >=? 0) && (time_pre mix <? 0) then
        (mix_prev, set_time_pre (time_post mix_prev) mix)
      else if (time_post mix_prev <? 0) && (time_pre mix >=? 0) then
        (set_time_post (time_pre mix) mix_prev, mix)
      else (mix_prev, mix)
    else (mix_prev, mix)
  else (mix_prev, mix).

Definition mixing_push_fade (vgmstream : VGMSTREAM) (ch_dst : Z)
           (vol_start vol_end : spec_float) (shape : ascii)
           (time_pre time_start time_end time_post : Z) : VGMSTREAM :=
  match vgmstream_mixing vgmstream with
  | None => vgmstream
  | Some data =>
      if ch_dst >=? output_channels data then vgmstream
      else if (time_pre >? time_start) || (time_start >? time_end)
              || ((time_post >=? 0) && (time_end >? time_post)) then vgmstream
      else if (time_start <? 0) || (time_end <? 0) then vgmstream
      else
        let shape :=
          if Ascii.eqb shape "{" || Ascii.eqb shape "}" then "E"%char else shape in
        let shape :=
          if Ascii.eqb shape "(" || Ascii.eqb shape ")" then "H"%char else shape in
        let mix :=
          MixCommand MIX_FADE ch_dst (ch_src mix_zero) (vol mix_zero)
                     (F32.of_double vol_start) (F32.of_double vol_end) shape
                     time_pre time_start time_end time_post in
        match get_last_fade data ch_dst (* mix.ch_dst *) with
        | None =>
            (* the two assignments go to the by-value parameters; [mix] was
               filled in before and is not touched *)
            let time_pre :=
              if SFeqb vol_start F64.one && (time_pre <? 0) then time_start
              else time_pre in
            let time_post :=
              if SFeqb vol_end F64.one && (time_post <? 0) then time_end
              else time_post in
            snd (add_mixing vgmstream mix)
        | Some i =>
            match mixing_chain data !! i with
            | None => snd (add_mixing vgmstream mix)
            | Some mix_prev =>
                let '(mix_prev, mix) := stitch_fades mix_prev mix in
                let data := set_mixing_chain (<[i := mix_prev]> (mixing_chain data)) data in
                snd (add_mixing (set_vgmstream_mixing (Some data) vgmstream) mix)
            end
        end
  end.

(** ** Macros *)

Definition UINT32_MAX : Z := 4294967295.

(** [(mask >> ch) & 1] on a [uint32_t] mask.  A shift count of 32 or more
    has no defined behaviour in C; [Z.shiftr] gives 0 there. *)
Definition mask_bit (mask ch : Z) : bool := Z.odd (Z.shiftr mask ch).

(** [current++; if (current >= max) current = 0;] *)
Definition next_lane (current max : Z) : Z :=
  if current + 1 >=? max then 0 else current + 1.

(** [1 / sqrt(n)] for an [int] [n], in double arithmetic. *)
Definition inv_sqrt (n : Z) : spec_float :=
  F64.div (F64.of_Z 1) (F64.sqrt (F64.of_Z n)).

(** C remainder; a zero divisor traps. *)
Definition c_rem (a b : Z) : option Z :=
  if b =? 0 then None else Some (Z.rem a b).

Definition mixing_macro_volume (vgmstream : VGMSTREAM) (volume : spec_float)
           (mask : Z) : VGMSTREAM :=
  match vgmstream_mixing vgmstream with
  | None => vgmstream
  | Some data =>
      if mask =? 0 then mixing_push_volume vgmstream (-1) volume
      else
        (* [mixing_push_volume] leaves [output_channels] alone, so the loop
           bound read on every iteration is the one read here *)
        fold_left
          (fun vg ch => if negb (mask_bit mask ch) then vg
                        else mixing_push_volume vg ch volume)
          (seqZ 0 (output_channels data)) vgmstream
  end.

Definition mixing_macro_track (vgmstream : VGMSTREAM) (mask : Z) : VGMSTREAM :=
  match vgmstream_mixing vgmstream with
  | None => vgmstream
  | Some data =>
      if mask =? 0 then vgmstream
      else
        fold_left
          (fun vg ch => if mask_bit mask ch then vg else mixing_push_downmix vg ch)
          (reverse (seqZ 0 (output_channels data))) vgmstream
  end.

(** Volume of one layer in [mixing_macro_layer]; [None] when the remainder
    is taken by zero. *)
Definition layer_volume (mode : ascii) (max selected_channels current ch : Z)
  : option spec_float :=
  let volume := Some F64.one in
  let volume :=
    if Ascii.eqb mode "b" && (ch <? max) then
      let channel_mixes := Z.quot selected_channels max in
      match c_rem selected_channels (channel_mixes * max) with
      | None => None
      | Some r =>
          let channel_mixes := if current <? r then channel_mixes + 1 else channel_mixes in
          let channel_mixes := channel_mixes - 1 in
          let channel_mixes := if channel_mixes <=? 0 then 1 else channel_mixes in
          Some (inv_sqrt channel_mixes)
      end
    else volume in
  match volume with
  | None => None
  | Some volume =>
      if (Ascii.eqb mode "b" && (ch >=? max)) || Ascii.eqb mode "e" then
        let channel_mixes := Z.quot selected_channels max in
        let channel_mixes := if channel_mixes <=? 0 then 1 else channel_mixes in
        match c_rem selected_channels (channel_mixes * max) with
        | None => None
        | Some r =>
            let channel_mixes :=
              if current <? r then channel_mixes + 1 else channel_mixes in
            Some (inv_sqrt channel_mixes)
        end
      else Some volume
  end.

(** Body of the layering loop on [(vgmstream, current)]. *)
Definition layer_step (mode : ascii) (max mask selected_channels : Z)
           (st : option (VGMSTREAM * Z)) (ch : Z) : option (VGMSTREAM * Z) :=
  match st with
  | None => None
  | Some (vg, current) =>
      if negb (mask_bit mask ch) then Some (vg, current)
      else
        match layer_volume mode max selected_channels current ch with
        | None => None
        | Some volume =>
            Some (mixing_push_add vg current (max + ch) volume, next_lane current max)
        end
  end.

(** [None] stands for the division trap of mode 'b'. *)
Definition mixing_macro_layer (vgmstream : VGMSTREAM) (max mask : Z) (mode : ascii)
  : option VGMSTREAM :=
  match vgmstream_mixing vgmstream with
  | None => Some vgmstream
  | Some data =>
      if (max <=? 0) || (output_channels data <=? max) then Some vgmstream
      else
        let mask := if mask =? 0 then UINT32_MAX else mask in
        let output_channels := output_channels data in
        let selected_channels :=
          fold_left (fun n ch => n + (if mask_bit mask ch then 1 else 0))
                    (seqZ 0 output_channels) 0 in
        let vg :=
          fold_left (fun vg _ => mixing_push_upmix vg 0) (seqZ 0 max) vgmstream in
        match fold_left (layer_step mode max mask selected_channels)
                        (seqZ 0 output_channels) (Some (vg, 0)) with
        | None => None
        | Some (vg, _) => Some (mixing_push_killmix vg max)
        end
  end.

(** [for (ch = max; ch < output_channels; ch++)] adding every track or layer
    into the first [max] lanes, then the final [Killmix]. *)
Definition mix_into_first (vgmstream : VGMSTREAM) (max output_channels : Z) : VGMSTREAM :=
  let '(vg, _) :=
    fold_left (fun '(vg, current) ch =>
                 (mixing_push_add vg current ch F64.one, next_lane current max))
              (seqZ max (output_channels - max)) (vgmstream, 0) in
  mixing_push_killmix vg max.

(** [(int32_t)(secs * sample_rate)] *)
Definition seconds_to_samples (secs sample_rate : Z) : Z :=
  trunc_to_int32 (F64.mul (F64.of_Z secs) (F64.of_Z sample_rate)).

(** The common prologue of both crossfade macros: odd channel counts are
    padded with one [Upmix], and the loop count is raised. *)
Definition pad_and_loop (vgmstream : VGMSTREAM) (data : mixing_data) (max : Z)
  : VGMSTREAM * Z * Z :=
  let output_channels := output_channels data in
  let '(vg, output_channels) :=
    if Z.rem output_channels 2 =? 0 then (vgmstream, output_channels)
    else (mixing_push_upmix vgmstream output_channels, output_channels + 1) in
  let num := Z.quot output_channels max in
  let vg := if config_loop_count vg <? num then set_config_loop_count num vg else vg in
  (vg, output_channels, num).

Definition mixing_macro_crosstrack (vgmstream : VGMSTREAM) (max : Z) : VGMSTREAM :=
  match vgmstream_mixing vgmstream with
  | None => vgmstream
  | Some data =>
      if (max <=? 0) || (output_channels data <=? max) then vgmstream
      else if negb (loop_flag vgmstream) then vgmstream
      else
        let '(vg, output_channels, track_num) := pad_and_loop vgmstream data max in
        let track_step (vg : VGMSTREAM) (track : Z) : VGMSTREAM :=
          let ch := max * track in (* [ch += max] once per track *)
          let volume := F64.one in
          let loop_pre := loop_start_sample vg in
          let loop_samples := loop_end_sample vg - loop_start_sample vg in
          let change_pos := loop_pre + loop_samples * track in
          let change_next := loop_pre + loop_samples * (track + 1) in
          let change_time := seconds_to_samples 15 (sample_rate vg) in
          fold_left
            (fun vg track_ch =>
               let vg :=
                 if track >? 0 then
                   mixing_push_fade vg (ch + track_ch) F64.zero volume "("
                                    (-1) change_pos (change_pos + change_time) (-1)
                 else vg in
               if track + 1 <? track_num then
                 mixing_push_fade vg (ch + track_ch) volume F64.zero ")"
                                  (-1) change_next (change_next + change_time) (-1)
               else vg)
            (seqZ 0 max) vg in
        let vg := fold_left track_step (seqZ 0 track_num) vg in
        mix_into_first vg max output_channels
  end.

(** Fade volumes of one layer in one loop of [mixing_macro_crosslayer]:
    [volume1], [volume2] carry over from layer to layer as in the C loop. *)
Definition crosslayer_volumes (mode : ascii) (loop layer : Z)
           (volume1 volume2 : spec_float) : spec_float * spec_float :=
  if Ascii.eqb mode "b" then
    if layer =? 0 then
      (inv_sqrt (if loop - 1 <=? 0 then 1 else loop - 1), inv_sqrt (loop + 0))
    else (inv_sqrt (loop + 0), inv_sqrt (loop + 1))
  else (volume1, volume2).

Definition mixing_macro_crosslayer (vgmstream : VGMSTREAM) (max : Z) (mode : ascii)
  : VGMSTREAM :=
  match vgmstream_mixing vgmstream with
  | None => vgmstream
  | Some data =>
      if (max <=? 0) || (output_channels data <=? max) then vgmstream
      else if negb (loop_flag vgmstream) then vgmstream
      else
        let '(vg, output_channels, layer_num) := pad_and_loop vgmstream data max in
        let layer_step (loop change_pos change_time : Z)
                       (st : VGMSTREAM * Z * spec_float * spec_float) (layer : Z) :=
          let '(vg, ch, volume1, volume2) := st in
          let '(volume1, volume2) := crosslayer_volumes mode loop layer volume1 volume2 in
          if layer >? loop then (vg, ch, volume1, volume2)
          else
            let '(volume1, type) :=
              if layer =? loop then (F64.zero, "("%char) else (volume1, ")"%char) in
            (fold_left
               (fun vg layer_ch =>
                  mixing_push_fade vg (ch + layer_ch) volume1 volume2 type
                                   (-1) change_pos (change_pos + change_time) (-1))
               (seqZ 0 max) vg,
             ch + max, volume1, volume2) in
        let loop_step (vg : VGMSTREAM) (loop : Z) : VGMSTREAM :=
          let loop_pre := loop_start_sample vg in
          let loop_samples := loop_end_sample vg - loop_start_sample vg in
          let change_pos := loop_pre + loop_samples * loop in
          let change_time := seconds_to_samples 10 (sample_rate vg) in
          let '(volume1, volume2) :=
            if Ascii.eqb mode "e" then (inv_sqrt (loop + 0), inv_sqrt (loop + 1))
            else (F64.one, F64.one) in
          fst (fst (fst (fold_left (layer_step loop change_pos change_time)
                                   (seqZ 0 layer_num) (vg, 0, volume1, volume2)))) in
        let vg := fold_left loop_step (seqZ 1 (layer_num - 1)) vg in
        mix_into_first vg max output_channels
  end.

(** ** Activation and query *)

(** [alloc_ok] says whether [realloc] succeeds.  The contents of newly
    allocated floats are indeterminate in C; they are [0.0f] here. *)
Definition mixing_setup (alloc_ok : bool) (vgmstream : VGMSTREAM)
           (max_sample_count : Z) : VGMSTREAM :=
  match vgmstream_mixing vgmstream with
  | None => vgmstream
  | Some data =>
      let vg :=
        if negb (channel_layout vgmstream =? 0)
           && negb (channels vgmstream =? output_channels data)
        then set_channel_layout 0 vgmstream else vgmstream in
      if max_sample_count <=? 0 then vg
      else if negb alloc_ok then vg
      else
        let mixbuf_re :=
          resize (Z.to_nat (max_sample_count * mixing_channels data)) F32.zero
                 (mixbuf data) in
        set_vgmstream_mixing (Some (set_mixing_on true (set_mixbuf mixbuf_re data))) vg
  end.

(** [(input_channels, output_channels)], or nothing without mixing data. *)
Definition mixing_info (vgmstream : VGMSTREAM) : option (Z * Z) :=
  match vgmstream_mixing vgmstream with
  | None => None
  | Some data =>
      let input_channels :=
        if output_channels data >? channels vgmstream then output_channels data
        else channels vgmstream in
      Some (input_channels, output_channels data)
  end.

(** ** Reference states and scripts used in the statements *)

(** A stream of [n] channels as the decoder hands it over, before
    [mixing_init]. *)
Definition plain_stream (n : Z) : VGMSTREAM :=
  Vgmstream n 44100 false 0 0 0 0 0 0 None.

Definition chain_of (vgmstream : VGMSTREAM) : list mix_command_data :=
  match vgmstream_mixing vgmstream with
  | Some data => mixing_chain data
  | None => []
  end.

Definition chain_mixbuf (vgmstream : VGMSTREAM) : list spec_float :=
  match vgmstream_mixing vgmstream with
  | Some data => mixbuf data
  | None => []
  end.

(** The channel counters satisfy [1 <= output_channels <= mixing_channels];
    for a stream this is about its mixing data, which must be there. *)
Definition channels_inv (data : mixing_data) : Prop :=
  1 <= output_channels data <= mixing_channels data.

Definition stream_inv (vgmstream : VGMSTREAM) : Prop :=
  match vgmstream_mixing vgmstream with
  | Some data => channels_inv data
  | None => False
  end.

(** The timing invariant of a stored fade (data model, section 3). *)
Definition fade_wf (mix : mix_command_data) : Prop :=
  time_pre mix <= time_start mix <= time_end mix
  /\ (0 <= time_post mix -> time_end mix <= time_post mix).

(** Every fade stored in the chain meets the timing invariant and starts at
    a position that is not negative. *)
Definition stored_fade_ok (mix : mix_command_data) : Prop :=
  is_fade mix = true -> fade_wf mix /\ 0 <= time_start mix.

Definition chain_fades_ok (vgmstream : VGMSTREAM) : Prop :=
  Forall stored_fade_ok (chain_of vgmstream).

(** A fade's effective active window: from [time_pre] if set, else 0, up to
    [time_post] if set, else without end. *)
Definition in_active_window (mix : mix_command_data) (p : Z) : Prop :=
  (if time_pre mix <? 0 then 0 else time_pre mix) <= p
  /\ (time_post mix < 0 \/ p < time_post mix).

(** The sample range [[current_pos, current_pos + sample_count)] has no
    position in the window. *)
Definition range_misses_window (current_pos sample_count : Z)
           (mix : mix_command_data) : Prop :=
  forall p, current_pos <= p < current_pos + sample_count ->
            ~ in_active_window mix p.

Definition window_nonempty (mix : mix_command_data) : Prop :=
  exists p, in_active_window mix p.

Definition is_int16 (x : Z) : Prop := -32768 <= x <= 32767.

(** What [mix_vgmstream] expects of its buffers: the working buffer holds
    [sample_count] rows of the stream's channels (as [mixing_setup] sizes
    it), no more channels are written back than were copied in, and the
    output buffer holds 16-bit samples. *)
Definition buffers_fit (outbuf : list Z) (sample_count : Z)
           (vgmstream : VGMSTREAM) (data : mixing_data) : Prop :=
  0 <= sample_count
  /\ 0 <= output_channels data <= channels vgmstream
  /\ sample_count * channels vgmstream <= Z.of_nat (length (mixbuf data))
  /\ Forall is_int16 outbuf.

(** One call of the configuration API. *)
Inductive builder_call :=
  | CallSwap (ch_dst ch_src : Z)
  | CallAdd (ch_dst ch_src : Z) (volume : spec_float)
  | CallVolume (ch_dst : Z) (volume : spec_float)
  | CallLimit (ch_dst : Z) (volume : spec_float)
  | CallUpmix (ch_dst : Z)
  | CallDownmix (ch_dst : Z)
  | CallKillmix (ch_dst : Z)
  | CallFade (ch_dst : Z) (vol_start vol_end : spec_float) (shape : ascii)
             (time_pre time_start time_end time_post : Z)
  | MacroVolume (volume : spec_float) (mask : Z)
  | MacroTrack (mask : Z)
  | MacroLayer (max mask : Z) (mode : ascii)
  | MacroCrosstrack (max : Z)
  | MacroCrosslayer (max : Z) (mode : ascii).

Definition run_call (vgmstream : VGMSTREAM) (c : builder_call) : option VGMSTREAM :=
  match c with
  | CallSwap d s => Some (mixing_push_swap vgmstream d s)
  | CallAdd d s v => Some (mixing_push_add vgmstream d s v)
  | CallVolume d v => Some (mixing_push_volume vgmstream d v)
  | CallLimit d v => Some (mixing_push_limit vgmstream d v)
  | CallUpmix d => Some (mixing_push_upmix vgmstream d)
  | CallDownmix d => Some (mixing_push_downmix vgmstream d)
  | CallKillmix d => Some (mixing_push_killmix vgmstream d)
  | CallFade d vs ve sh t0 t1 t2 t3 =>
      Some (mixing_push_fade vgmstream d vs ve sh t0 t1 t2 t3)
  | MacroVolume v mask => Some (mixing_macro_volume vgmstream v mask)
  | MacroTrack mask => Some (mixing_macro_track vgmstream mask)
  | MacroLayer max mask mode => mixing_macro_layer vgmstream max mask mode
  | MacroCrosstrack max => Some (mixing_macro_crosstrack vgmstream max)
  | MacroCrosslayer max mode => Some (mixing_macro_crosslayer vgmstream max mode)
  end.

Fixpoint run_calls (vgmstream : VGMSTREAM) (cs : list builder_call)
  : option VGMSTREAM :=
  match cs with
  | [] => Some vgmstream
  | c :: rest =>
      match run_call vgmstream c with
      | Some vg => run_calls vg rest
      | None => None
      end
  end.

(** The fade of the end-to-end example of section 8. *)
Definition example_fade : mix_command_data :=
  MixCommand MIX_FADE (-1) 0 F32.zero F32.one F32.zero "T" (-1) 0 100 (-1).

Definition f32_half : spec_float := S754_finite false 8388608 (-24).

(** The chain that [Layer-downmix(2, 0b1111, 'v')] builds on four channels. *)
Definition layer_v_chain : list mix_command_data :=
  [ new_mix MIX_UPMIX 0 0 F32.zero;
    new_mix MIX_UPMIX 0 0 F32.zero;
    new_mix MIX_ADD 0 2 F32.one;
    new_mix MIX_ADD 1 3 F32.one;
    new_mix MIX_ADD 0 4 F32.one;
    new_mix MIX_ADD 1 5 F32.one;
    new_mix MIX_KILLMIX 2 0 F32.zero ].

(** An activated two-channel stream whose only command is a fade bounded
    on both sides, [Fade(all, 0.0, 1.0, 'T', 100, 100, 200, 300)]. *)
Definition bounded_fade : mix_command_data :=
  MixCommand MIX_FADE (-1) 0 F32.zero F32.zero F32.one "T" 100 100 200 300.

Definition idle_fade_data : mixing_data :=
  MixingData 2 2 true VGMSTREAM_MAX_MIXING [bounded_fade] (replicate 32 F32.zero).

Definition idle_fade_stream : VGMSTREAM :=
  Vgmstream 2 44100 false 0 0 0 0 0 0 (Some idle_fade_data).

(** A stream at sample 4 with a fade whose four boundaries coincide: its
    window [[5, 5)] holds no position. *)
Definition point_fade : mix_command_data :=
  MixCommand MIX_FADE (-1) 0 F32.zero F32.zero F32.one "T" 5 5 5 5.

Definition point_fade_stream : VGMSTREAM :=
  Vgmstream 2 44100 false 0 0 4 0 0 0
            (Some (MixingData 2 2 true VGMSTREAM_MAX_MIXING [point_fade]
                              (replicate 32 F32.zero))).

(** A freshly initialised four-channel stream. *)
Definition fresh_data4 : mixing_data :=
  MixingData 4 4 false VGMSTREAM_MAX_MIXING [] [].

(** A two-channel stream with one open-ended fade, activated. *)
Definition locked_fade_stream : VGMSTREAM :=
  mixing_setup true
    (mixing_push_fade (mixing_init (plain_stream 2)) (-1)
                      F64.one F64.zero "T" (-1) 0 100 (-1))
    16.

(** ** Shape of a chain

    [width_after] is how the command [switch] of [mix_vgmstream] updates
    [step_channels]; [command_valid w] says that the lanes a command names
    exist in a row of [w] active channels. *)
Definition width_after (w : Z) (mix : mix_command_data) : Z :=
  match command mix with
  | MIX_UPMIX => w + 1
  | MIX_DOWNMIX => w - 1
  | MIX_KILLMIX => ch_dst mix
  | _ => w
  end.

Definition chain_width (w : Z) (chain : list mix_command_data) : Z :=
  fold_left width_after chain w.

Definition command_valid (w : Z) (mix : mix_command_data) : Prop :=
  match command mix with
  | MIX_SWAP =>
      0 <= ch_dst mix < w /\ 0 <= ch_src mix < w /\ ch_dst mix <> ch_src mix
  | MIX_ADD => 0 <= ch_dst mix < w /\ 0 <= ch_src mix < w
  | MIX_VOLUME | MIX_LIMIT | MIX_FADE => ch_dst mix < w
  | MIX_UPMIX => 0 <= ch_dst mix <= w
  | MIX_DOWNMIX => 0 <= ch_dst mix < w /\ 2 <= w
  | MIX_KILLMIX => 0 < ch_dst mix < w
  end.

(** Every command is valid for the width the commands before it leave, and
    no width along the chain exceeds [peak]. *)
Fixpoint chain_valid (w peak : Z) (chain : list mix_command_data) : Prop :=
  match chain with
  | [] => True
  | mix :: rest =>
      command_valid w mix /\ width_after w mix <= peak
      /\ chain_valid (width_after w mix) peak rest
  end.

(** The overlap test that [is_active] applies to one fade. *)
Definition fade_overlaps (mix : mix_command_data) (current_start current_end : Z) : Prop :=
  current_start < (if time_post mix <? 0 then INT_MAX else time_post mix)
  /\ (if time_pre mix <? 0 then 0 else time_pre mix) < current_end.

(** The builder's view of a stream: chain shape and counters agree. *)
Definition chain_shape_ok (vgmstream : VGMSTREAM) : Prop :=
  match vgmstream_mixing vgmstream with
  | Some data =>
      channels vgmstream <= mixing_channels data
      /\ chain_valid (channels vgmstream) (mixing_channels data) (mixing_chain data)
      /\ chain_width (channels vgmstream) (mixing_chain data) = output_channels data
  | None => False
  end.

(** An activated stream with the given command count, counters and
    working buffer. *)
Definition locked_as (n : nat) (oc mc : Z) (buf : list spec_float)
           (vgmstream : VGMSTREAM) : Prop :=
  match vgmstream_mixing vgmstream with
  | Some data =>
      mixing_on data = true /\ length (mixing_chain data) = n
      /\ output_channels data = oc /\ mixing_channels data = mc
      /\ mixbuf data = buf
  | None => False
  end.

(** Two rows hold the same value in each of the first [w] lanes. *)
Definition lanes_agree (w : Z) (a b : list spec_float) : Prop :=
  forall c, 0 <= c < w -> lane a c = lane b c.

(** The samples of step [s] of an interleaved buffer of [ch] channels, as
    the sample loop converts them. *)
Definition frame_in (outbuf : list Z) (ch s : Z) : list spec_float :=
  F32.of_Z <$> take (Z.to_nat ch) (drop (Z.to_nat (s * ch)) outbuf).

(** The chain run at position [pos] on one frame alone, in a silent row of
    [peak] lanes. *)
Definition frame_out (pos : Z) (chain : list mix_command_data) (ch peak : Z)
           (frame : list spec_float) : list spec_float :=
  fst (mix_row pos chain (frame ++ replicate (Z.to_nat (peak - ch)) F32.zero, ch)).

(** How many of the channels [0 .. n-1] a mask selects. *)
Definition kept_channels (mask n : Z) : Z :=
  Z.of_nat (length (List.filter (mask_bit mask) (seqZ 0 n))).

(** A stream still being configured, with at least [k] output channels. *)
Definition config_open (k : Z) (vgmstream : VGMSTREAM) : Prop :=
  match vgmstream_mixing vgmstream with
  | Some data =>
      mixing_on data = false /\ k <= output_channels data
      /\ mixing_count data <= mixing_size data
  | None => False
  end.

(** What a down-mixing macro leaves: [max] output channels, unless the
    chain has no room left. *)
Definition mixed_down (max : Z) (vgmstream : VGMSTREAM) : Prop :=
  match vgmstream_mixing vgmstream with
  | Some data =>
      output_channels data = max \/ mixing_count data = mixing_size data
  | None => False
  end.

(** ** Basic facts about the builder *)

Lemma add_mixing_cases vgmstream mix :
  add_mixing vgmstream mix = (false, vgmstream)
  \/ exists data,
      vgmstream_mixing vgmstream = Some data
      /\ mixing_on data = false
      /\ mixing_count data + 1 <= mixing_size data
      /\ add_mixing vgmstream mix =
         (true, set_vgmstream_mixing
                  (Some (set_mixing_chain (mixing_chain data ++ [mix]) data))
                  vgmstream).
Proof.
  unfold add_mixing.
  destruct (vgmstream_mixing vgmstream) as [data|] eqn:E; [|by left].
  destruct (mixing_on data) eqn:On; [by left|].
  destruct (mixing_count data + 1 >? mixing_size data) eqn:Full; [by left|].
  right. exists data. repeat split; try done. lia.
Qed.

Lemma add_mixing_rejected_active vgmstream data mix :
  vgmstream_mixing vgmstream = Some data ->
  mixing_on data = true ->
  add_mixing vgmstream mix = (false, vgmstream).
Proof. intros E On. unfold add_mixing. by rewrite E, On. Qed.

Lemma add_mixing_rejected_full vgmstream data mix :
  vgmstream_mixing vgmstream = Some data ->
  mixing_size data <= mixing_count data ->
  add_mixing vgmstream mix = (false, vgmstream).
Proof.
  intros E Full. unfold add_mixing. rewrite E.
  destruct (mixing_on data); [done|].
  destruct (mixing_count data + 1 >? mixing_size data) eqn:C; [done|lia].
Qed.

Lemma add_mixing_accepted vgmstream data mix :
  vgmstream_mixing vgmstream = Some data ->
  mixing_on data = false ->
  mixing_count data < mixing_size data ->
  add_mixing vgmstream mix =
  (true, set_vgmstream_mixing
           (Some (set_mixing_chain (mixing_chain data ++ [mix]) data)) vgmstream).
Proof.
  intros E On Room. unfold add_mixing. rewrite E, On.
  destruct (mixing_count data + 1 >? mixing_size data) eqn:C; [lia|done].
Qed.

(** C10: a fade whose [time_start] or [time_end] is negative is dropped and
    the stream is returned as it was; nothing is appended.  Only [time_pre]
    and [time_post] can carry the open value. *)
Theorem mixing_push_fade_negative_times vgmstream ch_dst vol_start vol_end shape
        time_pre time_start time_end time_post :
  time_start < 0 \/ time_end < 0 ->
  mixing_push_fade vgmstream ch_dst vol_start vol_end shape
                   time_pre time_start time_end time_post = vgmstream.
Proof.
  intros Hneg. unfold mixing_push_fade.
  destruct (vgmstream_mixing vgmstream) as [data|]; [|done].
  destruct (ch_dst >=? output_channels data); [done|].
  destruct ((time_pre >? time_start) || (time_start >? time_end)
            || ((time_post >=? 0) && (time_end >? time_post))); [done|].
  destruct ((time_start <? 0) || (time_end <? 0)) eqn:C; [done|].
  apply orb_false_iff in C as [C1 C2]. lia.
Qed.

(** Open [time_pre] and [time_post] are accepted. *)
Lemma mixing_push_fade_open_bounds_accepted :
  chain_of (mixing_push_fade (mixing_init (plain_stream 2)) (-1)
                             F64.one F64.zero "T" (-1) 0 100 (-1))
  = [example_fade].
Proof. reflexivity. Qed.

(** C6: in the configuration phase, with room in the chain, [Killmix(k)] is
    appended exactly when [0 < k < output_channels], whatever the chain
    holds, and then [output_channels] is [k]; any other [k] leaves the
    stream as it was. *)
Theorem mixing_push_killmix_spec vgmstream data k :
  vgmstream_mixing vgmstream = Some data ->
  mixing_on data = false ->
  mixing_count data < mixing_size data ->
  (0 < k < output_channels data ->
   vgmstream_mixing (mixing_push_killmix vgmstream k)
   = Some (set_output_channels k
             (set_mixing_chain
                (mixing_chain data
                 ++ [new_mix MIX_KILLMIX k (ch_src mix_zero) (vol mix_zero)])
                data))
   /\ option_map output_channels
                 (vgmstream_mixing (mixing_push_killmix vgmstream k)) = Some k)
  /\ (~ 0 < k < output_channels data ->
      mixing_push_killmix vgmstream k = vgmstream).
Proof.
  intros E On Room. unfold mixing_push_killmix. rewrite E. split.
  - intros [Hlo Hhi].
    destruct (k <=? 0) eqn:C1; [lia|].
    destruct (k >=? output_channels data) eqn:C2; [lia|].
    rewrite (add_mixing_accepted _ data) by done.
    unfold with_mixing. by destruct vgmstream.
  - intros Hout.
    destruct (k <=? 0) eqn:C1; [done|].
    destruct (k >=? output_channels data) eqn:C2; [done|lia].
Qed.

(** Outside the configuration phase nothing is accepted. *)
Lemma mixing_push_killmix_locked vgmstream data k :
  vgmstream_mixing vgmstream = Some data ->
  mixing_on data = true \/ mixing_size data <= mixing_count data ->
  mixing_push_killmix vgmstream k = vgmstream.
Proof.
  intros E Hlock. unfold mixing_push_killmix. rewrite E.
  destruct (k <=? 0); [done|].
  destruct (k >=? output_channels data); [done|].
  destruct Hlock as [On|Full].
  - by rewrite (add_mixing_rejected_active _ data).
  - by rewrite (add_mixing_rejected_full _ data).
Qed.

(** Whenever [Killmix(k)] changes the stream, [k] was in range and
    [output_channels] has become [k]. *)
Lemma mixing_push_killmix_changes vgmstream k :
  mixing_push_killmix vgmstream k <> vgmstream ->
  exists data,
    vgmstream_mixing vgmstream = Some data
    /\ 0 < k < output_channels data
    /\ option_map output_channels
                  (vgmstream_mixing (mixing_push_killmix vgmstream k)) = Some k.
Proof.
  unfold mixing_push_killmix. intros Hne.
  destruct (k <=? 0) eqn:C1; [done|].
  destruct (vgmstream_mixing vgmstream) as [data|] eqn:E; [|done].
  destruct (k >=? output_channels data) eqn:C2; [done|].
  exists data. split; [done|]. split; [lia|].
  destruct (add_mixing_cases vgmstream
              (new_mix MIX_KILLMIX k (ch_src mix_zero) (vol mix_zero)))
    as [R|(d & Ed & _ & _ & R)]; rewrite R in *; [done|].
  unfold with_mixing. by destruct vgmstream.
Qed.

(** ** The channel-counter invariant *)

Lemma stream_inv_set_chain vgmstream data chain :
  channels_inv data ->
  stream_inv (set_vgmstream_mixing (Some (set_mixing_chain chain data)) vgmstream).
Proof. done. Qed.

Lemma stream_inv_data vgmstream data :
  vgmstream_mixing vgmstream = Some data -> stream_inv vgmstream -> channels_inv data.
Proof. unfold stream_inv. by intros ->. Qed.

Lemma add_mixing_inv vgmstream mix :
  stream_inv vgmstream -> stream_inv (snd (add_mixing vgmstream mix)).
Proof.
  intros Hinv.
  destruct (add_mixing_cases vgmstream mix) as [R|(d & E & _ & _ & R)];
    rewrite R; [done|].
  apply stream_inv_set_chain. by eapply stream_inv_data.
Qed.

Lemma mixing_init_inv vgmstream :
  1 <= channels vgmstream -> stream_inv (mixing_init vgmstream).
Proof. unfold stream_inv, channels_inv. simpl. lia. Qed.

Lemma mixing_update_channel_inv vgmstream :
  stream_inv vgmstream -> stream_inv (mixing_update_channel vgmstream).
Proof.
  unfold mixing_update_channel, with_mixing, stream_inv, channels_inv.
  destruct (vgmstream_mixing vgmstream) eqn:E; simpl; [lia|by rewrite E].
Qed.

Lemma mixing_push_swap_inv vgmstream d s :
  stream_inv vgmstream -> stream_inv (mixing_push_swap vgmstream d s).
Proof.
  intros Hinv. unfold mixing_push_swap.
  repeat case_match; try done. by apply add_mixing_inv.
Qed.

Lemma mixing_push_add_inv vgmstream d s v :
  stream_inv vgmstream -> stream_inv (mixing_push_add vgmstream d s v).
Proof.
  intros Hinv. unfold mixing_push_add.
  repeat case_match; try done. by apply add_mixing_inv.
Qed.

Lemma mixing_push_volume_inv vgmstream d v :
  stream_inv vgmstream -> stream_inv (mixing_push_volume vgmstream d v).
Proof.
  intros Hinv. unfold mixing_push_volume.
  repeat case_match; try done. by apply add_mixing_inv.
Qed.

Lemma mixing_push_limit_inv vgmstream d v :
  stream_inv vgmstream -> stream_inv (mixing_push_limit vgmstream d v).
Proof.
  intros Hinv. unfold mixing_push_limit.
  repeat case_match; try done. by apply add_mixing_inv.
Qed.

(** Upmix raises [mixing_channels] to the new [output_channels] when the
    peak is exceeded. *)
Lemma mixing_push_upmix_inv vgmstream d :
  stream_inv vgmstream -> stream_inv (mixing_push_upmix vgmstream d).
Proof.
  intros Hinv. unfold mixing_push_upmix.
  destruct (d <? 0); [done|].
  destruct (vgmstream_mixing vgmstream) as [data|] eqn:E; [|done].
  destruct ((d >? output_channels data)
            || (output_channels data + 1 >? VGMSTREAM_MAX_CHANNELS)); [done|].
  pose proof (stream_inv_data _ _ E Hinv) as Hd.
  destruct (add_mixing_cases vgmstream
              (new_mix MIX_UPMIX d (ch_src mix_zero) (vol mix_zero)))
    as [R|(d' & E' & _ & _ & R)]; rewrite R; [done|].
  assert (d' = data) as -> by congruence.
  unfold with_mixing, stream_inv, channels_inv in *. simpl.
  destruct (mixing_channels data <? output_channels data + 1) eqn:C; simpl; lia.
Qed.

(** Downmix refuses to go below one channel. *)
Lemma mixing_push_downmix_inv vgmstream d :
  stream_inv vgmstream -> stream_inv (mixing_push_downmix vgmstream d).
Proof.
  intros Hinv. unfold mixing_push_downmix.
  destruct (d <? 0); [done|].
  destruct (vgmstream_mixing vgmstream) as [data|] eqn:E; [|done].
  destruct ((d >=? output_channels data) || (output_channels data - 1 <? 1)) eqn:G;
    [done|].
  apply orb_false_iff in G as [G1 G2].
  pose proof (stream_inv_data _ _ E Hinv) as Hd.
  destruct (add_mixing_cases vgmstream
              (new_mix MIX_DOWNMIX d (ch_src mix_zero) (vol mix_zero)))
    as [R|(d' & E' & _ & _ & R)]; rewrite R; [done|].
  assert (d' = data) as -> by congruence.
  unfold with_mixing, stream_inv, channels_inv in *. simpl. lia.
Qed.

(** Killmix only lowers [output_channels], to a positive value. *)
Lemma mixing_push_killmix_inv vgmstream d :
  stream_inv vgmstream -> stream_inv (mixing_push_killmix vgmstream d).
Proof.
  intros Hinv. unfold mixing_push_killmix.
  destruct (d <=? 0) eqn:G0; [done|].
  destruct (vgmstream_mixing vgmstream) as [data|] eqn:E; [|done].
  destruct (d >=? output_channels data) eqn:G; [done|].
  pose proof (stream_inv_data _ _ E Hinv) as Hd.
  destruct (add_mixing_cases vgmstream
              (new_mix MIX_KILLMIX d (ch_src mix_zero) (vol mix_zero)))
    as [R|(d' & E' & _ & _ & R)]; rewrite R; [done|].
  assert (d' = data) as -> by congruence.
  unfold with_mixing, stream_inv, channels_inv in *. simpl. lia.
Qed.

Lemma mixing_push_fade_inv vgmstream d vs ve sh t0 t1 t2 t3 :
  stream_inv vgmstream ->
  stream_inv (mixing_push_fade vgmstream d vs ve sh t0 t1 t2 t3).
Proof.
  intros Hinv. unfold mixing_push_fade.
  destruct (vgmstream_mixing vgmstream) as [data|] eqn:E; [|done].
  pose proof (stream_inv_data _ _ E Hinv) as Hd.
  repeat case_match; try done; by apply add_mixing_inv.
Qed.

Lemma fold_left_inv {A B} (P : A -> Prop) (f : A -> B -> A) (l : list B) (a : A) :
  (forall a x, P a -> P (f a x)) -> P a -> P (fold_left f l a).
Proof. intros Hf. revert a. induction l; simpl; auto. Qed.

(** ** Properties kept by every call of the configuration API

    The macros only act through the primitive constructors, so a property
    of the stream that each primitive keeps is kept by every macro and by
    every sequence of calls. *)

Section CallInvariant.
Variable P : VGMSTREAM -> Prop.
Hypothesis P_swap : forall vg d s, P vg -> P (mixing_push_swap vg d s).
Hypothesis P_add : forall vg d s v, P vg -> P (mixing_push_add vg d s v).
Hypothesis P_volume : forall vg d v, P vg -> P (mixing_push_volume vg d v).
Hypothesis P_limit : forall vg d v, P vg -> P (mixing_push_limit vg d v).
Hypothesis P_upmix : forall vg d, P vg -> P (mixing_push_upmix vg d).
Hypothesis P_downmix : forall vg d, P vg -> P (mixing_push_downmix vg d).
Hypothesis P_killmix : forall vg d, P vg -> P (mixing_push_killmix vg d).
Hypothesis P_fade : forall vg d vs ve sh t0 t1 t2 t3,
    P vg -> P (mixing_push_fade vg d vs ve sh t0 t1 t2 t3).
Hypothesis P_loop_count : forall vg n, P vg -> P (set_config_loop_count n vg).

Lemma mixing_macro_volume_keeps vgmstream v mask :
  P vgmstream -> P (mixing_macro_volume vgmstream v mask).
Proof.
  intros Hinv. unfold mixing_macro_volume.
  destruct (vgmstream_mixing vgmstream); [|done].
  destruct (mask =? 0); [by apply P_volume|].
  apply fold_left_inv; [|done].
  intros vg ch Hvg. destruct (negb (mask_bit mask ch)); [done|].
  by apply P_volume.
Qed.

Lemma mixing_macro_track_keeps vgmstream mask :
  P vgmstream -> P (mixing_macro_track vgmstream mask).
Proof.
  intros Hinv. unfold mixing_macro_track.
  destruct (vgmstream_mixing vgmstream); [|done].
  destruct (mask =? 0); [done|].
  apply fold_left_inv; [|done].
  intros vg ch Hvg. destruct (mask_bit mask ch); [done|].
  by apply P_downmix.
Qed.

Lemma mixing_macro_layer_keeps vgmstream max mask mode vg' :
  P vgmstream ->
  mixing_macro_layer vgmstream max mask mode = Some vg' ->
  P vg'.
Proof.
  intros Hinv. unfold mixing_macro_layer.
  destruct (vgmstream_mixing vgmstream) as [data|]; [|congruence].
  destruct ((max <=? 0) || (output_channels data <=? max)); [congruence|].
  set (mask' := if mask =? 0 then UINT32_MAX else mask).
  set (sel := fold_left _ _ 0).
  set (vg0 := fold_left _ (seqZ 0 max) vgmstream).
  assert (P vg0) as H0.
  { apply fold_left_inv; [|done]. intros. by apply P_upmix. }
  assert (match fold_left (layer_step mode max mask' sel)
                          (seqZ 0 (output_channels data)) (Some (vg0, 0)) with
          | Some (vg, _) => P vg
          | None => True
          end) as H1.
  { apply (fold_left_inv
             (fun st : option (VGMSTREAM * Z) =>
                match st with Some (vg, _) => P vg | None => True end));
      [|done].
    intros [[vg cur]|] ch Hvg; simpl; [|done].
    destruct (negb (mask_bit mask' ch)); [done|].
    destruct (layer_volume mode max sel cur ch); [|done].
    by apply P_add. }
  destruct (fold_left (layer_step mode max mask' sel) _ _) as [[vg cur]|];
    [|congruence].
  intros [= <-]. by apply P_killmix.
Qed.

Lemma mix_into_first_keeps vgmstream max n :
  P vgmstream -> P (mix_into_first vgmstream max n).
Proof.
  intros Hinv. unfold mix_into_first.
  set (body := fun '(vg, current) ch => _).
  assert (P (fst (fold_left body (seqZ max (n - max)) (vgmstream, 0)))) as H.
  { apply (fold_left_inv (fun st : VGMSTREAM * Z => P (fst st))); [|done].
    intros [vg cur] ch Hvg. simpl in *. by apply P_add. }
  destruct (fold_left body _ _) as [vg cur]. by apply P_killmix.
Qed.

Lemma pad_and_loop_keeps vgmstream data max :
  P vgmstream -> P (fst (fst (pad_and_loop vgmstream data max))).
Proof.
  intros Hinv. unfold pad_and_loop.
  destruct (Z.rem (output_channels data) 2 =? 0); simpl.
  - destruct (config_loop_count vgmstream <? _); [by apply P_loop_count|done].
  - pose proof (P_upmix vgmstream (output_channels data) Hinv).
    destruct (config_loop_count _ <? _); [by apply P_loop_count|done].
Qed.

Lemma mixing_macro_crosstrack_keeps vgmstream max :
  P vgmstream -> P (mixing_macro_crosstrack vgmstream max).
Proof.
  intros Hinv. unfold mixing_macro_crosstrack.
  destruct (vgmstream_mixing vgmstream) as [data|]; [|done].
  destruct ((max <=? 0) || (output_channels data <=? max)); [done|].
  destruct (negb (loop_flag vgmstream)); [done|].
  pose proof (pad_and_loop_keeps vgmstream data max Hinv) as Hp.
  destruct (pad_and_loop vgmstream data max) as [[vg oc] num]. simpl in Hp.
  apply mix_into_first_keeps.
  apply fold_left_inv; [|done].
  intros vg1 track H1.
  apply fold_left_inv; [|done].
  intros vg2 tch H2.
  destruct (track >? 0), (track + 1 <? num);
    repeat apply P_fade; done.
Qed.

Lemma mixing_macro_crosslayer_keeps vgmstream max mode :
  P vgmstream -> P (mixing_macro_crosslayer vgmstream max mode).
Proof.
  intros Hinv. unfold mixing_macro_crosslayer.
  destruct (vgmstream_mixing vgmstream) as [data|]; [|done].
  destruct ((max <=? 0) || (output_channels data <=? max)); [done|].
  destruct (negb (loop_flag vgmstream)); [done|].
  pose proof (pad_and_loop_keeps vgmstream data max Hinv) as Hp.
  destruct (pad_and_loop vgmstream data max) as [[vg oc] num]. simpl in Hp.
  apply mix_into_first_keeps.
  apply fold_left_inv; [|done].
  intros vg1 loop H1.
  destruct (if Ascii.eqb mode "e" then _ else _) as [v1 v2].
  apply (fold_left_inv
           (fun st : VGMSTREAM * Z * spec_float * spec_float =>
              P (fst (fst (fst st))))); [|done].
  intros [[[vg2 ch] w1] w2] layer H2. simpl in H2.
  destruct (crosslayer_volumes mode loop layer w1 w2) as [u1 u2].
  destruct (layer >? loop); [done|].
  destruct (if layer =? loop then _ else _) as [u1' ty]. simpl.
  apply fold_left_inv; [|done].
  intros vg3 lch H3. by apply P_fade.
Qed.

Lemma run_call_keeps vgmstream c vg' :
  P vgmstream -> run_call vgmstream c = Some vg' -> P vg'.
Proof.
  intros Hinv. destruct c; simpl; try (intros [= <-]).
  - by apply P_swap.
  - by apply P_add.
  - by apply P_volume.
  - by apply P_limit.
  - by apply P_upmix.
  - by apply P_downmix.
  - by apply P_killmix.
  - by apply P_fade.
  - by apply mixing_macro_volume_keeps.
  - by apply mixing_macro_track_keeps.
  - by apply mixing_macro_layer_keeps.
  - by apply mixing_macro_crosstrack_keeps.
  - by apply mixing_macro_crosslayer_keeps.
Qed.

Lemma run_calls_keeps cs : forall vgmstream vg',
  P vgmstream -> run_calls vgmstream cs = Some vg' -> P vg'.
Proof.
  induction cs as [|c cs IH]; simpl; intros vg vg' Hinv.
  - by intros [= <-].
  - destruct (run_call vg c) as [vg1|] eqn:E; [|done].
    apply IH. by eapply run_call_keeps.
Qed.

End CallInvariant.

Lemma run_calls_inv cs vgmstream vg' :
  stream_inv vgmstream -> run_calls vgmstream cs = Some vg' -> stream_inv vg'.
Proof.
  apply run_calls_keeps.
  - apply mixing_push_swap_inv.
  - apply mixing_push_add_inv.
  - apply mixing_push_volume_inv.
  - apply mixing_push_limit_inv.
  - apply mixing_push_upmix_inv.
  - apply mixing_push_downmix_inv.
  - apply mixing_push_killmix_inv.
  - apply mixing_push_fade_inv.
  - done.
Qed.

(** C9: after [mixing_init] on a stream with at least one channel both
    counters are the stream's channel count, and after that call and any
    sequence of constructor and macro calls, accepted or not,
    [1 <= output_channels <= mixing_channels] holds. *)
Theorem channel_counters_invariant vgmstream cs vg' :
  1 <= channels vgmstream ->
  run_calls (mixing_init vgmstream) cs = Some vg' ->
  vgmstream_mixing (mixing_init vgmstream)
  = Some (MixingData (channels vgmstream) (channels vgmstream) false
                     VGMSTREAM_MAX_MIXING [] [])
  /\ stream_inv (mixing_init vgmstream)
  /\ exists data, vgmstream_mixing vg' = Some data
                  /\ 1 <= output_channels data <= mixing_channels data.
Proof.
  intros Hch Hrun.
  pose proof (mixing_init_inv vgmstream Hch) as H0.
  pose proof (run_calls_inv cs _ _ H0 Hrun) as H1.
  split; [done|]. split; [done|].
  unfold stream_inv in H1.
  destruct (vgmstream_mixing vg') as [data|]; [|done].
  by exists data.
Qed.

(** The layering macro traps only in mode 'b'. *)
Lemma layer_volume_defined mode max sel cur ch :
  0 < max -> Ascii.eqb mode "b" = false ->
  is_Some (layer_volume mode max sel cur ch).
Proof.
  intros Hmax Hb. unfold layer_volume. rewrite Hb. simpl.
  destruct (Ascii.eqb mode "e"); [|done].
  unfold c_rem.
  destruct ((if sel ÷ max <=? 0 then 1 else sel ÷ max) * max =? 0) eqn:C; [|done].
  destruct (sel ÷ max <=? 0) eqn:D; lia.
Qed.

Lemma mixing_macro_layer_defined vgmstream max mask mode :
  Ascii.eqb mode "b" = false ->
  is_Some (mixing_macro_layer vgmstream max mask mode).
Proof.
  intros Hb. unfold mixing_macro_layer.
  destruct (vgmstream_mixing vgmstream) as [data|]; [|done].
  destruct ((max <=? 0) || (output_channels data <=? max)) eqn:G; [done|].
  apply orb_false_iff in G as [G _].
  set (mask' := if mask =? 0 then UINT32_MAX else mask).
  set (sel := fold_left _ _ 0).
  set (vg0 := fold_left _ (seqZ 0 max) vgmstream).
  assert (is_Some (fold_left (layer_step mode max mask' sel)
                             (seqZ 0 (output_channels data)) (Some (vg0, 0)))) as H.
  { apply (fold_left_inv is_Some); [|done].
    intros st ch [[vg cur] ->]. simpl.
    destruct (negb (mask_bit mask' ch)); [done|].
    destruct (layer_volume_defined mode max sel cur ch) as [v ->]; [lia|done|done]. }
  destruct H as [[vg cur] ->]. done.
Qed.

(** In mode 'b' a mask that selects fewer channels than [max] makes the
    remainder's divisor zero. *)
Example mixing_macro_layer_trap :
  mixing_macro_layer (mixing_init (plain_stream 4)) 2 1 "b" = None.
Proof. reflexivity. Qed.

(** ** Rejected calls *)

Lemma set_chain_app_neq vgmstream data mix :
  vgmstream_mixing vgmstream = Some data ->
  chain_of (set_vgmstream_mixing
              (Some (set_mixing_chain (mixing_chain data ++ [mix]) data)) vgmstream)
  <> chain_of vgmstream.
Proof.
  intros E. unfold chain_of. rewrite E. simpl. intros H.
  apply (f_equal length) in H. rewrite length_app in H. simpl in H. lia.
Qed.

Lemma add_mixing_same_chain vgmstream mix :
  chain_of (snd (add_mixing vgmstream mix)) = chain_of vgmstream ->
  add_mixing vgmstream mix = (false, vgmstream).
Proof.
  destruct (add_mixing_cases vgmstream mix) as [R|(d & E & _ & _ & R)]; [done|].
  rewrite R. simpl. intros H. by apply set_chain_app_neq in H.
Qed.

(** X19: a call of a primitive constructor other than Fade that leaves
    the chain as it was has left the whole stream as it was: these
    constructors either append a command or change nothing. *)
Lemma rejected_call_leaves_stream c vgmstream vg' :
  match c with
  | CallSwap _ _ | CallAdd _ _ _ | CallVolume _ _ | CallLimit _ _
  | CallUpmix _ | CallDownmix _ | CallKillmix _ => True
  | _ => False
  end ->
  run_call vgmstream c = Some vg' ->
  chain_of vg' = chain_of vgmstream ->
  vg' = vgmstream.
Proof.
  intros Hc. destruct c as [d s|d s v|d v|d v|d|d|d| | | | | |]; try done;
    simpl; intros [= <-].
  - unfold mixing_push_swap. repeat case_match; try done.
    intros Hsame. apply add_mixing_same_chain in Hsame. by rewrite Hsame.
  - unfold mixing_push_add. repeat case_match; try done.
    intros Hsame. apply add_mixing_same_chain in Hsame. by rewrite Hsame.
  - unfold mixing_push_volume. repeat case_match; try done.
    intros Hsame. apply add_mixing_same_chain in Hsame. by rewrite Hsame.
  - unfold mixing_push_limit. repeat case_match; try done.
    intros Hsame. apply add_mixing_same_chain in Hsame. by rewrite Hsame.
  - unfold mixing_push_upmix.
    destruct (d <? 0); [done|].
    destruct (vgmstream_mixing vgmstream) as [data|] eqn:E; [|done].
    destruct (_ || _); [done|].
    destruct (add_mixing_cases vgmstream
                (new_mix MIX_UPMIX d (ch_src mix_zero) (vol mix_zero)))
      as [R|(d' & E' & _ & _ & R)]; rewrite R; [done|].
    assert (d' = data) as -> by congruence.
    unfold with_mixing, chain_of. rewrite E. simpl.
    destruct (_ <? _); simpl; intros H; apply (f_equal length) in H;
      rewrite length_app in H; simpl in H; lia.
  - unfold mixing_push_downmix.
    destruct (d <? 0); [done|].
    destruct (vgmstream_mixing vgmstream) as [data|] eqn:E; [|done].
    destruct (_ || _); [done|].
    destruct (add_mixing_cases vgmstream
                (new_mix MIX_DOWNMIX d (ch_src mix_zero) (vol mix_zero)))
      as [R|(d' & E' & _ & _ & R)]; rewrite R; [done|].
    assert (d' = data) as -> by congruence.
    unfold with_mixing, chain_of. rewrite E. simpl.
    intros H; apply (f_equal length) in H;
      rewrite length_app in H; simpl in H; lia.
  - unfold mixing_push_killmix.
    destruct (d <=? 0); [done|].
    destruct (vgmstream_mixing vgmstream) as [data|] eqn:E; [|done].
    destruct (_ >=? _); [done|].
    destruct (add_mixing_cases vgmstream
                (new_mix MIX_KILLMIX d (ch_src mix_zero) (vol mix_zero)))
      as [R|(d' & E' & _ & _ & R)]; rewrite R; [done|].
    assert (d' = data) as -> by congruence.
    unfold with_mixing, chain_of. rewrite E. simpl.
    intros H; apply (f_equal length) in H;
      rewrite length_app in H; simpl in H; lia.
Qed.

(** ** The Fade constructor and open boundaries *)

(** With no earlier fade on the selector, an accepted Fade is stored with
    the [time_pre] and [time_post] it was called with: the defaulting
    assignments of the [mix_prev == NULL] branch reach the parameters only. *)
Lemma mixing_push_fade_first vgmstream data d vs ve sh t0 t1 t2 t3 :
  vgmstream_mixing vgmstream = Some data ->
  get_last_fade data d = None ->
  let vg' := mixing_push_fade vgmstream d vs ve sh t0 t1 t2 t3 in
  vg' = vgmstream
  \/ exists mix, chain_of vg' = mixing_chain data ++ [mix]
                 /\ time_pre mix = t0 /\ time_start mix = t1
                 /\ time_end mix = t2 /\ time_post mix = t3.
Proof.
  intros E Hlast. simpl. unfold mixing_push_fade. rewrite E, Hlast.
  destruct (d >=? output_channels data); [by left|].
  destruct (_ || _ || _); [by left|].
  destruct (_ || _); [by left|].
  match goal with |- context [add_mixing vgmstream ?m] =>
    destruct (add_mixing_cases vgmstream m) as [R|(d' & E' & _ & _ & R)];
      rewrite R; [by left|right; exists m] end.
  assert (d' = data) as -> by congruence.
  unfold chain_of. simpl. done.
Qed.

(** C2: on a fresh two-channel stream the call
    [Fade(all, 1.0, 0.0, 'T', pre=-1, start=0, end=100, post=-1)] is
    accepted, and the stored command keeps [time_pre = -1] although
    [vol_start == 1.0] and [time_start = 0]; likewise the call
    [Fade(all, 0.0, 1.0, 'T', -1, 0, 100, -1)] keeps [time_post = -1]
    although [vol_end == 1.0] and [time_end = 100]. *)
Theorem mixing_push_fade_open_bounds_kept :
  map (fun mix => (time_pre mix, time_start mix))
      (chain_of (mixing_push_fade (mixing_init (plain_stream 2)) (-1)
                                  F64.one F64.zero "T" (-1) 0 100 (-1)))
  = [(-1, 0)]
  /\ map (fun mix => (time_end mix, time_post mix))
         (chain_of (mixing_push_fade (mixing_init (plain_stream 2)) (-1)
                                     F64.zero F64.one "T" (-1) 0 100 (-1)))
     = [(100, -1)].
Proof. split; reflexivity. Qed.

(** C3: after activation a further Fade on the same selector is rejected
    (the chain keeps its single command), yet the stored fade's open
    [time_post] has been overwritten with its [time_end]. *)
Theorem mixing_push_fade_rejected_mutates :
  let vg' := mixing_push_fade locked_fade_stream (-1)
                              F64.zero F64.one "T" (-1) 200 300 (-1) in
  option_map mixing_on (vgmstream_mixing locked_fade_stream) = Some true
  /\ map time_post (chain_of locked_fade_stream) = [-1]
  /\ length (chain_of vg') = length (chain_of locked_fade_stream)
  /\ map time_post (chain_of vg') = [100]
  /\ vg' <> locked_fade_stream.
Proof.
  simpl. repeat split; try reflexivity.
  intros H. apply (f_equal (fun vg => map time_post (chain_of vg))) in H.
  vm_compute in H. discriminate H.
Qed.

(** ** Early returns of [mix_vgmstream] *)

(** C4: with an empty chain, or before activation, [mix_vgmstream] returns
    the output buffer (and the stream) exactly as it received them, for any
    buffer and sample count. *)
Theorem mix_vgmstream_inactive outbuf sample_count vgmstream data :
  vgmstream_mixing vgmstream = Some data ->
  mixing_count data = 0 \/ mixing_on data = false ->
  mix_vgmstream outbuf sample_count vgmstream = (outbuf, vgmstream)
  /\ take (Z.to_nat (channels vgmstream * sample_count))
          (fst (mix_vgmstream outbuf sample_count vgmstream))
     = take (Z.to_nat (channels vgmstream * sample_count)) outbuf.
Proof.
  intros E H.
  assert (mix_vgmstream outbuf sample_count vgmstream = (outbuf, vgmstream)) as R.
  { unfold mix_vgmstream. rewrite E.
    destruct H as [H|H]; rewrite H; [|done].
    by rewrite orb_true_r. }
  by rewrite R.
Qed.

Lemma mix_vgmstream_no_data outbuf sample_count vgmstream :
  vgmstream_mixing vgmstream = None ->
  mix_vgmstream outbuf sample_count vgmstream = (outbuf, vgmstream).
Proof. intros E. unfold mix_vgmstream. by rewrite E. Qed.

(** ** Fade curve evaluator *)

Lemma shape_gain_linear sh index :
  sh = "T"%char -> shape_gain sh index = index.
Proof. by intros ->. Qed.

(** C1: for a fade that meets the timing invariant, [get_fade_gain]
    - inside [start <= pos < end] returns the volume built from the
      normalized index, which is [(pos-start)/(end-start)] for a fade-in
      ([vol_start < vol_end]) and [(end-pos)/(end-start)] otherwise, the
      shape 'T' using the index itself as gain;
    - before the window ([pos < start] with [pos >= pre] or [pre] open)
      returns [vol_start];
    - from [end] up to [post] (or with [post] open) returns [vol_end];
    - outside [[pre, post)] returns nothing;
    and the fade [Fade(all, 1.0, 0.0, 'T', -1, 0, 100, -1)] at position 50
    gives 0.5. *)
Theorem get_fade_gain_regions mix pos :
  fade_wf mix ->
  (time_start mix <= pos < time_end mix ->
   get_fade_gain mix pos = Some (fade_between mix pos)
   /\ fade_index mix pos
      = (if SFltb (vol_start mix) (vol_end mix)
         then F32.div (F32.of_Z (pos - time_start mix))
                      (F32.of_Z (time_end mix - time_start mix))
         else F32.div (F32.of_Z (time_end mix - pos))
                      (F32.of_Z (time_end mix - time_start mix)))
   /\ (shape mix = "T"%char ->
       shape_gain (shape mix) (fade_index mix pos) = fade_index mix pos
       /\ fade_between mix pos
          = (if SFltb (vol_start mix) (vol_end mix)
             then F32.add (vol_start mix)
                          (F32.mul (F32.sub (vol_end mix) (vol_start mix))
                                   (fade_index mix pos))
             else F32.sub (vol_end mix)
                          (F32.mul (F32.sub (vol_end mix) (vol_start mix))
                                   (fade_index mix pos)))))
  /\ (pos < time_start mix -> time_pre mix <= pos \/ time_pre mix < 0 ->
      get_fade_gain mix pos = Some (vol_start mix))
  /\ (time_end mix <= pos -> pos < time_post mix \/ time_post mix < 0 ->
      get_fade_gain mix pos = Some (vol_end mix))
  /\ ((0 <= time_pre mix /\ pos < time_pre mix)
      \/ (0 <= time_post mix /\ time_post mix <= pos) ->
      get_fade_gain mix pos = None)
  /\ get_fade_gain example_fade 50 = Some f32_half.
Proof.
  intros [[Hps Hse] Hpost]. unfold get_fade_gain.
  split; [|split; [|split; [|split]]].
  - intros [Hlo Hhi].
    destruct (pos <? time_start mix) eqn:C1; [lia|]. rewrite andb_false_r.
    destruct (pos >=? time_end mix) eqn:C2; [lia|]. simpl.
    destruct (pos >=? time_start mix) eqn:C3; [|lia].
    destruct (pos <? time_end mix) eqn:C4; [|lia]. simpl.
    split; [done|]. split.
    + unfold fade_index. by destruct (SFltb _ _).
    + intros Hsh. unfold fade_between. rewrite (shape_gain_linear _ _ Hsh).
      split; [done|]. by destruct (SFltb _ _).
  - intros Hlt Hpre.
    destruct (pos <? time_start mix) eqn:C1; [|lia]. rewrite andb_true_r.
    destruct ((pos >=? time_pre mix) || (time_pre mix <? 0)) eqn:C2; [done|].
    apply orb_false_iff in C2 as [C2 C3]. lia.
  - intros Hge Hpo.
    destruct (pos <? time_start mix) eqn:C1; [lia|]. rewrite andb_false_r.
    destruct (pos >=? time_end mix) eqn:C2; [|lia]. simpl.
    destruct ((pos <? time_post mix) || (time_post mix <? 0)) eqn:C3; [done|].
    apply orb_false_iff in C3 as [C3 C4]. lia.
  - intros [[Hp0 Hp1]|[Hp0 Hp1]].
    + destruct (pos >=? time_pre mix) eqn:C1; [lia|].
      destruct (time_pre mix <? 0) eqn:C2; [lia|]. simpl.
      destruct (pos >=? time_end mix) eqn:C3; [lia|]. simpl.
      destruct (pos >=? time_start mix) eqn:C4; [lia|]. done.
    + specialize (Hpost Hp0).
      destruct (pos <? time_start mix) eqn:C1; [lia|]. rewrite andb_false_r.
      destruct (pos <? time_post mix) eqn:C2; [lia|].
      destruct (time_post mix <? 0) eqn:C3; [lia|]. rewrite andb_false_r.
      destruct (pos <? time_end mix) eqn:C4; [lia|]. by rewrite andb_false_r.
  - reflexivity.
Qed.

(** ** Lanes of a working row *)

Lemma set_lane_length ch v stpbuf : length (set_lane ch v stpbuf) = length stpbuf.
Proof. unfold set_lane. destruct (ch <? 0); [done|]. apply length_insert. Qed.

Lemma lane_set_lane_eq ch v stpbuf :
  0 <= ch < Z.of_nat (length stpbuf) -> lane (set_lane ch v stpbuf) ch = v.
Proof.
  intros H. unfold lane, set_lane.
  destruct (ch <? 0) eqn:C; [lia|].
  rewrite list_lookup_insert_eq; [done|lia].
Qed.

Lemma lane_set_lane_ne ch ch' v stpbuf :
  ch <> ch' -> lane (set_lane ch v stpbuf) ch' = lane stpbuf ch'.
Proof.
  intros H. unfold lane, set_lane.
  destruct (ch' <? 0) eqn:C'; [done|].
  destruct (ch <? 0) eqn:C; [done|].
  rewrite list_lookup_insert_ne; [done|lia].
Qed.

Lemma set_lane_same ch stpbuf :
  0 <= ch < Z.of_nat (length stpbuf) -> set_lane ch (lane stpbuf ch) stpbuf = stpbuf.
Proof.
  intros H. unfold lane, set_lane.
  destruct (ch <? 0) eqn:C; [lia|].
  destruct (lookup_lt_is_Some_2 stpbuf (Z.to_nat ch)) as [x Hx]; [lia|].
  rewrite Hx. simpl. by apply list_insert_id.
Qed.

Lemma lanes_eq (r1 r2 : list spec_float) :
  length r1 = length r2 ->
  (forall ch, 0 <= ch < Z.of_nat (length r1) -> lane r1 ch = lane r2 ch) ->
  r1 = r2.
Proof.
  intros Hlen Hl. apply list_eq_same_length with (length r1); try done.
  intros i x y Hi Hx Hy.
  specialize (Hl (Z.of_nat i) ltac:(lia)). unfold lane in Hl.
  destruct (Z.of_nat i <? 0) eqn:C; [lia|].
  rewrite Nat2Z.id, Hx, Hy in Hl. done.
Qed.

(** C7: on a row that holds the active lanes, the Swap step applied twice
    in a row gives back the row, lane for lane, and the channel count. *)
Theorem swap_step_involutive current_subpos stpbuf step_channels mix :
  command mix = MIX_SWAP ->
  0 <= ch_dst mix < step_channels ->
  0 <= ch_src mix < step_channels ->
  step_channels <= Z.of_nat (length stpbuf) ->
  mix_step current_subpos (mix_step current_subpos (stpbuf, step_channels) mix) mix
  = (stpbuf, step_channels).
Proof.
  intros Hc Hd Hs Hlen. unfold mix_step. rewrite Hc. f_equal.
  set (a := ch_dst mix) in *. set (b := ch_src mix) in *.
  set (r1 := set_lane b (lane stpbuf a) (set_lane a (lane stpbuf b) stpbuf)).
  assert (length r1 = length stpbuf) as L1
      by (unfold r1; by rewrite !set_lane_length).
  assert (lane r1 a = lane stpbuf b) as Ha.
  { unfold r1. destruct (decide (a = b)) as [->|Hne].
    - rewrite lane_set_lane_eq; [done|]. rewrite set_lane_length. lia.
    - rewrite lane_set_lane_ne by done.
      rewrite lane_set_lane_eq; [done|lia]. }
  assert (lane r1 b = lane stpbuf a) as Hb.
  { unfold r1. rewrite lane_set_lane_eq; [done|]. rewrite set_lane_length. lia. }
  rewrite Ha, Hb.
  apply lanes_eq; [by rewrite !set_lane_length|].
  intros ch Hch. rewrite !set_lane_length in Hch.
  destruct (decide (ch = b)) as [->|Hnb].
  - rewrite lane_set_lane_eq; [done|]. rewrite set_lane_length. lia.
  - rewrite lane_set_lane_ne by done.
    destruct (decide (ch = a)) as [->|Hna].
    + rewrite lane_set_lane_eq; [done|]. lia.
    + rewrite lane_set_lane_ne by done.
      unfold r1. by rewrite !lane_set_lane_ne.
Qed.

(** ** Exactness of float arithmetic on small integers

    Samples are 16-bit integers; their conversions to [float], products
    with [1.0f] and pairwise sums are all exact.  The facts below are about
    the rounding functions of [SpecFloat] for any format. *)

Section Rounding.
Variables prec emax : Z.

Lemma iter_pos_comm {A} (f : A -> A) p x :
  SpecFloat.iter_pos f p (f x) = f (SpecFloat.iter_pos f p x).
Proof.
  revert x. induction p as [p IH|p IH|]; intros x; simpl; [| |done].
  - by rewrite !IH.
  - by rewrite !IH.
Qed.

Lemma iter_pos_succ_r {A} (f : A -> A) p x :
  SpecFloat.iter_pos f (Pos.succ p) x = SpecFloat.iter_pos f p (f x).
Proof.
  revert x. induction p as [p IH|p IH|]; intros x; simpl; [|done|done].
  rewrite !IH. f_equal. symmetry. apply iter_pos_comm.
Qed.

(** Doubling the mantissa and lowering the exponent by one does not change
    what [shr_fexp] produces, when no left shift was due. *)
Lemma shr_fexp_double m e :
  e <= fexp prec emax (Z.pos (digits2_pos m) + e) ->
  shr_fexp prec emax (Z.pos m~0) (e - 1) loc_Exact
  = shr_fexp prec emax (Z.pos m) e loc_Exact.
Proof.
  intros Ht. unfold shr_fexp. simpl Zdigits2.
  replace (Z.pos (Pos.succ (digits2_pos m)) + (e - 1))
    with (Z.pos (digits2_pos m) + e) by lia.
  set (t := fexp prec emax (Z.pos (digits2_pos m) + e)) in *.
  unfold shr. simpl shr_record_of_loc.
  destruct (t - e) as [|p|p] eqn:D; [| |lia].
  - replace (t - (e - 1)) with 1 by lia. simpl. f_equal. lia.
  - replace (t - (e - 1)) with (Z.pos (Pos.succ p)) by lia.
    rewrite iter_pos_succ_r. simpl. f_equal. lia.
Qed.

Lemma digits2_pos_shift (k : nat) m :
  Z.pos (digits2_pos (Nat.iter k xO m)) = Z.pos (digits2_pos m) + Z.of_nat k.
Proof.
  induction k as [|k IH]; [simpl; lia|].
  rewrite Nat2Z.inj_succ. simpl. lia.
Qed.

Lemma Zpos_shift (k : nat) m :
  Z.pos (Nat.iter k xO m) = Z.pos m * 2 ^ Z.of_nat k.
Proof.
  induction k as [|k IH]; [simpl; lia|].
  rewrite Nat2Z.inj_succ, Z.pow_succ_r by lia.
  simpl Nat.iter. rewrite Pos2Z.inj_xO, IH. lia.
Qed.

Lemma shr_fexp_shift (k : nat) m e :
  e <= fexp prec emax (Z.pos (digits2_pos m) + e) ->
  shr_fexp prec emax (Z.pos (Nat.iter k xO m)) (e - Z.of_nat k) loc_Exact
  = shr_fexp prec emax (Z.pos m) e loc_Exact.
Proof.
  intros Ht. induction k as [|k IH]; [simpl; f_equal; lia|].
  rewrite <- IH. rewrite Nat2Z.inj_succ. simpl Nat.iter.
  replace (e - Z.succ (Z.of_nat k)) with (e - Z.of_nat k - 1) by lia.
  apply shr_fexp_double.
  rewrite digits2_pos_shift.
  replace (Z.pos (digits2_pos m) + Z.of_nat k + (e - Z.of_nat k))
    with (Z.pos (digits2_pos m) + e) by lia.
  lia.
Qed.

Lemma binary_round_aux_shift s (k : nat) m e :
  e <= fexp prec emax (Z.pos (digits2_pos m) + e) ->
  binary_round_aux prec emax s (Z.pos (Nat.iter k xO m)) (e - Z.of_nat k) loc_Exact
  = binary_round_aux prec emax s (Z.pos m) e loc_Exact.
Proof. intros Ht. unfold binary_round_aux. by rewrite shr_fexp_shift. Qed.

Lemma Pos_iter_xO_nat p m : Pos.iter xO m p = Nat.iter (Pos.to_nat p) xO m.
Proof.
  induction p as [|p IH] using Pos.peano_ind; [done|].
  rewrite Pos.iter_succ, Pos2Nat.inj_succ, IH. done.
Qed.

Lemma shl_align_spec m e t :
  shl_align m e t
  = if t <? e then (Nat.iter (Z.to_nat (e - t)) xO m, t) else (m, e).
Proof.
  unfold shl_align.
  destruct (t - e) as [|p|p] eqn:D; destruct (t <? e) eqn:C; try lia; try done.
  rewrite Pos_iter_xO_nat. do 2 f_equal. lia.
Qed.

(** Rounding is invariant under trading a factor two of the mantissa for
    the exponent. *)
Lemma binary_round_double s m e :
  binary_round prec emax s m~0 (e - 1) = binary_round prec emax s m e.
Proof.
  unfold binary_round. simpl digits2_pos.
  replace (Z.pos (Pos.succ (digits2_pos m)) + (e - 1))
    with (Z.pos (digits2_pos m) + e) by lia.
  set (t := fexp prec emax (Z.pos (digits2_pos m) + e)).
  rewrite !shl_align_spec.
  destruct (t <? e) eqn:C.
  - destruct (t <? e - 1) eqn:C'.
    + replace (Z.to_nat (e - t)) with (S (Z.to_nat (e - 1 - t))) by lia.
      rewrite Nat.iter_succ_r. done.
    + assert (t = e - 1) as Ht by lia. rewrite Ht.
      replace (Z.to_nat (e - (e - 1))) with 1%nat by lia. done.
  - destruct (t <? e - 1) eqn:C'; [lia|].
    unfold binary_round_aux. rewrite shr_fexp_double; [done|].
    fold t. lia.
Qed.

Lemma binary_normalize_double z e sz :
  binary_normalize prec emax (2 * z) (e - 1) sz = binary_normalize prec emax z e sz.
Proof. destruct z; simpl; [done| |]; apply binary_round_double. Qed.

Lemma binary_normalize_scale (k : nat) z e sz :
  binary_normalize prec emax (z * 2 ^ Z.of_nat k) (e - Z.of_nat k) sz
  = binary_normalize prec emax z e sz.
Proof.
  induction k as [|k IH]; [simpl; f_equal; lia|].
  rewrite <- IH, Nat2Z.inj_succ, Z.pow_succ_r by lia.
  replace (z * (2 * 2 ^ Z.of_nat k)) with (2 * (z * 2 ^ Z.of_nat k)) by lia.
  replace (e - Z.succ (Z.of_nat k)) with (e - Z.of_nat k - 1) by lia.
  apply binary_normalize_double.
Qed.

(** A canonical mantissa within the exponent bound is a fixed point of
    rounding. *)
Lemma binary_round_aux_canonical s m e :
  bounded prec emax m e = true ->
  binary_round_aux prec emax s (Z.pos m) e loc_Exact = S754_finite s m e.
Proof.
  unfold bounded, canonical_mantissa. intros H.
  apply andb_true_iff in H as [Hc Hb]. apply Z.eqb_eq in Hc.
  unfold binary_round_aux, shr_fexp. simpl Zdigits2. rewrite Hc, Z.sub_diag.
  simpl. rewrite Hc, Z.sub_diag. simpl. by rewrite Hb.
Qed.

End Rounding.

Lemma digits2_pos_bounds p :
  2 ^ (Z.pos (digits2_pos p) - 1) <= Z.pos p < 2 ^ Z.pos (digits2_pos p).
Proof.
  induction p as [p IH|p IH|]; simpl digits2_pos; [| |simpl; lia].
  - rewrite Pos2Z.inj_succ, Z.pow_succ_r by lia.
    replace (Z.succ (Z.pos (digits2_pos p)) - 1)
      with (Z.succ (Z.pos (digits2_pos p) - 1)) by lia.
    rewrite Z.pow_succ_r by lia. lia.
  - rewrite Pos2Z.inj_succ, Z.pow_succ_r by lia.
    replace (Z.succ (Z.pos (digits2_pos p)) - 1)
      with (Z.succ (Z.pos (digits2_pos p) - 1)) by lia.
    rewrite Z.pow_succ_r by lia. lia.
Qed.

Lemma digits2_pos_le p n :
  0 <= n -> Z.pos p < 2 ^ n -> Z.pos (digits2_pos p) <= n.
Proof.
  intros Hn Hp. destruct (digits2_pos_bounds p) as [Hlo _].
  destruct (Z_le_gt_dec (Z.pos (digits2_pos p)) n) as [|Hgt]; [done|].
  assert (2 ^ n <= 2 ^ (Z.pos (digits2_pos p) - 1))
    by (apply Z.pow_le_mono_r; lia).
  lia.
Qed.

(** Integers below [2^24] in magnitude convert to [float] exactly: the
    result has the sign of the integer, a mantissa with the integer's bits
    shifted left by [k] places, and exponent [-k]. *)
Lemma F32_of_Z_pos s p :
  Z.pos p < 2 ^ 24 ->
  exists (k : nat),
    binary_round F32.prec F32.emax s p 0
    = S754_finite s (Nat.iter k xO p) (- Z.of_nat k)
    /\ bounded F32.prec F32.emax (Nat.iter k xO p) (- Z.of_nat k) = true.
Proof.
  intros Hp.
  pose proof (digits2_pos_le p 24 ltac:(lia) Hp) as Hd.
  set (k := Z.to_nat (24 - Z.pos (digits2_pos p))).
  assert (bounded F32.prec F32.emax (Nat.iter k xO p) (- Z.of_nat k) = true) as Hb.
  { unfold bounded, canonical_mantissa, fexp, emin, F32.prec, F32.emax.
    rewrite digits2_pos_shift. apply andb_true_iff. split; [|lia].
    apply Z.eqb_eq. lia. }
  exists k. split; [|done].
  unfold binary_round. rewrite shl_align_spec.
  unfold fexp at 1 2 3, emin, F32.prec, F32.emax.
  rewrite Z.add_0_r.
  destruct (Z.max (Z.pos (digits2_pos p) - 24) (3 - 128 - 24) <? 0) eqn:C.
  - replace (Z.to_nat (0 - Z.max (Z.pos (digits2_pos p) - 24) (3 - 128 - 24)))
      with k by lia.
    replace (Z.max (Z.pos (digits2_pos p) - 24) (3 - 128 - 24))
      with (- Z.of_nat k) by lia.
    by apply binary_round_aux_canonical.
  - assert (k = 0%nat) as Hk by lia. rewrite Hk in Hb |- *. simpl in *.
    by apply binary_round_aux_canonical.
Qed.

Lemma cond_Zopp_sign a :
  a <> 0 -> cond_Zopp (a <? 0) (Z.pos (Z.to_pos (Z.abs a))) = a.
Proof. destruct a; simpl; done. Qed.

Lemma F32_of_Z_small a :
  a <> 0 -> Z.abs a < 2 ^ 24 ->
  exists (k : nat) m,
    F32.of_Z a = S754_finite (a <? 0) m (- Z.of_nat k)
    /\ cond_Zopp (a <? 0) (Z.pos m) = a * 2 ^ Z.of_nat k
    /\ bounded F32.prec F32.emax m (- Z.of_nat k) = true.
Proof.
  intros Hne Hlt. unfold F32.of_Z.
  destruct a as [|p|p]; [done| |]; simpl binary_normalize.
  - destruct (F32_of_Z_pos false p Hlt) as (k & -> & Hb).
    exists k, (Nat.iter k xO p). split; [done|]. split; [|done].
    simpl. by rewrite Zpos_shift.
  - destruct (F32_of_Z_pos true p Hlt) as (k & -> & Hb).
    exists k, (Nat.iter k xO p). split; [done|]. split; [|done].
    simpl. rewrite Zpos_shift. lia.
Qed.

(** [x * 1.0f] is [x] for a float of the format. *)
Lemma F32_mul_one s m e :
  bounded F32.prec F32.emax m e = true ->
  F32.mul (S754_finite s m e) F32.one = S754_finite s m e.
Proof.
  intros Hb.
  change F32.one with (S754_finite false (Nat.iter 23 xO 1%positive) (-23)).
  unfold F32.mul, SFmul. rewrite xorb_false_r.
  replace (m * Nat.iter 23 xO 1)%positive with (Nat.iter 23 xO m)
    by (simpl; lia).
  change (e + -23) with (e - Z.of_nat 23).
  rewrite binary_round_aux_shift; [by apply binary_round_aux_canonical|].
  unfold bounded, canonical_mantissa in Hb.
  apply andb_true_iff in Hb as [Hc _]. apply Z.eqb_eq in Hc.
  fold F32.prec F32.emax. lia.
Qed.

Lemma F32_mul_one_of_Z a :
  Z.abs a < 2 ^ 24 -> F32.mul (F32.of_Z a) F32.one = F32.of_Z a.
Proof.
  intros Hlt. destruct (decide (a = 0)) as [->|Hne]; [done|].
  destruct (F32_of_Z_small a Hne Hlt) as (k & m & -> & _ & Hb).
  by apply F32_mul_one.
Qed.

Lemma shl_align_value m e t :
  t <= e -> Z.pos (fst (shl_align m e t)) = Z.pos m * 2 ^ (e - t).
Proof.
  intros Hle. rewrite shl_align_spec.
  destruct (t <? e) eqn:C; simpl.
  - rewrite Zpos_shift. f_equal. f_equal. lia.
  - replace (e - t) with 0 by lia. lia.
Qed.

Lemma cond_Zopp_mul s x y : cond_Zopp s (x * y) = cond_Zopp s x * y.
Proof. destruct s; simpl; lia. Qed.

(** The float sum of two converted integers is the converted integer sum. *)
Lemma F32_add_of_Z a c :
  Z.abs a < 2 ^ 24 -> Z.abs c < 2 ^ 24 ->
  F32.add (F32.of_Z a) (F32.of_Z c) = F32.of_Z (a + c).
Proof.
  intros Ha Hc.
  destruct (decide (a = 0)) as [->|Hna].
  { destruct (decide (c = 0)) as [->|Hnc]; [done|].
    destruct (F32_of_Z_small c Hnc Hc) as (k & m & E & _ & _).
    rewrite Z.add_0_l, E. done. }
  destruct (decide (c = 0)) as [->|Hnc].
  { destruct (F32_of_Z_small a Hna Ha) as (k & m & E & _ & _).
    rewrite Z.add_0_r, E. done. }
  destruct (F32_of_Z_small a Hna Ha) as (ka & ma & -> & Va & _).
  destruct (F32_of_Z_small c Hnc Hc) as (kc & mc & -> & Vc & _).
  unfold F32.add, SFadd.
  set (ez := Z.min (- Z.of_nat ka) (- Z.of_nat kc)).
  rewrite !shl_align_value by lia.
  rewrite !cond_Zopp_mul, Va, Vc.
  replace (a * 2 ^ Z.of_nat ka * 2 ^ (- Z.of_nat ka - ez)
           + c * 2 ^ Z.of_nat kc * 2 ^ (- Z.of_nat kc - ez))
    with ((a + c) * 2 ^ Z.of_nat (Z.to_nat (- ez))).
  - replace ez with (0 - Z.of_nat (Z.to_nat (- ez))) at 2 by lia.
    apply binary_normalize_scale.
  - rewrite Z.mul_add_distr_r, <- !Z.mul_assoc, <- !Z.pow_add_r by lia.
    do 2 f_equal; f_equal; f_equal; lia.
Qed.

(** Converting back truncates to the same integer. *)
Lemma trunc_of_Z a :
  Z.abs a < 2 ^ 24 -> trunc_to_int32 (F32.of_Z a) = a.
Proof.
  intros Hlt. destruct (decide (a = 0)) as [->|Hne]; [done|].
  destruct (F32_of_Z_small a Hne Hlt) as (k & m & -> & V & _).
  unfold trunc_to_int32.
  assert (Z.pos m = Z.abs a * 2 ^ Z.of_nat k) as Hm.
  { destruct (a <? 0) eqn:S; simpl in V; lia. }
  assert (0 < 2 ^ Z.of_nat k) by (apply Z.pow_pos_nonneg; lia).
  assert ((if 0 <=? - Z.of_nat k then Z.pos m * 2 ^ (- Z.of_nat k)
           else Z.pos m / 2 ^ (- - Z.of_nat k)) = Z.abs a) as ->.
  { destruct (0 <=? - Z.of_nat k) eqn:C.
    - assert (Z.of_nat k = 0) as K0 by lia. rewrite K0 in *. simpl in *. lia.
    - rewrite Z.opp_involutive, Hm. apply Z.div_mul. lia. }
  unfold INT_MIN, INT_MAX.
  destruct (a <? 0) eqn:S.
  - destruct ((-2147483648 <=? - Z.abs a) && (- Z.abs a <=? 2147483647)) eqn:R; lia.
  - destruct ((-2147483648 <=? Z.abs a) && (Z.abs a <=? 2147483647)) eqn:R; lia.
Qed.

Lemma mixing_push_upmix_accepted vgmstream data d :
  vgmstream_mixing vgmstream = Some data ->
  mixing_on data = false ->
  mixing_count data < mixing_size data ->
  0 <= d <= output_channels data ->
  output_channels data + 1 <= VGMSTREAM_MAX_CHANNELS ->
  mixing_push_upmix vgmstream d
  = set_vgmstream_mixing
      (Some (MixingData (Z.max (mixing_channels data) (output_channels data + 1))
                        (output_channels data + 1) false (mixing_size data)
                        (mixing_chain data
                         ++ [new_mix MIX_UPMIX d (ch_src mix_zero) (vol mix_zero)])
                        (mixbuf data)))
      vgmstream.
Proof.
  intros E On Room Hd Hmax. unfold mixing_push_upmix. rewrite E.
  destruct (d <? 0) eqn:C0; [lia|].
  destruct (d >? output_channels data) eqn:C1; [lia|].
  destruct (output_channels data + 1 >? VGMSTREAM_MAX_CHANNELS) eqn:C2; [lia|].
  simpl. rewrite (add_mixing_accepted _ data) by done.
  unfold with_mixing. simpl.
  destruct (mixing_channels data <? output_channels data + 1) eqn:C3;
    unfold set_vgmstream_mixing, set_mixing_channels, set_output_channels,
      set_mixing_chain; simpl; rewrite On; do 3 f_equal; lia.
Qed.

Lemma copy_lanes_frame4 a b c d r0 r1 r2 r3 rest :
  copy_lanes [a; b; c; d] 4 (r0 :: r1 :: r2 :: r3 :: rest)
  = F32.of_Z a :: F32.of_Z b :: F32.of_Z c :: F32.of_Z d :: rest.
Proof. reflexivity. Qed.

Lemma layer_v_chain_row pos A B C D r4 r5 rest :
  mix_row pos layer_v_chain (A :: B :: C :: D :: r4 :: r5 :: rest, 4)
  = (F32.add (F32.add F32.zero (F32.mul A F32.one)) (F32.mul C F32.one)
       :: F32.add (F32.add F32.zero (F32.mul B F32.one)) (F32.mul D F32.one)
       :: A :: B :: C :: D :: rest, 2).
Proof. reflexivity. Qed.

Lemma layer_upmixes vgmstream :
  channels vgmstream = 4 ->
  6 <= VGMSTREAM_MAX_CHANNELS ->
  fold_left (fun vg (_ : Z) => mixing_push_upmix vg 0) (seqZ 0 2) (mixing_init vgmstream)
  = set_vgmstream_mixing
      (Some (MixingData 6 6 false VGMSTREAM_MAX_MIXING
                        [new_mix MIX_UPMIX 0 0 F32.zero; new_mix MIX_UPMIX 0 0 F32.zero]
                        []))
      vgmstream.
Proof.
  intros Hch Hmax. change (seqZ 0 2) with [0; 1]. simpl fold_left.
  unfold mixing_init. rewrite Hch.
  set (d0 := MixingData 4 4 false VGMSTREAM_MAX_MIXING [] []).
  rewrite (mixing_push_upmix_accepted (set_vgmstream_mixing (Some d0) vgmstream) d0 0);
    [|reflexivity|reflexivity|reflexivity|simpl; lia|simpl; lia].
  set (d1 := MixingData _ _ _ _ _ _).
  rewrite (mixing_push_upmix_accepted _ d1 0);
    [|reflexivity|reflexivity|reflexivity|simpl; lia|simpl; lia].
  reflexivity.
Qed.

(** C8: on a four-channel stream the macro
    [Layer-downmix(max=2, mask=0b1111, mode='v')] builds the chain
    [Upmix 0; Upmix 0; Add 0 2; Add 1 3; Add 0 4; Add 1 5; Killmix 2] with
    all volumes [1.0] and leaves [output_channels = 2]; running that chain
    on the row of any frame [a b c d] of 16-bit samples leaves two lanes,
    lane 0 the float sum of source lanes 0 and 2 and lane 1 the float sum
    of source lanes 1 and 3, which are the integers [a + c] and [b + d]
    exactly: no volume is applied. *)
Theorem layer_downmix_4_to_2 vgmstream :
  channels vgmstream = 4 ->
  6 <= VGMSTREAM_MAX_CHANNELS ->
  exists vg',
    mixing_macro_layer (mixing_init vgmstream) 2 15 "v" = Some vg'
    /\ chain_of vg' = layer_v_chain
    /\ option_map output_channels (vgmstream_mixing vg') = Some 2
    /\ forall pos a b c d stpbuf,
        -32768 <= a <= 32767 -> -32768 <= b <= 32767 ->
        -32768 <= c <= 32767 -> -32768 <= d <= 32767 ->
        (6 <= length stpbuf)%nat ->
        exists row,
          mix_row pos (chain_of vg') (copy_lanes [a; b; c; d] 4 stpbuf, 4) = (row, 2)
          /\ lane row 0 = F32.add (F32.of_Z a) (F32.of_Z c)
          /\ lane row 0 = F32.of_Z (a + c)
          /\ lane row 1 = F32.add (F32.of_Z b) (F32.of_Z d)
          /\ lane row 1 = F32.of_Z (b + d).
Proof.
  intros Hch Hmax.
  pose proof (layer_upmixes vgmstream Hch Hmax) as Hup.
  unfold mixing_macro_layer.
  change (vgmstream_mixing (mixing_init vgmstream))
    with (Some (MixingData (channels vgmstream) (channels vgmstream) false
                           VGMSTREAM_MAX_MIXING [] [])).
  rewrite Hch. simpl output_channels.
  change ((2 <=? 0) || (4 <=? 2)) with false. cbv iota.
  change (15 =? 0) with false. cbv iota. cbv zeta.
  rewrite Hup. clear Hup.
  eexists. split; [reflexivity|].
  split; [reflexivity|]. split; [reflexivity|].
  intros pos a b c d stpbuf Ha Hb Hc Hd Hlen.
  destruct stpbuf as [|r0 [|r1 [|r2 [|r3 [|r4 [|r5 rest]]]]]];
    simpl in Hlen; try lia.
  rewrite copy_lanes_frame4.
  change (chain_of _) with layer_v_chain.
  rewrite layer_v_chain_row. eexists. split; [reflexivity|].
  assert (forall x, -32768 <= x <= 32767 -> Z.abs x < 2 ^ 24) as Hsmall
      by (intros; lia).
  change (lane (?x :: _) 0) with x.
  rewrite !F32_mul_one_of_Z by auto.
  change F32.zero with (F32.of_Z 0).
  rewrite !(F32_add_of_Z 0) by (auto; done).
  rewrite !Z.add_0_l.
  rewrite !F32_add_of_Z by auto.
  repeat split; reflexivity.
Qed.

(** The same chain through [mix_vgmstream], one frame: the two output
    samples are the integer sums, clamped to 16 bits. *)
Lemma layer_downmix_frame_output vgmstream a b c d :
  channels vgmstream = 4 ->
  is_int16 a -> is_int16 b -> is_int16 c -> is_int16 d ->
  fst (mix_vgmstream [a; b; c; d] 1
         (set_vgmstream_mixing
            (Some (MixingData 6 2 true VGMSTREAM_MAX_MIXING layer_v_chain
                              (replicate 6 F32.zero)))
            vgmstream))
  = [clamp16 (a + c); clamp16 (b + d); c; d].
Proof.
  intros Hch Ha Hb Hc Hd. unfold is_int16 in *.
  unfold mix_vgmstream. cbn [vgmstream_mixing set_vgmstream_mixing mixing_on negb orb].
  change (mixing_count _ =? 0) with false. cbv iota.
  change (is_active _ _ _) with true. cbv iota. cbn [negb].
  unfold mix_pass. cbn [mixing_chain mixbuf output_channels].
  change (seqZ 0 1) with [0]. change (seqZ 0 (1 * 2)) with [0; 1].
  cbn [fold_left]. unfold mix_sample.
  cbn [channels set_vgmstream_mixing]. rewrite Hch.
  change (drop (Z.to_nat 0) (replicate 6 F32.zero))
    with [F32.zero; F32.zero; F32.zero; F32.zero; F32.zero; F32.zero].
  change (drop (Z.to_nat 0) [a; b; c; d]) with [a; b; c; d].
  rewrite copy_lanes_frame4, layer_v_chain_row.
  change (take (Z.to_nat 0) (replicate 6 F32.zero)) with (@nil spec_float).
  cbn [fst app]. unfold copy_back.
  change (lane (?x :: _) 0) with x. change (lane (_ :: ?y :: _) 1) with y.
  rewrite !F32_mul_one_of_Z by lia.
  change F32.zero with (F32.of_Z 0).
  rewrite !(F32_add_of_Z 0) by lia. rewrite !Z.add_0_l.
  rewrite !F32_add_of_Z by lia.
  rewrite !trunc_of_Z by lia.
  reflexivity.
Qed.

(** ** Activity check *)

Lemma is_active_chain_non_fade chain cs ce mix :
  mix ∈ chain -> is_fade mix = false -> is_active_chain chain cs ce = true.
Proof.
  intros Hin Hnf. induction chain as [|m chain IH]; [by apply elem_of_nil in Hin|].
  simpl. apply elem_of_cons in Hin as [<-|Hin].
  - by rewrite Hnf.
  - destruct (negb (is_fade m)); [done|].
    destruct (_ && _); [done|]. by apply IH.
Qed.

(** A non-empty range that meets no position of a non-empty window fails
    the overlap test of [is_active]. *)
Lemma window_test_false cs n mix :
  0 < n -> window_nonempty mix -> range_misses_window cs n mix ->
  (cs <? (if time_post mix <? 0 then INT_MAX else time_post mix))
  && (cs + n >? (if time_pre mix <? 0 then 0 else time_pre mix)) = false.
Proof.
  intros Hn [w [Hw1 Hw2]] Hmiss.
  set (fs := if time_pre mix <? 0 then 0 else time_pre mix) in *.
  set (fe := if time_post mix <? 0 then INT_MAX else time_post mix).
  destruct ((cs <? fe) && (cs + n >? fs)) eqn:T; [|done].
  apply andb_true_iff in T as [T1 T2].
  exfalso. apply (Hmiss (Z.max cs fs)); [lia|].
  split; [fold fs; lia|].
  destruct (time_post mix <? 0) eqn:P; [left; lia|right].
  unfold fe in T1. lia.
Qed.

Lemma is_active_chain_idle chain cs n :
  0 < n ->
  Forall (fun mix => is_fade mix = true) chain ->
  Forall window_nonempty chain ->
  Forall (range_misses_window cs n) chain ->
  is_active_chain chain cs (cs + n) = false.
Proof.
  intros Hn Hf Hw Hm. induction chain as [|m chain IH]; [done|].
  inversion Hf; inversion Hw; inversion Hm; subst. simpl.
  replace (is_fade m) with true by done. simpl.
  rewrite window_test_false by done. by apply IH.
Qed.

(** Inside a range that misses the window of a well-formed fade, the fade
    is not applicable anywhere. *)
Lemma get_fade_gain_outside cs n mix q :
  fade_wf mix -> 0 <= cs -> range_misses_window cs n mix ->
  cs <= q < cs + n ->
  get_fade_gain mix q = None.
Proof.
  intros [[Hps Hse] Hpost] Hcs Hmiss Hq.
  destruct (get_fade_gain mix q) as [v|] eqn:G; [|done].
  exfalso. apply (Hmiss q Hq). unfold get_fade_gain in G. unfold in_active_window.
  destruct (((q >=? time_pre mix) || (time_pre mix <? 0)) && (q <? time_start mix))
    eqn:B1.
  { apply andb_true_iff in B1 as [B1 B2]. apply orb_true_iff in B1.
    destruct (time_pre mix <? 0) eqn:P; lia. }
  destruct ((q >=? time_end mix) && ((q <? time_post mix) || (time_post mix <? 0)))
    eqn:B2.
  { apply andb_true_iff in B2 as [B2 B3]. apply orb_true_iff in B3.
    destruct (time_pre mix <? 0) eqn:P; lia. }
  destruct ((q >=? time_start mix) && (q <? time_end mix)) eqn:B3; [|done].
  apply andb_true_iff in B3 as [B3 B4].
  destruct (time_pre mix <? 0) eqn:P; lia.
Qed.

Lemma mix_row_idle pos chain stpbuf step_channels :
  Forall (fun mix => is_fade mix = true /\ get_fade_gain mix pos = None) chain ->
  mix_row pos chain (stpbuf, step_channels) = (stpbuf, step_channels).
Proof.
  unfold mix_row. induction 1 as [|m chain [Hf Hg] _ IH]; [done|].
  cbn [fold_left].
  assert (mix_step pos (stpbuf, step_channels) m = (stpbuf, step_channels)) as ->;
    [|exact IH].
  unfold mix_step. unfold is_fade in Hf.
  destruct (command m); try done. by rewrite Hg.
Qed.

(** ** A pass in which no command applies *)

Lemma lane_app_l (r1 r2 : list spec_float) i :
  i < Z.of_nat (length r1) -> lane (r1 ++ r2) i = lane r1 i.
Proof.
  intros Hi. unfold lane. destruct (i <? 0) eqn:C; [done|].
  rewrite lookup_app_l; [done|lia].
Qed.

Lemma lane_app_r (r1 r2 : list spec_float) i :
  Z.of_nat (length r1) <= i -> lane (r1 ++ r2) i = lane r2 (i - Z.of_nat (length r1)).
Proof.
  intros Hi. unfold lane.
  destruct (i <? 0) eqn:C; [lia|].
  destruct (i - Z.of_nat (length r1) <? 0) eqn:C'; [lia|].
  rewrite lookup_app_r by lia. do 2 f_equal. lia.
Qed.

Lemma lane_take (n : nat) (r : list spec_float) i :
  i < Z.of_nat n -> lane (take n r) i = lane r i.
Proof.
  intros Hi. unfold lane. destruct (i <? 0) eqn:C; [done|].
  rewrite lookup_take_lt; [done|lia].
Qed.

Lemma fold_set_lanes (g : Z -> spec_float) l : forall stpbuf j,
  let r := fold_left (fun b ch => set_lane ch (g ch) b) l stpbuf in
  length r = length stpbuf
  /\ (j ∈ l -> 0 <= j < Z.of_nat (length stpbuf) -> lane r j = g j)
  /\ (j ∉ l -> lane r j = lane stpbuf j).
Proof.
  induction l as [|c l IH]; intros stpbuf j; simpl.
  { split; [done|]. split; [|done]. intros H. by apply elem_of_nil in H. }
  destruct (IH (set_lane c (g c) stpbuf) j) as (IHlen & IHin & IHout).
  rewrite set_lane_length in IHlen, IHin.
  split; [done|]. split.
  - intros Hin Hj. destruct (decide (j ∈ l)) as [Hl|Hl]; [by apply IHin|].
    apply elem_of_cons in Hin as [->|Hin]; [|done].
    rewrite IHout by done. by apply lane_set_lane_eq.
  - intros Hout. apply not_elem_of_cons in Hout as [Hne Hl].
    rewrite IHout by done. by apply lane_set_lane_ne.
Qed.

Lemma copy_lanes_length frame ch stpbuf :
  length (copy_lanes frame ch stpbuf) = length stpbuf.
Proof.
  unfold copy_lanes.
  by destruct (fold_set_lanes
                 (fun ch => F32.of_Z (default 0 (frame !! Z.to_nat ch)))
                 (seqZ 0 ch) stpbuf 0) as [H _].
Qed.

Lemma copy_lanes_lane frame ch stpbuf j :
  0 <= j < ch -> j < Z.of_nat (length stpbuf) ->
  lane (copy_lanes frame ch stpbuf) j = F32.of_Z (default 0 (frame !! Z.to_nat j)).
Proof.
  intros Hj Hlen. unfold copy_lanes.
  destruct (fold_set_lanes
              (fun ch => F32.of_Z (default 0 (frame !! Z.to_nat ch)))
              (seqZ 0 ch) stpbuf j) as (_ & Hin & _).
  apply Hin; [|lia]. apply elem_of_seqZ. lia.
Qed.

Lemma fold_left_seqZ_inv {A} (P : Z -> A -> Prop) (f : A -> Z -> A) n a :
  0 <= n -> P 0 a ->
  (forall k a, 0 <= k < n -> P k a -> P (k + 1) (f a k)) ->
  P n (fold_left f (seqZ 0 n) a).
Proof.
  intros Hn H0 Hstep.
  rewrite <- (Z2Nat.id n Hn). 
  assert (forall i : nat, Z.of_nat i <= n ->
            P (Z.of_nat i) (fold_left f (seqZ 0 (Z.of_nat i)) a)) as H.
  { induction i as [|i IH]; intros Hi; [done|].
    rewrite seqZ_S, fold_left_app. simpl.
    rewrite Nat2Z.inj_succ. unfold Z.succ. apply Hstep; [lia|]. apply IH. lia. }
  apply H. lia.
Qed.

Lemma copy_back_id buf l : forall outbuf,
  (forall s x, s ∈ l -> outbuf !! Z.to_nat s = Some x ->
               clamp16 (trunc_to_int32 (lane buf s)) = x) ->
  fold_left (copy_back buf) l outbuf = outbuf.
Proof.
  induction l as [|s l IH]; intros outbuf H; [done|]. simpl.
  assert (copy_back buf outbuf s = outbuf) as ->.
  { unfold copy_back.
    destruct (outbuf !! Z.to_nat s) as [x|] eqn:E.
    - rewrite (H s x); [by apply list_insert_id|by left|done].
    - apply list_insert_ge. by apply lookup_ge_None. }
  apply IH. intros s' x Hin. apply H. by right.
Qed.

Lemma clamp16_id x : is_int16 x -> clamp16 x = x.
Proof.
  unfold is_int16, clamp16. intros H.
  destruct (x >? 32767) eqn:C1; [lia|].
  destruct (x <? -32768) eqn:C2; [lia|done].
Qed.

(** When every command of the chain is a fade that is not applicable in the
    whole range, the pass converts the samples to float and back and the
    output buffer is what it was. *)
Lemma mix_pass_idle outbuf n vgmstream data cs :
  buffers_fit outbuf n vgmstream data ->
  (forall q, cs <= q < cs + n ->
             Forall (fun mix => is_fade mix = true /\ get_fade_gain mix q = None)
                    (mixing_chain data)) ->
  fst (mix_pass outbuf n vgmstream data cs) = outbuf.
Proof.
  intros (Hn & [Hoc0 Hoc] & Hbuf & H16) Hidle. unfold mix_pass.
  set (ch := channels vgmstream) in *.
  set (Inv := fun (k : Z) (st : list spec_float * Z * Z) =>
                let '(buf, moff, ooff) := st in
                moff = k * ch /\ ooff = k * ch
                /\ length buf = length (mixbuf data)
                /\ forall i, 0 <= i < k * ch ->
                             lane buf i = F32.of_Z (default 0 (outbuf !! Z.to_nat i))).
  assert (Inv n (fold_left (mix_sample vgmstream (mixing_chain data) outbuf cs)
                           (seqZ 0 n) (mixbuf data, 0, 0))) as HInv.
  { apply fold_left_seqZ_inv; [done| |].
    - unfold Inv. repeat split; try lia.
    - intros k [[buf moff] ooff] Hk (Hm & Ho & Hlen & Hl). subst moff ooff.
      unfold mix_sample. fold ch.
      rewrite mix_row_idle by (apply Hidle; lia).
      assert (0 <= ch) as Hch by lia.
      assert (0 <= k * ch) by lia.
      assert ((k + 1) * ch <= n * ch) by nia.
      assert (length (take (Z.to_nat (k * ch)) buf) = Z.to_nat (k * ch)) as Lt
          by (rewrite length_take; lia).
      unfold Inv. repeat split; try lia.
      + rewrite length_app, copy_lanes_length, Lt, length_drop. lia.
      + intros i Hi. destruct (Z_lt_ge_dec i (k * ch)) as [Hlt|Hge].
        * rewrite lane_app_l by lia. rewrite lane_take by lia. apply Hl. lia.
        * rewrite lane_app_r by lia. rewrite Lt.
          rewrite copy_lanes_lane; [|lia|rewrite length_drop; lia].
          rewrite lookup_drop. do 3 f_equal. lia. }
  destruct (fold_left _ (seqZ 0 n) _) as [[buf moff] ooff].
  destruct HInv as (_ & _ & Hlen & Hl). simpl.
  apply copy_back_id. intros s x Hs Hx.
  apply elem_of_seqZ in Hs.
  assert (is_int16 x) as Hx16.
  { eapply Forall_forall in H16; [done|]. by eapply list_elem_of_lookup_2. }
  rewrite Hl by nia. rewrite Hx. simpl.
  rewrite trunc_of_Z by (unfold is_int16 in Hx16; lia).
  by apply clamp16_id.
Qed.

(** C5: for an activated stream,
    - if the chain holds only fades and the call's range
      [[current_pos, current_pos + sample_count)] has no position in any
      fade's active window, then with a non-empty range and non-empty
      windows [mix_vgmstream] returns at the activity check, and in every
      case (well-formed fades, position not negative, buffers as the engine
      expects them) the output buffer comes back unmodified;
    - if the chain holds any command that is not a fade, the per-sample
      pass is performed. *)
Theorem mix_vgmstream_activity outbuf sample_count vgmstream data :
  vgmstream_mixing vgmstream = Some data ->
  mixing_on data = true ->
  let current_pos := get_current_pos vgmstream in
  (Forall (fun mix => is_fade mix = true) (mixing_chain data) ->
   Forall (range_misses_window current_pos sample_count) (mixing_chain data) ->
   (0 < sample_count -> Forall window_nonempty (mixing_chain data) ->
    mix_vgmstream outbuf sample_count vgmstream = (outbuf, vgmstream))
   /\ (Forall fade_wf (mixing_chain data) -> 0 <= current_pos ->
       buffers_fit outbuf sample_count vgmstream data ->
       fst (mix_vgmstream outbuf sample_count vgmstream) = outbuf))
  /\ ((exists mix, mix ∈ mixing_chain data /\ is_fade mix = false) ->
      mix_vgmstream outbuf sample_count vgmstream
      = mix_pass outbuf sample_count vgmstream data current_pos).
Proof.
  intros E On cs. split.
  - intros Hf Hm. split.
    + intros Hn Hw. unfold mix_vgmstream. rewrite E, On. simpl.
      destruct (mixing_count data =? 0); [done|].
      unfold is_active. fold cs. by rewrite is_active_chain_idle.
    + intros Hwf Hcs Hfit. unfold mix_vgmstream. rewrite E, On. simpl.
      destruct (mixing_count data =? 0); [done|].
      fold cs. destruct (negb (is_active data cs (cs + sample_count))); [done|].
      apply mix_pass_idle; [done|].
      intros q Hq. apply Forall_forall. intros mix Hin.
      split; [by eapply Forall_forall in Hf|].
      apply (get_fade_gain_outside cs sample_count); try done.
      * by eapply Forall_forall in Hwf.
      * by eapply Forall_forall in Hm.
  - intros (mix & Hin & Hnf). unfold mix_vgmstream. rewrite E, On. simpl.
    destruct (mixing_count data =? 0) eqn:C0.
    { unfold mixing_count in C0. destruct (mixing_chain data); [|simpl in C0; lia].
      by apply elem_of_nil in Hin. }
    unfold is_active. fold cs.
    by rewrite (is_active_chain_non_fade _ _ _ mix).
Qed.

(** ** Stored fades are well formed *)

Lemma stitch_fades_ok mix_prev mix :
  fade_wf mix_prev -> 0 <= time_start mix_prev ->
  fade_wf mix -> 0 <= time_start mix ->
  let '(p', m') := stitch_fades mix_prev mix in
  (fade_wf p' /\ 0 <= time_start p' /\ command p' = command mix_prev)
  /\ (fade_wf m' /\ 0 <= time_start m' /\ command m' = command mix).
Proof.
  destruct mix_prev as [c1 d1 s1 v1 a1 b1 h1 pre1 st1 en1 po1].
  destruct mix as [c2 d2 s2 v2 a2 b2 h2 pre2 st2 en2 po2].
  unfold fade_wf, stitch_fades. simpl.
  intros [[? ?] ?] ? [[? ?] ?] ?.
  destruct (po1 <? 0) eqn:P1; destruct (pre2 <? 0) eqn:P2; simpl;
    destruct (en1 >? st2) eqn:C1; simpl; try (repeat split; lia);
    destruct ((po1 >=? 0) && (po1 >? st2)) eqn:C2; simpl; try (repeat split; lia);
    destruct ((pre2 >=? 0) && (pre2 <? en1)) eqn:C3; simpl; try (repeat split; lia);
    rewrite ?P1, ?P2; simpl;
    repeat match goal with
           | |- context [?a <? ?b] => destruct (a <? b) eqn:?; simpl
           | |- context [?a >=? ?b] => destruct (a >=? b) eqn:?; simpl
           end;
    try (apply andb_false_iff in C2 as [C2|C2]);
    try (apply andb_false_iff in C3 as [C3|C3]);
    repeat split; try lia.
Qed.

Lemma chain_of_set_chain vgmstream data chain :
  chain_of (set_vgmstream_mixing (Some (set_mixing_chain chain data)) vgmstream) = chain.
Proof. done. Qed.

Lemma add_mixing_fades_ok vgmstream mix :
  chain_fades_ok vgmstream -> stored_fade_ok mix ->
  chain_fades_ok (snd (add_mixing vgmstream mix)).
Proof.
  intros Hok Hmix.
  destruct (add_mixing_cases vgmstream mix) as [R|(d & E & _ & _ & R)];
    rewrite R; [done|].
  cbn [snd]. unfold chain_fades_ok in *. rewrite chain_of_set_chain.
  unfold chain_of in Hok. rewrite E in Hok.
  apply Forall_app. split; [done|]. by apply Forall_singleton.
Qed.

Lemma new_mix_not_fade cmd d s v :
  cmd <> MIX_FADE -> stored_fade_ok (new_mix cmd d s v).
Proof. intros Hc Hf. unfold is_fade in Hf. simpl in Hf. by destruct cmd. Qed.

Lemma with_mixing_chain f vgmstream :
  (forall data, mixing_chain (f data) = mixing_chain data) ->
  chain_of (with_mixing f vgmstream) = chain_of vgmstream.
Proof.
  intros Hf. unfold with_mixing, chain_of.
  destruct (vgmstream_mixing vgmstream) as [data|] eqn:E; simpl; [done|].
  by rewrite E.
Qed.

Lemma mixing_push_swap_fades_ok vgmstream d s :
  chain_fades_ok vgmstream -> chain_fades_ok (mixing_push_swap vgmstream d s).
Proof.
  intros Hok. unfold mixing_push_swap. repeat case_match; try done.
  apply add_mixing_fades_ok; [done|]. by apply new_mix_not_fade.
Qed.

Lemma mixing_push_add_fades_ok vgmstream d s v :
  chain_fades_ok vgmstream -> chain_fades_ok (mixing_push_add vgmstream d s v).
Proof.
  intros Hok. unfold mixing_push_add. repeat case_match; try done.
  apply add_mixing_fades_ok; [done|]. by apply new_mix_not_fade.
Qed.

Lemma mixing_push_volume_fades_ok vgmstream d v :
  chain_fades_ok vgmstream -> chain_fades_ok (mixing_push_volume vgmstream d v).
Proof.
  intros Hok. unfold mixing_push_volume. repeat case_match; try done.
  apply add_mixing_fades_ok; [done|]. by apply new_mix_not_fade.
Qed.

Lemma mixing_push_limit_fades_ok vgmstream d v :
  chain_fades_ok vgmstream -> chain_fades_ok (mixing_push_limit vgmstream d v).
Proof.
  intros Hok. unfold mixing_push_limit. repeat case_match; try done.
  apply add_mixing_fades_ok; [done|]. by apply new_mix_not_fade.
Qed.

Lemma mixing_push_upmix_fades_ok vgmstream d :
  chain_fades_ok vgmstream -> chain_fades_ok (mixing_push_upmix vgmstream d).
Proof.
  intros Hok. unfold mixing_push_upmix.
  destruct (d <? 0); [done|].
  destruct (vgmstream_mixing vgmstream) as [data|] eqn:E; [|done].
  destruct (_ || _); [done|].
  assert (stored_fade_ok (new_mix MIX_UPMIX d (ch_src mix_zero) (vol mix_zero)))
    as Hnew by (by apply new_mix_not_fade).
  pose proof (add_mixing_fades_ok vgmstream _ Hok Hnew) as H.
  destruct (add_mixing _ _) as [ok vg]. simpl in H.
  destruct ok; [|done].
  unfold chain_fades_ok. rewrite with_mixing_chain; [done|].
  intros d0. simpl. by destruct (_ <? _).
Qed.

Lemma mixing_push_downmix_fades_ok vgmstream d :
  chain_fades_ok vgmstream -> chain_fades_ok (mixing_push_downmix vgmstream d).
Proof.
  intros Hok. unfold mixing_push_downmix.
  destruct (d <? 0); [done|].
  destruct (vgmstream_mixing vgmstream) as [data|] eqn:E; [|done].
  destruct (_ || _); [done|].
  assert (stored_fade_ok (new_mix MIX_DOWNMIX d (ch_src mix_zero) (vol mix_zero)))
    as Hnew by (by apply new_mix_not_fade).
  pose proof (add_mixing_fades_ok vgmstream _ Hok Hnew) as H.
  destruct (add_mixing _ _) as [ok vg]. simpl in H.
  destruct ok; [|done].
  unfold chain_fades_ok. by rewrite with_mixing_chain.
Qed.

Lemma mixing_push_killmix_fades_ok vgmstream d :
  chain_fades_ok vgmstream -> chain_fades_ok (mixing_push_killmix vgmstream d).
Proof.
  intros Hok. unfold mixing_push_killmix.
  destruct (d <=? 0); [done|].
  destruct (vgmstream_mixing vgmstream) as [data|] eqn:E; [|done].
  destruct (_ >=? _); [done|].
  assert (stored_fade_ok (new_mix MIX_KILLMIX d (ch_src mix_zero) (vol mix_zero)))
    as Hnew by (by apply new_mix_not_fade).
  pose proof (add_mixing_fades_ok vgmstream _ Hok Hnew) as H.
  destruct (add_mixing _ _) as [ok vg]. simpl in H.
  destruct ok; [|done].
  unfold chain_fades_ok. by rewrite with_mixing_chain.
Qed.

Lemma get_last_fade_from_is_fade chain target : forall i j,
  get_last_fade_from chain i target = Some j ->
  exists mix, chain !! j = Some mix /\ is_fade mix = true /\ ch_dst mix = target.
Proof.
  induction i as [|i IH]; intros j; simpl; [done|].
  destruct (chain !! i) as [mix|] eqn:E; [|by apply IH].
  destruct (negb (is_fade mix)) eqn:F; [by apply IH|].
  destruct (ch_dst mix =? target) eqn:D; [|by apply IH].
  intros [= <-]. exists mix. apply negb_false_iff in F. repeat split; try done. lia.
Qed.

Lemma mixing_push_fade_fades_ok vgmstream d vs ve sh t0 t1 t2 t3 :
  chain_fades_ok vgmstream ->
  chain_fades_ok (mixing_push_fade vgmstream d vs ve sh t0 t1 t2 t3).
Proof.
  intros Hok. unfold mixing_push_fade.
  destruct (vgmstream_mixing vgmstream) as [data|] eqn:E; [|done].
  destruct (d >=? output_channels data); [done|].
  destruct ((t0 >? t1) || (t1 >? t2) || ((t3 >=? 0) && (t2 >? t3))) eqn:G1; [done|].
  destruct ((t1 <? 0) || (t2 <? 0)) eqn:G2; [done|].
  apply orb_false_iff in G1 as [G1 G1c]. apply orb_false_iff in G1 as [G1a G1b].
  apply orb_false_iff in G2 as [G2a G2b].
  match goal with
  | |- context [MixCommand MIX_FADE d ?a ?b ?c ?e ?s t0 t1 t2 t3] =>
      set (mix := MixCommand MIX_FADE d a b c e s t0 t1 t2 t3)
  end.
  assert (fade_wf mix /\ 0 <= time_start mix) as [Hwf Hst].
  { unfold fade_wf. simpl. repeat split; lia. }
  destruct (get_last_fade data d) as [i|] eqn:L.
  - apply get_last_fade_from_is_fade in L as (prev & Ei & Fp & _).
    rewrite Ei.
    assert (stored_fade_ok prev) as Hprev.
    { unfold chain_fades_ok, chain_of in Hok. rewrite E in Hok.
      eapply Forall_forall in Hok; [done|]. by eapply list_elem_of_lookup_2. }
    destruct (Hprev Fp) as [Hpw Hps].
    pose proof (stitch_fades_ok prev mix Hpw Hps Hwf Hst) as Hs.
    destruct (stitch_fades prev mix) as [p' m'].
    destruct Hs as ((Hp1 & Hp2 & _) & (Hm1 & Hm2 & _)).
    apply add_mixing_fades_ok; [|by intros _].
    unfold chain_fades_ok. rewrite chain_of_set_chain.
    apply Forall_insert; [|by intros _].
    unfold chain_fades_ok, chain_of in Hok. by rewrite E in Hok.
  - apply add_mixing_fades_ok; [done|by intros _].
Qed.

(** Whatever the sequence of constructor and macro calls, every fade the
    chain holds is well formed. *)
Lemma run_calls_fades_ok cs vgmstream vg' :
  chain_fades_ok vgmstream -> run_calls vgmstream cs = Some vg' ->
  chain_fades_ok vg'.
Proof.
  apply run_calls_keeps.
  - apply mixing_push_swap_fades_ok.
  - apply mixing_push_add_fades_ok.
  - apply mixing_push_volume_fades_ok.
  - apply mixing_push_limit_fades_ok.
  - apply mixing_push_upmix_fades_ok.
  - apply mixing_push_downmix_fades_ok.
  - apply mixing_push_killmix_fades_ok.
  - apply mixing_push_fade_fades_ok.
  - done.
Qed.

(** X18: every fade in a chain built by configuration calls after
    [mixing_init] has its times in order, [time_pre <= time_start <=
    time_end] and [time_end <= time_post] unless [time_post] is open, and
    starts at a position that is not negative; the changes that stitching
    makes to stored fades keep this. *)
Lemma built_fades_wf cs vgmstream vg' mix :
  run_calls (mixing_init vgmstream) cs = Some vg' ->
  mix ∈ chain_of vg' -> is_fade mix = true ->
  fade_wf mix /\ 0 <= time_start mix.
Proof.
  intros Hrun Hin Hf.
  assert (chain_fades_ok vg') as Hok.
  { eapply run_calls_fades_ok; [|done]. by apply Forall_nil. }
  eapply Forall_forall in Hok; [|done]. by apply Hok.
Qed.

(** Activation sizes the working buffer to [max_sample_count] rows of
    [mixing_channels] lanes. *)
Lemma mixing_setup_mixbuf vgmstream data max_sample_count :
  vgmstream_mixing vgmstream = Some data ->
  0 < max_sample_count ->
  exists data',
    vgmstream_mixing (mixing_setup true vgmstream max_sample_count) = Some data'
    /\ mixing_on data' = true
    /\ mixing_chain data' = mixing_chain data
    /\ output_channels data' = output_channels data
    /\ length (mixbuf data') = Z.to_nat (max_sample_count * mixing_channels data).
Proof.
  intros E Hmax. unfold mixing_setup. rewrite E.
  destruct (max_sample_count <=? 0) eqn:C; [lia|]. simpl.
  eexists. split; [reflexivity|].
  simpl. repeat split. apply length_resize.
Qed.

(** ** The activity check as a property of the whole chain *)

(** X1: [is_active] answers yes exactly when the chain holds a command that
    is not a fade, or a fade whose window passes the overlap test; where
    such a command stands in the chain does not matter. *)
Theorem is_active_chain_exists chain current_start current_end :
  is_active_chain chain current_start current_end = true
  <-> Exists (fun mix => is_fade mix = false
                         \/ fade_overlaps mix current_start current_end) chain.
Proof.
  induction chain as [|m chain IH]; simpl.
  - split; [done|]. intros H. inversion H.
  - rewrite Exists_cons. unfold fade_overlaps at 1.
    destruct (is_fade m) eqn:F; simpl.
    + destruct ((current_start <? _) && (current_end >? _)) eqn:T.
      * split; [|done]. intros _. left. right.
        apply andb_true_iff in T. lia.
      * rewrite IH. split; [by right|].
        intros [[H|H]|H]; [done| |done].
        apply andb_false_iff in T. lia.
    + split; [|done]. intros _. left. by left.
Qed.

(** ** Chain shape kept by the builder *)

Lemma mix_step_width pos stpbuf w mix :
  snd (mix_step pos (stpbuf, w) mix) = width_after w mix.
Proof.
  unfold mix_step, width_after.
  destruct (command mix); simpl; try done.
  - by destruct (ch_dst mix <? 0).
  - by destruct (ch_dst mix <? 0).
  - destruct (get_fade_gain mix pos); [|done]. by destruct (ch_dst mix <? 0).
Qed.

Lemma mix_row_width pos chain : forall stpbuf w,
  snd (mix_row pos chain (stpbuf, w)) = chain_width w chain.
Proof.
  unfold mix_row, chain_width.
  induction chain as [|m chain IH]; intros stpbuf w; [done|].
  cbn [fold_left].
  pose proof (mix_step_width pos stpbuf w m) as Hw.
  destruct (mix_step pos (stpbuf, w) m) as [r w']. simpl in Hw. subst w'.
  apply IH.
Qed.

Lemma chain_width_app w chain mix :
  chain_width w (chain ++ [mix]) = width_after (chain_width w chain) mix.
Proof. unfold chain_width. by rewrite fold_left_app. Qed.

Lemma chain_valid_app peak chain mix : forall w,
  chain_valid w peak (chain ++ [mix])
  <-> chain_valid w peak chain
      /\ command_valid (chain_width w chain) mix
      /\ width_after (chain_width w chain) mix <= peak.
Proof.
  induction chain as [|m chain IH]; intros w; simpl.
  - unfold chain_width. simpl. tauto.
  - rewrite IH. unfold chain_width. simpl. tauto.
Qed.

Lemma chain_valid_mono chain : forall w peak peak',
  peak <= peak' -> chain_valid w peak chain -> chain_valid w peak' chain.
Proof.
  induction chain as [|m chain IH]; intros w p p' Hp; simpl; [done|].
  intros (H1 & H2 & H3). repeat split; [done|lia|by eapply IH].
Qed.

Lemma chain_width_le_peak chain : forall w peak,
  w <= peak -> chain_valid w peak chain -> chain_width w chain <= peak.
Proof.
  unfold chain_width.
  induction chain as [|m chain IH]; intros w p Hw; simpl; [done|].
  intros (_ & H2 & H3). by apply IH.
Qed.

(** Replacing a command by one with the same kind and lanes changes
    neither widths nor validity. *)
Lemma chain_shape_insert peak (i : nat) mix mix' chain : forall w,
  chain !! i = Some mix ->
  command mix' = command mix -> ch_dst mix' = ch_dst mix -> ch_src mix' = ch_src mix ->
  chain_width w (<[i := mix']> chain) = chain_width w chain
  /\ (chain_valid w peak chain -> chain_valid w peak (<[i := mix']> chain)).
Proof.
  intros w Hi Hc Hd Hs.
  assert (forall v, width_after v mix' = width_after v mix) as Hw
      by (intros; unfold width_after; by rewrite Hc, Hd).
  assert (forall v, command_valid v mix -> command_valid v mix') as Hv
      by (intros v; unfold command_valid; by rewrite Hc, Hd, Hs).
  revert i w Hi. unfold chain_width.
  induction chain as [|m chain IH]; intros i w Hi; [done|].
  destruct i as [|i]; simpl in *.
  - injection Hi as ->. rewrite Hw. split; [done|].
    intros (H1 & H2 & H3). auto.
  - destruct (IH i (width_after w m) Hi) as [IH1 IH2].
    split; [done|]. intros (H1 & H2 & H3). auto.
Qed.

Lemma stitch_fades_lanes mix_prev mix :
  let '(p', m') := stitch_fades mix_prev mix in
  (command p' = command mix_prev /\ ch_dst p' = ch_dst mix_prev
   /\ ch_src p' = ch_src mix_prev)
  /\ (command m' = command mix /\ ch_dst m' = ch_dst mix /\ ch_src m' = ch_src mix).
Proof.
  unfold stitch_fades.
  destruct (_ || _); [|done].
  destruct (negb _); [|done].
  destruct (_ && _); simpl; repeat (destruct (_ && _); simpl); done.
Qed.

Lemma chain_shape_append vgmstream data mix :
  vgmstream_mixing vgmstream = Some data ->
  chain_shape_ok vgmstream ->
  command_valid (output_channels data) mix ->
  width_after (output_channels data) mix <= mixing_channels data ->
  chain_valid (channels vgmstream) (mixing_channels data) (mixing_chain data ++ [mix])
  /\ chain_width (channels vgmstream) (mixing_chain data ++ [mix])
     = width_after (output_channels data) mix.
Proof.
  intros E Hok Hv Hw. unfold chain_shape_ok in Hok. rewrite E in Hok.
  destruct Hok as (Hc & Hval & Hwid).
  rewrite chain_valid_app, chain_width_app, Hwid. done.
Qed.

(** Constructors that leave the channel count alone. *)
Lemma chain_shape_same_width vgmstream mix :
  chain_shape_ok vgmstream ->
  (forall data, vgmstream_mixing vgmstream = Some data ->
                command_valid (output_channels data) mix) ->
  (forall w, width_after w mix = w) ->
  chain_shape_ok (snd (add_mixing vgmstream mix)).
Proof.
  intros Hok Hv Hw.
  destruct (add_mixing_cases vgmstream mix) as [R|(d & E & _ & _ & R)];
    rewrite R; [done|]. cbn [snd].
  pose proof Hok as Hok'. unfold chain_shape_ok in Hok'. rewrite E in Hok'.
  destruct Hok' as (Hc & Hval & Hwid).
  destruct (chain_shape_append vgmstream d mix E Hok (Hv d E)) as [H1 H2].
  { rewrite Hw. rewrite <- Hwid. by apply chain_width_le_peak. }
  unfold chain_shape_ok. simpl. rewrite Hw in H2. done.
Qed.

Lemma mixing_push_swap_shape vgmstream d s :
  chain_shape_ok vgmstream -> chain_shape_ok (mixing_push_swap vgmstream d s).
Proof.
  intros Hok. unfold mixing_push_swap.
  destruct ((d <? 0) || (s <? 0) || (d =? s)) eqn:G; [done|].
  destruct (vgmstream_mixing vgmstream) as [data|] eqn:E; [|done].
  destruct ((d >=? output_channels data) || (s >=? output_channels data)) eqn:G2;
    [done|].
  apply chain_shape_same_width; [done| |done].
  intros data' E'. assert (data' = data) as -> by congruence.
  unfold command_valid. simpl. lia.
Qed.

Lemma mixing_push_add_shape vgmstream d s v :
  chain_shape_ok vgmstream -> chain_shape_ok (mixing_push_add vgmstream d s v).
Proof.
  intros Hok. unfold mixing_push_add.
  destruct (vgmstream_mixing vgmstream) as [data|] eqn:E; [|done].
  destruct (SFeqb v F64.zero); [done|].
  destruct ((d <? 0) || (s <? 0)) eqn:G; [done|].
  destruct ((d >=? output_channels data) || (s >=? output_channels data)) eqn:G2;
    [done|].
  apply chain_shape_same_width; [done| |done].
  intros data' E'. assert (data' = data) as -> by congruence.
  unfold command_valid. simpl. lia.
Qed.

Lemma mixing_push_volume_shape vgmstream d v :
  chain_shape_ok vgmstream -> chain_shape_ok (mixing_push_volume vgmstream d v).
Proof.
  intros Hok. unfold mixing_push_volume.
  destruct (SFeqb v F64.one); [done|].
  destruct (vgmstream_mixing vgmstream) as [data|] eqn:E; [|done].
  destruct (d >=? output_channels data) eqn:G; [done|].
  apply chain_shape_same_width; [done| |done].
  intros data' E'. assert (data' = data) as -> by congruence.
  unfold command_valid. simpl. lia.
Qed.

Lemma mixing_push_limit_shape vgmstream d v :
  chain_shape_ok vgmstream -> chain_shape_ok (mixing_push_limit vgmstream d v).
Proof.
  intros Hok. unfold mixing_push_limit.
  destruct (SFltb v F64.zero); [done|].
  destruct (SFeqb v F64.one); [done|].
  destruct (vgmstream_mixing vgmstream) as [data|] eqn:E; [|done].
  destruct (d >=? output_channels data) eqn:G; [done|].
  apply chain_shape_same_width; [done| |done].
  intros data' E'. assert (data' = data) as -> by congruence.
  unfold command_valid. simpl. lia.
Qed.

Lemma mixing_push_upmix_shape vgmstream d :
  chain_shape_ok vgmstream -> chain_shape_ok (mixing_push_upmix vgmstream d).
Proof.
  intros Hok. unfold mixing_push_upmix.
  destruct (d <? 0) eqn:G0; [done|].
  destruct (vgmstream_mixing vgmstream) as [data|] eqn:E; [|done].
  destruct ((d >? output_channels data)
            || (output_channels data + 1 >? VGMSTREAM_MAX_CHANNELS)) eqn:G; [done|].
  set (mix := new_mix MIX_UPMIX d (ch_src mix_zero) (vol mix_zero)).
  destruct (add_mixing_cases vgmstream mix) as [R|(d' & E' & _ & _ & R)];
    rewrite R; [done|].
  assert (d' = data) as -> by congruence.
  pose proof Hok as Hok'. unfold chain_shape_ok in Hok'. rewrite E in Hok'.
  destruct Hok' as (Hc & Hval & Hwid).
  assert (output_channels data <= mixing_channels data) as Hle
      by (rewrite <- Hwid; by apply chain_width_le_peak).
  unfold with_mixing, chain_shape_ok. simpl.
  assert (chain_valid (channels vgmstream)
                      (Z.max (mixing_channels data) (output_channels data + 1))
                      (mixing_chain data ++ [mix])
          /\ chain_width (channels vgmstream) (mixing_chain data ++ [mix])
             = output_channels data + 1) as [H1 H2].
  { rewrite chain_valid_app, chain_width_app, Hwid.
    unfold command_valid, width_after. simpl. repeat split; try lia.
    eapply chain_valid_mono; [|done]. lia. }
  destruct (mixing_channels data <? output_channels data + 1) eqn:C; simpl.
  - replace (output_channels data + 1)
      with (Z.max (mixing_channels data) (output_channels data + 1)) at 1 2 by lia.
    repeat split; try done. lia.
  - replace (mixing_channels data)
      with (Z.max (mixing_channels data) (output_channels data + 1)) at 2 by lia.
    done.
Qed.

Lemma mixing_push_downmix_shape vgmstream d :
  chain_shape_ok vgmstream -> chain_shape_ok (mixing_push_downmix vgmstream d).
Proof.
  intros Hok. unfold mixing_push_downmix.
  destruct (d <? 0) eqn:G0; [done|].
  destruct (vgmstream_mixing vgmstream) as [data|] eqn:E; [|done].
  destruct ((d >=? output_channels data) || (output_channels data - 1 <? 1)) eqn:G;
    [done|].
  set (mix := new_mix MIX_DOWNMIX d (ch_src mix_zero) (vol mix_zero)).
  destruct (add_mixing_cases vgmstream mix) as [R|(d' & E' & _ & _ & R)];
    rewrite R; [done|].
  assert (d' = data) as -> by congruence.
  pose proof Hok as Hok'. unfold chain_shape_ok in Hok'. rewrite E in Hok'.
  destruct Hok' as (Hc & Hval & Hwid).
  assert (output_channels data <= mixing_channels data) as Hle
      by (rewrite <- Hwid; by apply chain_width_le_peak).
  destruct (chain_shape_append vgmstream data mix E Hok) as [H1 H2].
  { unfold command_valid. simpl. lia. }
  { unfold width_after. simpl. lia. }
  unfold with_mixing, chain_shape_ok. simpl. done.
Qed.

Lemma mixing_push_killmix_shape vgmstream d :
  chain_shape_ok vgmstream -> chain_shape_ok (mixing_push_killmix vgmstream d).
Proof.
  intros Hok. unfold mixing_push_killmix.
  destruct (d <=? 0) eqn:G0; [done|].
  destruct (vgmstream_mixing vgmstream) as [data|] eqn:E; [|done].
  destruct (d >=? output_channels data) eqn:G; [done|].
  set (mix := new_mix MIX_KILLMIX d (ch_src mix_zero) (vol mix_zero)).
  destruct (add_mixing_cases vgmstream mix) as [R|(d' & E' & _ & _ & R)];
    rewrite R; [done|].
  assert (d' = data) as -> by congruence.
  pose proof Hok as Hok'. unfold chain_shape_ok in Hok'. rewrite E in Hok'.
  destruct Hok' as (Hc & Hval & Hwid).
  assert (output_channels data <= mixing_channels data) as Hle
      by (rewrite <- Hwid; by apply chain_width_le_peak).
  destruct (chain_shape_append vgmstream data mix E Hok) as [H1 H2].
  { unfold command_valid. simpl. lia. }
  { unfold width_after. simpl. lia. }
  unfold with_mixing, chain_shape_ok. simpl. done.
Qed.

Lemma mixing_push_fade_shape vgmstream d vs ve sh t0 t1 t2 t3 :
  chain_shape_ok vgmstream ->
  chain_shape_ok (mixing_push_fade vgmstream d vs ve sh t0 t1 t2 t3).
Proof.
  intros Hok. unfold mixing_push_fade.
  destruct (vgmstream_mixing vgmstream) as [data|] eqn:E; [|done].
  destruct (d >=? output_channels data) eqn:G; [done|].
  destruct (_ || _ || _); [done|].
  destruct (_ || _); [done|].
  match goal with
  | |- context [MixCommand MIX_FADE d ?a ?b ?c ?e ?s t0 t1 t2 t3] =>
      set (mix := MixCommand MIX_FADE d a b c e s t0 t1 t2 t3)
  end.
  destruct (get_last_fade data d) as [i|] eqn:L.
  - apply get_last_fade_from_is_fade in L as (prev & Ei & _ & _).
    rewrite Ei.
    pose proof (stitch_fades_lanes prev mix) as Hs.
    destruct (stitch_fades prev mix) as [p' m'].
    destruct Hs as ((Hp1 & Hp2 & Hp3) & (Hm1 & Hm2 & Hm3)).
    pose proof Hok as Hok'. unfold chain_shape_ok in Hok'. rewrite E in Hok'.
    destruct Hok' as (Hc & Hval & Hwid).
    destruct (chain_shape_insert (mixing_channels data) i prev p' (mixing_chain data)
                                 (channels vgmstream) Ei Hp1 Hp2 Hp3) as [Hi1 Hi2].
    apply chain_shape_same_width.
    + unfold chain_shape_ok. simpl. rewrite Hi1. auto.
    + simpl. intros data' [= <-]. simpl.
      unfold command_valid. rewrite Hm1, Hm2. simpl. lia.
    + intros w. unfold width_after. by rewrite Hm1.
  - apply chain_shape_same_width; [done| |done].
    intros data' E'. assert (data' = data) as -> by congruence.
    unfold command_valid. simpl. lia.
Qed.

Lemma run_calls_shape cs vgmstream vg' :
  chain_shape_ok vgmstream -> run_calls vgmstream cs = Some vg' ->
  chain_shape_ok vg'.
Proof.
  apply run_calls_keeps.
  - apply mixing_push_swap_shape.
  - apply mixing_push_add_shape.
  - apply mixing_push_volume_shape.
  - apply mixing_push_limit_shape.
  - apply mixing_push_upmix_shape.
  - apply mixing_push_downmix_shape.
  - apply mixing_push_killmix_shape.
  - apply mixing_push_fade_shape.
  - done.
Qed.

Lemma mixing_init_shape vgmstream : chain_shape_ok (mixing_init vgmstream).
Proof. unfold chain_shape_ok, chain_width. simpl. lia. Qed.

Lemma run_calls_channels cs vgmstream vg' :
  run_calls vgmstream cs = Some vg' -> channels vg' = channels vgmstream.
Proof.
  intros H.
  apply (run_calls_keeps (fun vg => channels vg = channels vgmstream)) in H;
    try done.
  - intros vg d s Hc. unfold mixing_push_swap. repeat case_match; try done.
    unfold add_mixing. repeat case_match; done.
  - intros vg d s v Hc. unfold mixing_push_add. repeat case_match; try done.
    unfold add_mixing. repeat case_match; done.
  - intros vg d v Hc. unfold mixing_push_volume. repeat case_match; try done.
    unfold add_mixing. repeat case_match; done.
  - intros vg d v Hc. unfold mixing_push_limit. repeat case_match; try done.
    unfold add_mixing. repeat case_match; done.
  - intros vg d Hc. unfold mixing_push_upmix, add_mixing, with_mixing.
    repeat case_match; simplify_eq; done.
  - intros vg d Hc. unfold mixing_push_downmix, add_mixing, with_mixing.
    repeat case_match; simplify_eq; done.
  - intros vg d Hc. unfold mixing_push_killmix, add_mixing, with_mixing.
    repeat case_match; simplify_eq; done.
  - intros vg d vs ve sh t0 t1 t2 t3 Hc. unfold mixing_push_fade, add_mixing.
    repeat case_match; simplify_eq; done.
Qed.

(** X2: for a chain built through the configuration API, the number of
    channels the engine leaves in a row, starting from the stream's
    channels, is the [output_channels] the builder keeps and
    [mixing_info] reports. *)
Theorem built_chain_row_width vgmstream cs vg' pos stpbuf :
  run_calls (mixing_init vgmstream) cs = Some vg' ->
  exists data,
    vgmstream_mixing vg' = Some data
    /\ channels vg' = channels vgmstream
    /\ snd (mix_row pos (mixing_chain data) (stpbuf, channels vg'))
       = output_channels data
    /\ mixing_info vg'
       = Some (Z.max (channels vg') (output_channels data), output_channels data).
Proof.
  intros Hrun.
  pose proof (run_calls_shape cs _ _ (mixing_init_shape vgmstream) Hrun) as Hok.
  pose proof (run_calls_channels cs _ _ Hrun) as Hch. simpl in Hch.
  unfold chain_shape_ok in Hok. unfold mixing_info.
  destruct (vgmstream_mixing vg') as [data|]; [|done].
  destruct Hok as (_ & _ & Hwid). exists data.
  rewrite mix_row_width. repeat split; try done.
  destruct (output_channels data >? channels vg') eqn:C; do 2 f_equal; lia.
Qed.

(** X3: in a chain built through the configuration API every command names
    lanes that exist when it runs (Swap and Add inside the active lanes,
    Upmix at most one past them, Downmix leaving at least one, Killmix
    strictly inside), and no row ever grows beyond [mixing_channels]. *)
Theorem built_chain_valid vgmstream cs vg' :
  run_calls (mixing_init vgmstream) cs = Some vg' ->
  exists data,
    vgmstream_mixing vg' = Some data
    /\ channels vg' <= mixing_channels data
    /\ chain_valid (channels vg') (mixing_channels data) (mixing_chain data).
Proof.
  intros Hrun.
  pose proof (run_calls_shape cs _ _ (mixing_init_shape vgmstream) Hrun) as Hok.
  unfold chain_shape_ok in Hok.
  destruct (vgmstream_mixing vg') as [data|]; [|done].
  destruct Hok as (H1 & H2 & _). by exists data.
Qed.

(** ** Activation locks the chain *)

Lemma add_mixing_locked n oc mc buf vgmstream mix :
  locked_as n oc mc buf vgmstream -> add_mixing vgmstream mix = (false, vgmstream).
Proof.
  unfold locked_as, add_mixing.
  destruct (vgmstream_mixing vgmstream) as [data|]; [|done].
  by intros (-> & _).
Qed.

Lemma run_calls_locked n oc mc buf cs vgmstream vg' :
  locked_as n oc mc buf vgmstream -> run_calls vgmstream cs = Some vg' ->
  locked_as n oc mc buf vg'.
Proof.
  apply run_calls_keeps.
  - intros vg d s H. unfold mixing_push_swap. repeat case_match; try done.
    by rewrite (add_mixing_locked n oc mc buf).
  - intros vg d s v H. unfold mixing_push_add. repeat case_match; try done.
    by rewrite (add_mixing_locked n oc mc buf).
  - intros vg d v H. unfold mixing_push_volume. repeat case_match; try done.
    by rewrite (add_mixing_locked n oc mc buf).
  - intros vg d v H. unfold mixing_push_limit. repeat case_match; try done.
    by rewrite (add_mixing_locked n oc mc buf).
  - intros vg d H. unfold mixing_push_upmix.
    rewrite (add_mixing_locked n oc mc buf) by done. by repeat case_match.
  - intros vg d H. unfold mixing_push_downmix.
    rewrite (add_mixing_locked n oc mc buf) by done. by repeat case_match.
  - intros vg d H. unfold mixing_push_killmix.
    rewrite (add_mixing_locked n oc mc buf) by done. by repeat case_match.
  - intros vg d vs ve sh t0 t1 t2 t3 H. unfold mixing_push_fade.
    destruct (vgmstream_mixing vg) as [data|] eqn:E; [|done].
    destruct (d >=? output_channels data); [done|].
    destruct (_ || _ || _); [done|].
    destruct (_ || _); [done|].
    rewrite (add_mixing_locked n oc mc buf) by done.
    destruct (get_last_fade data d) as [i|]; [|done].
    destruct (mixing_chain data !! i) as [prev|]; [|done].
    destruct (stitch_fades prev _) as [p' m'].
    unfold locked_as in H. rewrite E in H.
    destruct H as (H1 & H2 & H3 & H4 & H5).
    assert (locked_as n oc mc buf
              (set_vgmstream_mixing
                 (Some (set_mixing_chain (<[i:=p']> (mixing_chain data)) data)) vg))
      as Hl.
    { unfold locked_as. simpl. rewrite length_insert. done. }
    by rewrite (add_mixing_locked n oc mc buf).
  - done.
Qed.

(** X4: once mixing is activated, no constructor or macro call, in any
    number and order, changes the number of commands, [output_channels],
    [mixing_channels], the working buffer or the activation flag. *)
Theorem activation_locks_chain cs vgmstream data vg' :
  vgmstream_mixing vgmstream = Some data ->
  mixing_on data = true ->
  run_calls vgmstream cs = Some vg' ->
  exists data',
    vgmstream_mixing vg' = Some data'
    /\ mixing_on data' = true
    /\ mixing_count data' = mixing_count data
    /\ output_channels data' = output_channels data
    /\ mixing_channels data' = mixing_channels data
    /\ mixbuf data' = mixbuf data.
Proof.
  intros E On Hrun.
  assert (locked_as (length (mixing_chain data)) (output_channels data)
                    (mixing_channels data) (mixbuf data) vgmstream) as Hl.
  { unfold locked_as. by rewrite E. }
  pose proof (run_calls_locked _ _ _ _ cs _ _ Hl Hrun) as Hl'.
  unfold locked_as in Hl'.
  destruct (vgmstream_mixing vg') as [data'|]; [|done].
  destruct Hl' as (H1 & H2 & H3 & H4 & H5).
  exists data'. unfold mixing_count. rewrite H2. done.
Qed.

(** ** What [mix_vgmstream] writes *)

Lemma copy_back_length buf l : forall outbuf,
  length (fold_left (copy_back buf) l outbuf) = length outbuf.
Proof.
  induction l as [|s l IH]; intros outbuf; [done|].
  simpl. rewrite IH. unfold copy_back. apply length_insert.
Qed.

Lemma copy_back_drop buf (m : nat) l : forall outbuf,
  Forall (fun s => 0 <= s < Z.of_nat m) l ->
  drop m (fold_left (copy_back buf) l outbuf) = drop m outbuf.
Proof.
  induction l as [|s l IH]; intros outbuf Hl; [done|].
  inversion Hl as [|? ? Hs Hl']; subst. simpl.
  rewrite IH by done. unfold copy_back. apply drop_insert_lt. lia.
Qed.

(** X5: whatever the chain, [mix_vgmstream] keeps the length of the output
    buffer and writes only its first [sample_count * output_channels]
    samples; everything after them is what the decoder left there. *)
Theorem mix_vgmstream_writes_prefix outbuf sample_count vgmstream data :
  vgmstream_mixing vgmstream = Some data ->
  let out := fst (mix_vgmstream outbuf sample_count vgmstream) in
  length out = length outbuf
  /\ drop (Z.to_nat (sample_count * output_channels data)) out
     = drop (Z.to_nat (sample_count * output_channels data)) outbuf.
Proof.
  intros E. simpl. unfold mix_vgmstream. rewrite E.
  destruct (negb (mixing_on data) || (mixing_count data =? 0)); [done|].
  destruct (negb (is_active _ _ _)); [done|].
  unfold mix_pass.
  destruct (fold_left _ (seqZ 0 sample_count) _) as [[buf moff] ooff]. simpl.
  split; [apply copy_back_length|].
  apply copy_back_drop. apply Forall_seqZ. lia.
Qed.

(** ** Activation twice *)

(** X6: [mixing_setup] is idempotent: a second call with the same sample
    count and the same allocation outcome changes nothing. *)
Theorem mixing_setup_idempotent alloc_ok vgmstream max_sample_count :
  mixing_setup alloc_ok (mixing_setup alloc_ok vgmstream max_sample_count)
               max_sample_count
  = mixing_setup alloc_ok vgmstream max_sample_count.
Proof.
  destruct vgmstream as [ch sr lf ls le cs lc clc cl [data|]]; [|reflexivity].
  unfold mixing_setup. simpl.
  destruct (negb (cl =? 0) && negb (ch =? output_channels data)) eqn:C1;
    destruct (max_sample_count <=? 0) eqn:M; simpl; rewrite ?C1, ?M;
    try reflexivity;
    destruct alloc_ok; simpl; rewrite ?C1, ?M; simpl;
    unfold set_vgmstream_mixing, set_mixing_on, set_mixbuf; simpl;
    rewrite ?resize_idemp; reflexivity.
Qed.

(** ** Where the layering macro divides by zero *)






(** ** Stitched fades hand over at one point *)

Lemma get_fade_gain_none_outside mix pos :
  fade_wf mix ->
  (0 <= time_pre mix /\ pos < time_pre mix)
  \/ (0 <= time_post mix /\ time_post mix <= pos) ->
  get_fade_gain mix pos = None.
Proof.
  intros [[Hps Hse] Hpost] Hout. unfold get_fade_gain.
  destruct (((pos >=? time_pre mix) || (time_pre mix <? 0))
            && (pos <? time_start mix)) eqn:B1; [lia|].
  destruct ((pos >=? time_end mix)
            && ((pos <? time_post mix) || (time_post mix <? 0))) eqn:B2; [lia|].
  destruct ((pos >=? time_start mix) && (pos <? time_end mix)) eqn:B3; [lia|done].
Qed.

Lemma stitch_fades_handoff mix_prev mix :
  0 <= time_end mix_prev ->
  (0 <= time_post mix_prev -> time_end mix_prev <= time_post mix_prev) ->
  time_post mix_prev < 0 \/ time_pre mix < 0 ->
  time_end mix_prev <= time_start mix ->
  (0 <= time_post mix_prev -> time_post mix_prev <= time_start mix) ->
  (0 <= time_pre mix -> time_end mix_prev <= time_pre mix) ->
  let '(p', m') := stitch_fades mix_prev mix in
  time_post p' = time_pre m'
  /\ time_end mix_prev <= time_pre m' <= time_start mix
  /\ (time_post mix_prev < 0 -> time_pre m' = time_end mix_prev)
  /\ (0 <= time_post mix_prev -> time_pre m' = time_post mix_prev).
Proof.
  destruct mix_prev as [c1 d1 s1 v1 a1 b1 h1 pre1 st1 en1 po1].
  destruct mix as [c2 d2 s2 v2 a2 b2 h2 pre2 st2 en2 po2].
  unfold stitch_fades. simpl. intros He Hwf Hopen Hord Hpo Hpr.
  repeat match goal with
         | |- context [?a <? ?b] => destruct (a <? b) eqn:?; simpl
         | |- context [?a >=? ?b] => destruct (a >=? b) eqn:?; simpl
         | |- context [?a >? ?b] => destruct (a >? b) eqn:?; simpl
         end;
    repeat split; lia.
Qed.

(** X8: when a Fade is accepted after an earlier fade on the same channel
    selector, one of the two facing boundaries is open and the fades are in
    order, the builder closes the open boundaries on a common point between
    the old fade's end and the new fade's start (the old [time_end] when
    the old [time_post] was open); from then on no position gets a gain
    from both fades. *)
Theorem stitched_fades_never_overlap vgmstream data d vs ve sh t0 t1 t2 t3
        (i : nat) mix_prev :
  vgmstream_mixing vgmstream = Some data ->
  mixing_on data = false ->
  mixing_count data < mixing_size data ->
  get_last_fade data d = Some i ->
  mixing_chain data !! i = Some mix_prev ->
  fade_wf mix_prev -> 0 <= time_start mix_prev ->
  d < output_channels data ->
  t0 <= t1 <= t2 -> (0 <= t3 -> t2 <= t3) -> 0 <= t1 ->
  time_post mix_prev < 0 \/ t0 < 0 ->
  time_end mix_prev <= t1 ->
  (0 <= time_post mix_prev -> time_post mix_prev <= t1) ->
  (0 <= t0 -> time_end mix_prev <= t0) ->
  exists p' m',
    chain_of (mixing_push_fade vgmstream d vs ve sh t0 t1 t2 t3)
    = <[i := p']> (mixing_chain data) ++ [m']
    /\ time_post p' = time_pre m'
    /\ time_end mix_prev <= time_pre m' <= t1
    /\ (time_post mix_prev < 0 -> time_pre m' = time_end mix_prev)
    /\ forall pos, get_fade_gain p' pos = None \/ get_fade_gain m' pos = None.
Proof.
  intros E On Room L Ei Hwf Hst Hd Hord Hpost Ht1 Hopen Ho1 Ho2 Ho3.
  unfold mixing_push_fade. rewrite E.
  assert ((d >=? output_channels data) = false) as -> by lia.
  assert ((t0 >? t1) = false) as -> by lia.
  assert ((t1 >? t2) = false) as -> by lia.
  assert ((t3 >=? 0) && (t2 >? t3) = false) as ->
    by (destruct (t3 >=? 0) eqn:G3; simpl; lia).
  assert ((t1 <? 0) = false) as -> by lia.
  assert ((t2 <? 0) = false) as -> by lia.
  cbn [orb].
  rewrite L, Ei.
  match goal with
  | |- context [MixCommand MIX_FADE d ?a ?b ?c ?e ?s t0 t1 t2 t3] =>
      set (mix := MixCommand MIX_FADE d a b c e s t0 t1 t2 t3)
  end.
  assert (fade_wf mix) as Hmwf by (unfold fade_wf; simpl; lia).
  destruct Hwf as [[Hp1 Hp2] Hp3].
  pose proof (stitch_fades_handoff mix_prev mix ltac:(lia) Hp3 Hopen Ho1 Ho2 Ho3) as Hh.
  pose proof (stitch_fades_ok mix_prev mix ltac:(done) Hst Hmwf Ht1) as Hk.
  destruct (stitch_fades mix_prev mix) as [p' m'].
  destruct Hh as (Hh1 & Hh2 & Hh3 & Hh4).
  destruct Hk as ((Hpw & _ & _) & (Hmw & _ & _)).
  exists p', m'.
  rewrite (add_mixing_accepted _ (set_mixing_chain (<[i:=p']> (mixing_chain data)) data))
    by (try done; unfold mixing_count in *; simpl; by rewrite length_insert).
  cbn [snd]. rewrite chain_of_set_chain. simpl in Hh2.
  repeat split; try done; try lia.
  intros pos. destruct (Z_lt_ge_dec pos (time_pre m')) as [Hlt|Hge].
  - right. apply get_fade_gain_none_outside; [done|]. left. lia.
  - left. apply get_fade_gain_none_outside; [done|]. right. lia.
Qed.

(** ** Every output frame is the chain run on the same input frame *)

Lemma scale_lane_length v b ch : length (scale_lane v b ch) = length b.
Proof. apply set_lane_length. Qed.

Lemma limit_lane_length hi lo b ch : length (limit_lane hi lo b ch) = length b.
Proof. unfold limit_lane. repeat case_match; try done; apply set_lane_length. Qed.

Lemma fold_left_length {A} (g : list spec_float -> A -> list spec_float) l :
  (forall b x, length (g b x) = length b) ->
  forall b, length (fold_left g l b) = length b.
Proof.
  intros Hg. induction l as [|x l IH]; intros b; [done|].
  simpl. by rewrite IH.
Qed.

Lemma mix_step_length pos mix a w :
  length (fst (mix_step pos (a, w) mix)) = length a.
Proof.
  unfold mix_step.
  destruct (command mix); simpl.
  - by rewrite !set_lane_length.
  - by rewrite set_lane_length.
  - destruct (ch_dst mix <? 0); simpl;
      [apply fold_left_length; intros; apply scale_lane_length
      |apply scale_lane_length].
  - destruct (ch_dst mix <? 0); simpl;
      [apply fold_left_length; intros; apply limit_lane_length
      |apply limit_lane_length].
  - rewrite set_lane_length. apply fold_left_length.
    intros. apply set_lane_length.
  - apply fold_left_length. intros. apply set_lane_length.
  - done.
  - destruct (get_fade_gain mix pos); [|done].
    destruct (ch_dst mix <? 0); simpl;
      [apply fold_left_length; intros; apply scale_lane_length
      |apply scale_lane_length].
Qed.

Lemma mix_row_length pos chain : forall a w,
  length (fst (mix_row pos chain (a, w))) = length a.
Proof.
  unfold mix_row. induction chain as [|m chain IH]; intros a w; [done|].
  cbn [fold_left].
  pose proof (mix_step_length pos m a w) as Hl.
  destruct (mix_step pos (a, w) m) as [a' w']. simpl in Hl.
  by rewrite IH.
Qed.

Lemma lanes_agree_weaken w w' a b :
  w' <= w -> lanes_agree w a b -> lanes_agree w' a b.
Proof. intros Hw H c Hc. apply H. lia. Qed.

Lemma lanes_agree_set_lane w a b ch v v' :
  lanes_agree w a b ->
  (0 <= ch < w -> v = v') ->
  ch < Z.of_nat (length a) -> ch < Z.of_nat (length b) ->
  lanes_agree w (set_lane ch v a) (set_lane ch v' b).
Proof.
  intros Hab Hv Ha Hb c Hc.
  destruct (decide (ch = c)) as [->|Hne].
  - rewrite !lane_set_lane_eq by lia. apply Hv. lia.
  - rewrite !lane_set_lane_ne by done. by apply Hab.
Qed.

Lemma lanes_agree_extend w a b v :
  0 <= w ->
  lanes_agree w a b ->
  w < Z.of_nat (length a) -> w < Z.of_nat (length b) ->
  lanes_agree (w + 1) (set_lane w v a) (set_lane w v b).
Proof.
  intros Hw Hab Ha Hb c Hc.
  destruct (decide (w = c)) as [->|Hne].
  - by rewrite !lane_set_lane_eq by lia.
  - rewrite !lane_set_lane_ne by done. apply Hab. lia.
Qed.

Lemma lanes_agree_scale w a b v ch :
  lanes_agree w a b ->
  ch < w -> w <= Z.of_nat (length a) -> w <= Z.of_nat (length b) ->
  lanes_agree w (scale_lane v a ch) (scale_lane v b ch).
Proof.
  intros Hab Hch Ha Hb. unfold scale_lane.
  apply lanes_agree_set_lane; try done; try lia.
  intros Hc. by rewrite Hab.
Qed.

Lemma lanes_agree_limit w a b hi lo ch :
  lanes_agree w a b ->
  ch < w -> w <= Z.of_nat (length a) -> w <= Z.of_nat (length b) ->
  lanes_agree w (limit_lane hi lo a ch) (limit_lane hi lo b ch).
Proof.
  intros Hab Hch Ha Hb. unfold limit_lane.
  destruct (Z_lt_ge_dec ch 0) as [Hneg|Hpos].
  - unfold set_lane. assert ((ch <? 0) = true) as -> by lia.
    by repeat case_match.
  - rewrite (Hab ch) by lia.
    repeat case_match; try done; apply lanes_agree_set_lane; try done; lia.
Qed.

(** A loop over lanes that keeps the agreement at every step keeps it. *)
Lemma lanes_agree_fold w (g : list spec_float -> Z -> list spec_float) l :
  (forall b x, length (g b x) = length b) ->
  forall a b,
    (forall a b x, x ∈ l -> length a = length a -> lanes_agree w a b ->
                   w <= Z.of_nat (length a) -> w <= Z.of_nat (length b) ->
                   lanes_agree w (g a x) (g b x)) ->
    lanes_agree w a b ->
    w <= Z.of_nat (length a) -> w <= Z.of_nat (length b) ->
    lanes_agree w (fold_left g l a) (fold_left g l b).
Proof.
  intros Hlen. induction l as [|x l IH]; intros a b Hg Hab Ha Hb; [done|].
  simpl. apply IH.
  - intros a' b' y Hy. apply Hg. by right.
  - apply Hg; try done. by left.
  - by rewrite Hlen.
  - by rewrite Hlen.
Qed.

Lemma mix_step_agree pos mix w peak a b :
  0 <= w -> command_valid w mix -> width_after w mix <= peak -> w <= peak ->
  peak <= Z.of_nat (length a) -> peak <= Z.of_nat (length b) ->
  lanes_agree w a b ->
  lanes_agree (width_after w mix)
              (fst (mix_step pos (a, w) mix)) (fst (mix_step pos (b, w) mix)).
Proof.
  intros Hw Hv Hpk Hwp Ha Hb Hab.
  unfold mix_step, command_valid, width_after in *.
  destruct (command mix) eqn:Cmd; simpl.
  - (* swap *)
    destruct Hv as (Hd & Hs & Hne).
    apply lanes_agree_set_lane; rewrite ?set_lane_length; try lia.
    + apply lanes_agree_set_lane; try done; try lia.
      intros _. apply Hab. lia.
    + intros _. apply Hab. lia.
  - (* add *)
    destruct Hv as (Hd & Hs).
    apply lanes_agree_set_lane; try done; try lia.
    intros _. by rewrite !Hab by lia.
  - (* volume *)
    destruct (ch_dst mix <? 0) eqn:All; simpl.
    + apply lanes_agree_fold; try done; try lia.
      * intros. apply scale_lane_length.
      * intros a' b' x Hx _ Hab' Ha' Hb'. apply elem_of_seqZ in Hx.
        apply lanes_agree_scale; try done; lia.
    + apply lanes_agree_scale; try done; lia.
  - (* limit *)
    destruct (ch_dst mix <? 0) eqn:All; simpl.
    + apply lanes_agree_fold; try done; try lia.
      * intros. apply limit_lane_length.
      * intros a' b' x Hx _ Hab' Ha' Hb'. apply elem_of_seqZ in Hx.
        apply lanes_agree_limit; try done; lia.
    + apply lanes_agree_limit; try done; lia.
  - (* upmix *)
    replace (w + 1 - 1 - ch_dst mix) with (w - ch_dst mix) by lia.
    set (d := ch_dst mix) in *.
    set (shift := fun (b : list spec_float) ch => set_lane ch (lane b (ch - 1)) b).
    assert (forall l r, length (fold_left shift l r) = length r) as Hlen.
    { intros l r. apply fold_left_length. intros. apply set_lane_length. }
    assert (lanes_agree (w + 1)
              (fold_left shift (reverse (seqZ (d + 1) (w - d))) a)
              (fold_left shift (reverse (seqZ (d + 1) (w - d))) b)
            \/ d = w /\ reverse (seqZ (d + 1) (w - d)) = []) as [Hs|[-> Hnil]].
    { destruct (decide (d = w)) as [->|Hne].
      - right. split; [done|]. by rewrite Z.sub_diag.
      - left. replace (w - d) with (Z.of_nat (S (Z.to_nat (w - d - 1)))) by lia.
        rewrite seqZ_S, reverse_app. simpl.
        replace (d + 1 + Z.of_nat (Z.to_nat (w - d - 1))) with w by lia.
        apply lanes_agree_fold.
        + intros. apply set_lane_length.
        + intros a' b' x Hx _ Hab' Ha' Hb'.
          apply elem_of_reverse, elem_of_seqZ in Hx.
          apply lanes_agree_set_lane; try done; try lia.
          intros _. apply Hab'. lia.
        + unfold shift. rewrite (Hab (w - 1)) by lia.
          apply lanes_agree_extend; try done; lia.
        + unfold shift. rewrite set_lane_length. lia.
        + unfold shift. rewrite set_lane_length. lia. }
    + apply lanes_agree_set_lane; rewrite ?Hlen; try done; lia.
    + rewrite Hnil. simpl. apply lanes_agree_extend; try done; lia.
  - (* downmix *)
    destruct Hv as (Hd & Hw2).
    apply lanes_agree_weaken with w; [lia|].
    apply lanes_agree_fold; try done; try lia.
    + intros. apply set_lane_length.
    + intros a' b' x Hx _ Hab' Ha' Hb'. apply elem_of_seqZ in Hx.
      apply lanes_agree_set_lane; try done; try lia.
      intros _. apply Hab'. lia.
  - (* killmix *)
    apply lanes_agree_weaken with w; [lia|done].
  - (* fade *)
    destruct (get_fade_gain mix pos) as [g|]; [|done].
    destruct (ch_dst mix <? 0) eqn:All; simpl.
    + apply lanes_agree_fold; try done; try lia.
      * intros. apply scale_lane_length.
      * intros a' b' x Hx _ Hab' Ha' Hb'. apply elem_of_seqZ in Hx.
        apply lanes_agree_scale; try done; lia.
    + apply lanes_agree_scale; try done; lia.
Qed.

Lemma command_valid_width w mix :
  0 <= w -> command_valid w mix -> 0 <= width_after w mix.
Proof.
  unfold command_valid, width_after. destruct (command mix); lia.
Qed.

Lemma chain_valid_width chain : forall w peak,
  0 <= w -> chain_valid w peak chain -> 0 <= chain_width w chain.
Proof.
  unfold chain_width.
  induction chain as [|m chain IH]; intros w peak Hw; simpl; [done|].
  intros (Hv & _ & Hrest). eapply IH; [|done]. by apply command_valid_width.
Qed.

Lemma mix_row_agree pos peak chain : forall w a b,
  0 <= w <= peak -> chain_valid w peak chain ->
  peak <= Z.of_nat (length a) -> peak <= Z.of_nat (length b) ->
  lanes_agree w a b ->
  lanes_agree (chain_width w chain)
              (fst (mix_row pos chain (a, w))) (fst (mix_row pos chain (b, w))).
Proof.
  unfold mix_row, chain_width.
  induction chain as [|m chain IH]; intros w a b Hw Hv Ha Hb Hab; [done|].
  cbn [fold_left]. destruct Hv as (Hv & Hpk & Hrest).
  pose proof (mix_step_agree pos m w peak a b ltac:(lia) Hv Hpk ltac:(lia) Ha Hb Hab)
    as Hstep.
  pose proof (mix_step_length pos m a w) as La.
  pose proof (mix_step_length pos m b w) as Lb.
  pose proof (mix_step_width pos a w m) as Wa.
  pose proof (mix_step_width pos b w m) as Wb.
  destruct (mix_step pos (a, w) m) as [a' wa].
  destruct (mix_step pos (b, w) m) as [b' wb].
  cbn [fst snd] in *. subst wa wb.
  apply IH; [split; [apply command_valid_width; [lia|done]|done]|done|lia|lia|done].
Qed.

Lemma copy_back_lookup buf (m : Z) outbuf i :
  0 <= i < m -> i < Z.of_nat (length outbuf) ->
  fold_left (copy_back buf) (seqZ 0 m) outbuf !! Z.to_nat i
  = Some (clamp16 (trunc_to_int32 (lane buf i))).
Proof.
  intros Hi Hlen.
  set (Inv := fun (k : Z) (out : list Z) =>
                length out = length outbuf
                /\ forall j, 0 <= j < k -> j < Z.of_nat (length outbuf) ->
                     out !! Z.to_nat j = Some (clamp16 (trunc_to_int32 (lane buf j)))).
  assert (Inv m (fold_left (copy_back buf) (seqZ 0 m) outbuf)) as [_ H].
  { apply fold_left_seqZ_inv; [lia| |].
    - split; [done|]. intros; lia.
    - intros k out Hk [Hl Hprev]. unfold copy_back. split.
      + by rewrite length_insert.
      + intros j Hj Hjl. destruct (decide (j = k)) as [->|Hne].
        * rewrite list_lookup_insert_eq; [done|lia].
        * rewrite list_lookup_insert_ne by lia. apply Hprev; lia. }
  by apply H.
Qed.

Lemma lane_frame_in outbuf ch s c :
  0 <= s -> 0 <= c < ch -> (s + 1) * ch <= Z.of_nat (length outbuf) ->
  lane (frame_in outbuf ch s) c
  = F32.of_Z (default 0 (outbuf !! Z.to_nat (s * ch + c))).
Proof.
  intros Hs Hc Hlen. unfold lane, frame_in.
  assert ((c <? 0) = false) as -> by lia.
  rewrite list_lookup_fmap, lookup_take_lt, lookup_drop by lia.
  replace (Z.to_nat (s * ch) + Z.to_nat c)%nat with (Z.to_nat (s * ch + c)) by nia.
  destruct (lookup_lt_is_Some_2 outbuf (Z.to_nat (s * ch + c))) as [x ->]; [nia|].
  done.
Qed.

Lemma frame_in_length outbuf ch s :
  0 <= s -> 0 <= ch -> (s + 1) * ch <= Z.of_nat (length outbuf) ->
  Z.of_nat (length (frame_in outbuf ch s)) = ch.
Proof.
  intros Hs Hch Hlen. unfold frame_in.
  rewrite length_fmap, length_take, length_drop. nia.
Qed.

(** The sample loop and the copy-back loop, for a chain that is valid for
    the stream's channels. *)
Lemma mix_pass_frames outbuf n vgmstream data pos s c :
  0 <= channels vgmstream <= mixing_channels data ->
  chain_valid (channels vgmstream) (mixing_channels data) (mixing_chain data) ->
  chain_width (channels vgmstream) (mixing_chain data) = output_channels data ->
  n * mixing_channels data <= Z.of_nat (length (mixbuf data)) ->
  n * Z.max (channels vgmstream) (output_channels data)
  <= Z.of_nat (length outbuf) ->
  0 <= s < n -> 0 <= c < output_channels data ->
  fst (mix_pass outbuf n vgmstream data pos)
      !! Z.to_nat (s * output_channels data + c)
  = Some (clamp16 (trunc_to_int32
            (lane (frame_out (pos + s) (mixing_chain data)
                             (channels vgmstream) (mixing_channels data)
                             (frame_in outbuf (channels vgmstream) s))
                  c))).
Proof.
  intros Hch Hv Hw Hbuf Hout Hs Hc.
  unfold mix_pass.
  set (ch := channels vgmstream) in *.
  set (oc := output_channels data) in *.
  set (mc := mixing_channels data) in *.
  assert (oc <= mc) as Hocmc.
  { rewrite <- Hw. apply chain_width_le_peak; [lia|done]. }
  set (R := fun q => frame_out (pos + q) (mixing_chain data) ch mc (frame_in outbuf ch q)).
  set (Inv := fun (k : Z) (st : list spec_float * Z * Z) =>
                let '(buf, moff, ooff) := st in
                moff = k * oc /\ ooff = k * ch
                /\ length buf = length (mixbuf data)
                /\ forall q j, 0 <= q < k -> 0 <= j < oc ->
                               lane buf (q * oc + j) = lane (R q) j).
  assert (Inv n (fold_left (mix_sample vgmstream (mixing_chain data) outbuf pos)
                           (seqZ 0 n) (mixbuf data, 0, 0))) as HInv.
  { apply fold_left_seqZ_inv; [lia| |].
    - unfold Inv. repeat split; try lia.
    - intros k [[buf moff] ooff] Hk (Hm & Ho & Hlen & Hl). subst moff ooff.
      unfold mix_sample. fold ch.
      assert (0 <= k * oc) by nia.
      assert (0 <= k * ch) by nia.
      assert (k * oc + mc <= n * mc) by nia.
      assert ((k + 1) * ch <= Z.of_nat (length outbuf)) by nia.
      set (row := copy_lanes (drop (Z.to_nat (k * ch)) outbuf) ch
                             (drop (Z.to_nat (k * oc)) buf)).
      assert (Z.of_nat (length row) = Z.of_nat (length buf) - k * oc) as Lrow.
      { unfold row. rewrite copy_lanes_length, length_drop. lia. }
      set (clean := frame_in outbuf ch k ++ replicate (Z.to_nat (mc - ch)) F32.zero).
      assert (Z.of_nat (length clean) = mc) as Lclean.
      { unfold clean. rewrite length_app, length_replicate, Nat2Z.inj_add.
        rewrite frame_in_length by lia. lia. }
      assert (lanes_agree ch row clean) as Hagree.
      { intros j Hj. unfold row, clean.
        rewrite copy_lanes_lane; [|lia|rewrite length_drop; lia].
        rewrite lane_app_l by (rewrite frame_in_length; lia).
        rewrite lane_frame_in by lia.
        rewrite lookup_drop. do 3 f_equal. nia. }
      pose proof (mix_row_agree (pos + k) mc (mixing_chain data) ch row clean
                    ltac:(lia) Hv ltac:(lia) ltac:(lia) Hagree) as Hres.
      rewrite Hw in Hres.
      pose proof (mix_row_width (pos + k) (mixing_chain data) row ch) as Wrow.
      pose proof (mix_row_length (pos + k) (mixing_chain data) row ch) as Lres.
      destruct (mix_row (pos + k) (mixing_chain data) (row, ch)) as [row' w'].
      simpl in Wrow, Lres, Hres. rewrite Hw in Wrow. subst w'.
      assert (length (take (Z.to_nat (k * oc)) buf) = Z.to_nat (k * oc)) as Lt
          by (rewrite length_take; lia).
      unfold Inv. repeat split; try lia.
      + rewrite length_app, Lt. lia.
      + intros q j Hq Hj. destruct (decide (q = k)) as [->|Hne].
        * rewrite lane_app_r by (rewrite Lt; lia). rewrite Lt.
          replace (k * oc + j - Z.of_nat (Z.to_nat (k * oc))) with j by lia.
          rewrite Hres by done. done.
        * rewrite lane_app_l by (rewrite Lt; nia).
          rewrite lane_take by nia. apply Hl; lia. }
  destruct (fold_left _ (seqZ 0 n) _) as [[buf moff] ooff].
  destruct HInv as (_ & _ & Hlen & Hl). cbn [fst].
  rewrite copy_back_lookup by nia.
  by rewrite Hl by lia.
Qed.

Lemma is_active_count data cs ce :
  is_active data cs ce = true -> (mixing_count data =? 0) = false.
Proof.
  unfold is_active, mixing_count.
  destruct (mixing_chain data); [done|]. simpl. lia.
Qed.

(** X9: in a pass that runs, with a chain that is valid for the stream's
    channels and buffers as large as activation makes them, sample [c] of
    output frame [s] is the clamped, truncated lane [c] of the chain run at
    position [current_pos + s] on input frame [s] alone: what an earlier
    step or an earlier call left in the working buffer never reaches the
    output. *)
Theorem mix_vgmstream_frames outbuf sample_count vgmstream data s c :
  vgmstream_mixing vgmstream = Some data ->
  mixing_on data = true ->
  is_active data (get_current_pos vgmstream)
            (get_current_pos vgmstream + sample_count) = true ->
  0 <= channels vgmstream <= mixing_channels data ->
  chain_valid (channels vgmstream) (mixing_channels data) (mixing_chain data) ->
  chain_width (channels vgmstream) (mixing_chain data) = output_channels data ->
  sample_count * mixing_channels data <= Z.of_nat (length (mixbuf data)) ->
  sample_count * Z.max (channels vgmstream) (output_channels data)
  <= Z.of_nat (length outbuf) ->
  0 <= s < sample_count -> 0 <= c < output_channels data ->
  fst (mix_vgmstream outbuf sample_count vgmstream)
      !! Z.to_nat (s * output_channels data + c)
  = Some (clamp16 (trunc_to_int32
            (lane (frame_out (get_current_pos vgmstream + s) (mixing_chain data)
                             (channels vgmstream) (mixing_channels data)
                             (frame_in outbuf (channels vgmstream) s))
                  c))).
Proof.
  intros E On Act Hch Hv Hw Hbuf Hout Hs Hc.
  unfold mix_vgmstream. rewrite E, On, Act, (is_active_count _ _ _ Act).
  simpl. by apply mix_pass_frames.
Qed.

(** X10: the same holds for every chain the configuration calls build:
    after [mixing_init], any sequence of calls and activation for
    [max_sample_count] samples, a pass of up to that many samples that runs
    gives, whatever the play position and whatever the working buffer held
    before, the chain run on each input frame alone. *)
Theorem built_stream_frames vgmstream cs vg1 max_sample_count data
        vgp buf outbuf sample_count s c :
  0 <= channels vgmstream ->
  run_calls (mixing_init vgmstream) cs = Some vg1 ->
  vgmstream_mixing (mixing_setup true vg1 max_sample_count) = Some data ->
  0 < sample_count <= max_sample_count ->
  channels vgp = channels vgmstream ->
  vgmstream_mixing vgp = Some (set_mixbuf buf data) ->
  length buf = length (mixbuf data) ->
  is_active data (get_current_pos vgp) (get_current_pos vgp + sample_count) = true ->
  sample_count * Z.max (channels vgmstream) (output_channels data)
  <= Z.of_nat (length outbuf) ->
  0 <= s < sample_count -> 0 <= c < output_channels data ->
  fst (mix_vgmstream outbuf sample_count vgp)
      !! Z.to_nat (s * output_channels data + c)
  = Some (clamp16 (trunc_to_int32
            (lane (frame_out (get_current_pos vgp + s) (mixing_chain data)
                             (channels vgmstream) (mixing_channels data)
                             (frame_in outbuf (channels vgmstream) s))
                  c))).
Proof.
  intros Hch Hrun Hset Hn Hchp Ep Hlen Act Hout Hs Hc.
  pose proof (run_calls_shape cs _ _ (mixing_init_shape vgmstream) Hrun) as Hok.
  pose proof (run_calls_channels cs _ _ Hrun) as Hch1. simpl in Hch1.
  unfold chain_shape_ok in Hok. unfold mixing_setup in Hset.
  destruct (vgmstream_mixing vg1) as [d1|] eqn:E1; [|done].
  destruct Hok as (Hle & Hv & Hw). rewrite Hch1 in Hle, Hv, Hw.
  assert ((max_sample_count <=? 0) = false) as Hmax by lia.
  rewrite Hmax in Hset. cbn [negb] in Hset.
  assert (mixing_on data = true
          /\ mixing_chain data = mixing_chain d1
          /\ output_channels data = output_channels d1
          /\ mixing_channels data = mixing_channels d1
          /\ length (mixbuf data)
             = Z.to_nat (max_sample_count * mixing_channels d1))
    as (On & Hcd & Hod & Hmd & Hld).
  { destruct (negb (channel_layout vg1 =? 0)
              && negb (channels vg1 =? output_channels d1));
      simpl in Hset; simplify_eq; repeat split; apply length_resize. }
  pose proof (mix_pass_frames outbuf sample_count vgp (set_mixbuf buf data)
                              (get_current_pos vgp) s c) as HF.
  cbn [set_mixbuf mixing_chain output_channels mixing_channels mixbuf] in HF.
  rewrite Hchp in HF.
  unfold mix_vgmstream. rewrite Ep.
  change (mixing_on (set_mixbuf buf data)) with (mixing_on data).
  change (mixing_count (set_mixbuf buf data)) with (mixing_count data).
  change (is_active (set_mixbuf buf data) (get_current_pos vgp)
                    (get_current_pos vgp + sample_count))
    with (is_active data (get_current_pos vgp) (get_current_pos vgp + sample_count)).
  rewrite On, Act, (is_active_count _ _ _ Act). cbn [negb orb].
  apply HF; rewrite ?Hcd, ?Hod, ?Hmd; try done; try lia.
  rewrite Hlen, Hld. assert (0 <= mixing_channels d1) by lia. nia.
Qed.

(** ** The track macro *)


Lemma kept_channels_nonneg mask n : 0 <= kept_channels mask n.
Proof. unfold kept_channels. lia. Qed.





(** ** Upmix and Downmix as lane insertion and removal *)

Ltac bool_cases :=
  repeat match goal with
         | H : andb _ _ = true |- _ => apply andb_true_iff in H as [? ?]
         | H : orb _ _ = false |- _ => apply orb_false_iff in H as [? ?]
         | H : andb _ _ = false |- _ => apply andb_false_iff in H as [?|?]
         | H : orb _ _ = true |- _ => apply orb_true_iff in H as [?|?]
         | H : (_ <=? _) = true |- _ => apply Z.leb_le in H
         | H : (_ <=? _) = false |- _ => apply Z.leb_gt in H
         | H : (_ <? _) = true |- _ => apply Z.ltb_lt in H
         | H : (_ <? _) = false |- _ => apply Z.ltb_ge in H
         | H : (_ =? _) = true |- _ => apply Z.eqb_eq in H
         | H : (_ =? _) = false |- _ => apply Z.eqb_neq in H
         end.

Ltac bool_lia :=
  repeat match goal with
         | |- context [?a <? ?b] => destruct (a <? b) eqn:?
         | |- context [?a <=? ?b] => destruct (a <=? b) eqn:?
         | |- context [?a =? ?b] => destruct (a =? b) eqn:?
         end;
  bool_cases; cbn [andb orb negb];
  first [done | congruence | lia | exfalso; lia].

Lemma shift_up_lanes d (m : nat) : forall a,
  0 <= d -> d + Z.of_nat m < Z.of_nat (length a) ->
  let r := fold_left (fun b ch => set_lane ch (lane b (ch - 1)) b)
                     (reverse (seqZ (d + 1) (Z.of_nat m))) a in
  length r = length a
  /\ forall j, lane r j = if (d + 1 <=? j) && (j <=? d + Z.of_nat m)
                          then lane a (j - 1) else lane a j.
Proof.
  induction m as [|m IH]; intros a Hd Hlen.
  { change (seqZ (d + 1) (Z.of_nat 0)) with (@nil Z).
    split; [done|]. intros j. cbn [reverse rev_append fold_left].
    destruct ((d + 1 <=? j) && (j <=? d + Z.of_nat 0)) eqn:C; [bool_lia|done]. }
  rewrite seqZ_S, reverse_app. cbn [reverse rev_append app fold_left].
  set (a1 := set_lane (d + 1 + Z.of_nat m) (lane a (d + 1 + Z.of_nat m - 1)) a).
  destruct (IH a1 Hd) as [Hl Hj].
  { unfold a1. rewrite set_lane_length. lia. }
  split; [by rewrite Hl; apply set_lane_length|].
  intros j. rewrite Hj.
  destruct ((d + 1 <=? j) && (j <=? d + Z.of_nat m)) eqn:C1.
  - assert ((d + 1 <=? j) && (j <=? d + Z.of_nat (S m)) = true) as -> by bool_lia.
    unfold a1. apply lane_set_lane_ne. lia.
  - destruct (decide (j = d + 1 + Z.of_nat m)) as [->|Hne].
    + assert ((d + 1 <=? d + 1 + Z.of_nat m)
              && (d + 1 + Z.of_nat m <=? d + Z.of_nat (S m)) = true) as -> by bool_lia.
      unfold a1. apply lane_set_lane_eq. lia.
    + assert ((d + 1 <=? j) && (j <=? d + Z.of_nat (S m)) = false) as -> by bool_lia.
      unfold a1. apply lane_set_lane_ne. lia.
Qed.

Lemma shift_down_lanes (m : nat) : forall d a,
  0 <= d -> d + Z.of_nat m <= Z.of_nat (length a) ->
  let r := fold_left (fun b ch => set_lane ch (lane b (ch + 1)) b)
                     (seqZ d (Z.of_nat m)) a in
  length r = length a
  /\ forall j, lane r j = if (d <=? j) && (j <? d + Z.of_nat m)
                          then lane a (j + 1) else lane a j.
Proof.
  induction m as [|m IH]; intros d a Hd Hlen.
  { change (seqZ d (Z.of_nat 0)) with (@nil Z).
    split; [done|]. intros j. cbn [fold_left].
    destruct ((d <=? j) && (j <? d + Z.of_nat 0)) eqn:C; [bool_lia|done]. }
  rewrite seqZ_cons by lia. cbn [fold_left].
  replace (Z.pred (Z.of_nat (S m))) with (Z.of_nat m) by lia.
  replace (Z.succ d) with (d + 1) by lia.
  set (a1 := set_lane d (lane a (d + 1)) a).
  destruct (IH (d + 1) a1 ltac:(lia)) as [Hl Hj].
  { unfold a1. rewrite set_lane_length. lia. }
  split; [by rewrite Hl; apply set_lane_length|].
  intros j. rewrite Hj.
  destruct ((d + 1 <=? j) && (j <? d + 1 + Z.of_nat m)) eqn:C1.
  - assert ((d <=? j) && (j <? d + Z.of_nat (S m)) = true) as -> by bool_lia.
    unfold a1. apply lane_set_lane_ne. lia.
  - destruct (decide (j = d)) as [->|Hne].
    + assert ((d <=? d) && (d <? d + Z.of_nat (S m)) = true) as -> by bool_lia.
      unfold a1. apply lane_set_lane_eq. lia.
    + assert ((d <=? j) && (j <? d + Z.of_nat (S m)) = false) as -> by bool_lia.
      unfold a1. apply lane_set_lane_ne. lia.
Qed.

Lemma upmix_step_lanes pos mix a w j :
  command mix = MIX_UPMIX ->
  0 <= ch_dst mix <= w -> w < Z.of_nat (length a) ->
  lane (fst (mix_step pos (a, w) mix)) j
  = if j =? ch_dst mix then F32.zero
    else if (ch_dst mix <? j) && (j <=? w) then lane a (j - 1)
    else lane a j.
Proof.
  intros Cmd Hd Hlen. unfold mix_step. rewrite Cmd. cbn [fst].
  replace (w + 1 - 1 - ch_dst mix) with (Z.of_nat (Z.to_nat (w - ch_dst mix))) by lia.
  destruct (shift_up_lanes (ch_dst mix) (Z.to_nat (w - ch_dst mix)) a) as [Hl Hj];
    [lia|lia|].
  destruct (j =? ch_dst mix) eqn:Cj.
  - assert (j = ch_dst mix) as -> by lia.
    apply lane_set_lane_eq. rewrite Hl. lia.
  - rewrite lane_set_lane_ne by lia. rewrite Hj.
    destruct ((ch_dst mix <? j) && (j <=? w)) eqn:C.
    + assert ((ch_dst mix + 1 <=? j)
              && (j <=? ch_dst mix + Z.of_nat (Z.to_nat (w - ch_dst mix))) = true)
        as -> by bool_lia.
      done.
    + assert ((ch_dst mix + 1 <=? j)
              && (j <=? ch_dst mix + Z.of_nat (Z.to_nat (w - ch_dst mix))) = false)
        as -> by bool_lia.
      done.
Qed.

Lemma downmix_step_lanes pos mix a w j :
  command mix = MIX_DOWNMIX ->
  0 <= ch_dst mix < w -> w <= Z.of_nat (length a) ->
  lane (fst (mix_step pos (a, w) mix)) j
  = if (ch_dst mix <=? j) && (j <? w - 1) then lane a (j + 1) else lane a j.
Proof.
  intros Cmd Hd Hlen. unfold mix_step. rewrite Cmd. cbn [fst].
  replace (w - 1 - ch_dst mix)
    with (Z.of_nat (Z.to_nat (w - 1 - ch_dst mix))) by lia.
  destruct (shift_down_lanes (Z.to_nat (w - 1 - ch_dst mix)) (ch_dst mix) a)
    as [_ Hj]; [lia|lia|].
  rewrite Hj.
  destruct ((ch_dst mix <=? j) && (j <? w - 1)) eqn:C.
  - assert ((ch_dst mix <=? j)
            && (j <? ch_dst mix + Z.of_nat (Z.to_nat (w - 1 - ch_dst mix))) = true)
      as -> by bool_lia.
    done.
  - assert ((ch_dst mix <=? j)
            && (j <? ch_dst mix + Z.of_nat (Z.to_nat (w - 1 - ch_dst mix))) = false)
      as -> by bool_lia.
    done.
Qed.

(** X12: the Upmix step at lane [d] of a row of [w] channels gives a row
    of [w + 1] channels: the lanes below [d] stay, lane [d] is silent, and
    every lane from [d] on has moved up by one; no lane is lost or
    duplicated by the in-place shift. *)
Theorem upmix_inserts_silent_lane pos mix a w j :
  command mix = MIX_UPMIX ->
  0 <= ch_dst mix <= w -> w < Z.of_nat (length a) ->
  0 <= j <= w ->
  snd (mix_step pos (a, w) mix) = w + 1
  /\ lane (fst (mix_step pos (a, w) mix)) j
     = if j <? ch_dst mix then lane a j
       else if j =? ch_dst mix then F32.zero
       else lane a (j - 1).
Proof.
  intros Cmd Hd Hlen Hj. split.
  { rewrite mix_step_width. unfold width_after. by rewrite Cmd. }
  rewrite upmix_step_lanes by done.
  destruct (j <? ch_dst mix) eqn:C1.
  - assert ((j =? ch_dst mix) = false) as -> by bool_lia.
    assert ((ch_dst mix <? j) && (j <=? w) = false) as -> by bool_lia. done.
  - destruct (j =? ch_dst mix) eqn:C2; [done|].
    assert ((ch_dst mix <? j) && (j <=? w) = true) as -> by bool_lia. done.
Qed.

(** X13: the Downmix step at lane [d] of a row of [w] channels gives a row
    of [w - 1] channels: the lanes below [d] stay and every lane above [d]
    has moved down by one, so exactly lane [d] is gone. *)
Theorem downmix_removes_lane pos mix a w j :
  command mix = MIX_DOWNMIX ->
  0 <= ch_dst mix < w -> w <= Z.of_nat (length a) ->
  0 <= j < w - 1 ->
  snd (mix_step pos (a, w) mix) = w - 1
  /\ lane (fst (mix_step pos (a, w) mix)) j
     = if j <? ch_dst mix then lane a j else lane a (j + 1).
Proof.
  intros Cmd Hd Hlen Hj. split.
  { rewrite mix_step_width. unfold width_after. by rewrite Cmd. }
  rewrite downmix_step_lanes by done.
  destruct (j <? ch_dst mix) eqn:C1.
  - assert ((ch_dst mix <=? j) && (j <? w - 1) = false) as -> by bool_lia. done.
  - assert ((ch_dst mix <=? j) && (j <? w - 1) = true) as -> by bool_lia. done.
Qed.

(** X14: an Upmix at lane [d] followed by a Downmix at the same lane gives
    back the channel count and every one of the row's lanes. *)
Theorem upmix_downmix_round_trip pos up down a w j :
  command up = MIX_UPMIX -> command down = MIX_DOWNMIX ->
  ch_dst down = ch_dst up ->
  0 <= ch_dst up <= w -> w < Z.of_nat (length a) ->
  0 <= j < w ->
  snd (mix_step pos (mix_step pos (a, w) up) down) = w
  /\ lane (fst (mix_step pos (mix_step pos (a, w) up) down)) j = lane a j.
Proof.
  intros Cu Cd Hsame Hd Hlen Hj.
  pose proof (mix_step_width pos a w up) as Wu.
  pose proof (mix_step_length pos up a w) as Lu.
  pose proof (fun j => upmix_step_lanes pos up a w j Cu Hd Hlen) as Hup.
  destruct (mix_step pos (a, w) up) as [a1 w1]. cbn [fst snd] in *.
  unfold width_after in Wu. rewrite Cu in Wu. subst w1.
  split.
  { rewrite mix_step_width. unfold width_after. rewrite Cd. lia. }
  rewrite downmix_step_lanes by (try done; lia).
  rewrite Hsame.
  destruct ((ch_dst up <=? j) && (j <? w + 1 - 1)) eqn:C.
  - rewrite Hup.
    assert ((j + 1 =? ch_dst up) = false) as -> by bool_lia.
    assert ((ch_dst up <? j + 1) && (j + 1 <=? w) = true) as -> by bool_lia.
    f_equal. lia.
  - rewrite Hup.
    assert ((j =? ch_dst up) = false) as -> by bool_lia.
    assert ((ch_dst up <? j) && (j <=? w) = false) as -> by bool_lia.
    done.
Qed.

(** ** The down-mixing macros *)

Lemma add_mixing_open k vgmstream mix :
  config_open k vgmstream -> config_open k (snd (add_mixing vgmstream mix)).
Proof.
  intros Hopen.
  destruct (add_mixing_cases vgmstream mix) as [R|(d & E & On & Room & R)];
    rewrite R; [done|].
  unfold config_open in *. rewrite E in Hopen. simpl.
  destruct Hopen as (_ & Hk & _). repeat split; try done.
  unfold mixing_count in *. simpl. rewrite length_app. simpl. lia.
Qed.

Lemma mixing_push_add_open k vgmstream d s v :
  config_open k vgmstream -> config_open k (mixing_push_add vgmstream d s v).
Proof.
  intros Hopen. unfold mixing_push_add.
  repeat case_match; try done. by apply add_mixing_open.
Qed.

Lemma mixing_push_upmix_open k vgmstream d :
  config_open k vgmstream -> config_open k (mixing_push_upmix vgmstream d).
Proof.
  intros Hopen. unfold mixing_push_upmix.
  destruct (d <? 0); [done|].
  destruct (vgmstream_mixing vgmstream) as [data|] eqn:E; [|done].
  destruct ((d >? output_channels data)
            || (output_channels data + 1 >? VGMSTREAM_MAX_CHANNELS)); [done|].
  destruct (add_mixing_cases vgmstream
              (new_mix MIX_UPMIX d (ch_src mix_zero) (vol mix_zero)))
    as [R|(d' & E' & On & Room & R)]; rewrite R; [done|].
  assert (d' = data) as -> by congruence.
  unfold config_open in *. rewrite E in Hopen. destruct Hopen as (_ & Hk & _).
  unfold with_mixing, mixing_count in *. simpl.
  destruct (mixing_channels data <? output_channels data + 1); simpl;
    rewrite length_app; simpl; repeat split; try done; lia.
Qed.

Lemma mixing_push_fade_open k vgmstream d vs ve sh t0 t1 t2 t3 :
  config_open k vgmstream ->
  config_open k (mixing_push_fade vgmstream d vs ve sh t0 t1 t2 t3).
Proof.
  intros Hopen. unfold mixing_push_fade.
  destruct (vgmstream_mixing vgmstream) as [data|] eqn:E; [|done].
  destruct (d >=? output_channels data); [done|].
  destruct (_ || _ || _); [done|].
  destruct (_ || _); [done|].
  destruct (get_last_fade data d) as [i|]; [|by apply add_mixing_open].
  destruct (mixing_chain data !! i) as [prev|]; [|by apply add_mixing_open].
  destruct (stitch_fades prev _) as [p' m'].
  apply add_mixing_open.
  unfold config_open in *. rewrite E in Hopen. simpl.
  unfold mixing_count in *. simpl. by rewrite length_insert.
Qed.

Lemma set_config_loop_count_open k n vgmstream :
  config_open k vgmstream -> config_open k (set_config_loop_count n vgmstream).
Proof. done. Qed.

Lemma pad_and_loop_open k vgmstream data max :
  config_open k vgmstream ->
  config_open k (fst (fst (pad_and_loop vgmstream data max))).
Proof.
  intros Hopen. unfold pad_and_loop.
  destruct (Z.rem (output_channels data) 2 =? 0); simpl.
  - by destruct (config_loop_count vgmstream <? _).
  - pose proof (mixing_push_upmix_open k vgmstream (output_channels data) Hopen).
    by destruct (config_loop_count _ <? _).
Qed.

Lemma mixing_push_killmix_mixed_down k vgmstream max :
  config_open k vgmstream -> 0 < max < k ->
  mixed_down max (mixing_push_killmix vgmstream max).
Proof.
  intros Hopen Hmax. unfold mixing_push_killmix, config_open, mixed_down in *.
  destruct (vgmstream_mixing vgmstream) as [data|] eqn:E; [|done].
  destruct Hopen as (On & Hk & Hroom).
  assert ((max <=? 0) = false) as -> by lia.
  assert ((max >=? output_channels data) = false) as -> by lia.
  destruct (add_mixing_cases vgmstream
              (new_mix MIX_KILLMIX max (ch_src mix_zero) (vol mix_zero)))
    as [R|(d' & E' & _ & _ & R)]; rewrite R.
  - rewrite E. right.
    unfold add_mixing in R. rewrite E, On in R.
    destruct (mixing_count data + 1 >? mixing_size data) eqn:Full; [lia|].
    discriminate R.
  - unfold with_mixing. simpl. by left.
Qed.

Lemma mix_into_first_mixed_down k vgmstream max n :
  config_open k vgmstream -> 0 < max < k ->
  mixed_down max (mix_into_first vgmstream max n).
Proof.
  intros Hopen Hmax. unfold mix_into_first.
  set (body := fun '(vg, current) ch => _).
  assert (config_open k (fst (fold_left body (seqZ max (n - max)) (vgmstream, 0))))
    as H.
  { apply (fold_left_inv (fun st : VGMSTREAM * Z => config_open k (fst st)));
      [|done].
    intros [vg cur] ch Hvg. simpl in *. by apply mixing_push_add_open. }
  destruct (fold_left body _ _) as [vg cur].
  by apply (mixing_push_killmix_mixed_down k).
Qed.

(** X15: on a stream still being configured, each of the three macros
    that mix groups of channels into the first [max] ones leaves exactly
    [max] output channels whenever it acts and returns; the one exception
    is a chain that has run out of room, which is then full. *)
Theorem mix_down_macros_channels vgmstream data max :
  vgmstream_mixing vgmstream = Some data ->
  mixing_on data = false ->
  mixing_count data <= mixing_size data ->
  0 < max < output_channels data ->
  (forall mask mode vg',
      mixing_macro_layer vgmstream max mask mode = Some vg' -> mixed_down max vg')
  /\ (loop_flag vgmstream = true ->
      mixed_down max (mixing_macro_crosstrack vgmstream max)
      /\ forall mode, mixed_down max (mixing_macro_crosslayer vgmstream max mode)).
Proof.
  intros E On Room Hmax.
  set (k := output_channels data).
  assert (config_open k vgmstream) as Hopen.
  { unfold config_open. rewrite E. repeat split; try done. }
  assert ((max <=? 0) || (output_channels data <=? max) = false) as G
      by (apply orb_false_iff; split; lia).
  split; [|intros Loop; split; [|intros mode]].
  - intros mask mode vg'. unfold mixing_macro_layer. rewrite E, G.
    set (mask' := if mask =? 0 then UINT32_MAX else mask).
    set (sel := fold_left _ _ 0).
    set (vg0 := fold_left _ (seqZ 0 max) vgmstream).
    assert (config_open k vg0) as H0.
    { apply fold_left_inv; [|done]. intros. by apply mixing_push_upmix_open. }
    assert (match fold_left (layer_step mode max mask' sel)
                            (seqZ 0 (output_channels data)) (Some (vg0, 0)) with
            | Some (vg, _) => config_open k vg
            | None => True
            end) as H1.
    { apply (fold_left_inv
               (fun st : option (VGMSTREAM * Z) =>
                  match st with Some (vg, _) => config_open k vg | None => True end));
        [|done].
      intros [[vg cur]|] ch Hvg; simpl; [|done].
      destruct (negb (mask_bit mask' ch)); [done|].
      destruct (layer_volume mode max sel cur ch); [|done].
      by apply mixing_push_add_open. }
    destruct (fold_left (layer_step mode max mask' sel) _ _) as [[vg cur]|];
      [|congruence].
    intros [= <-]. by apply (mixing_push_killmix_mixed_down k).
  - unfold mixing_macro_crosstrack. rewrite E, G, Loop. cbn [negb].
    pose proof (pad_and_loop_open k vgmstream data max Hopen) as Hp.
    destruct (pad_and_loop vgmstream data max) as [[vg oc] num]. simpl in Hp.
    apply (mix_into_first_mixed_down k); [|done].
    apply fold_left_inv; [|done].
    intros vg1 track H1.
    apply fold_left_inv; [|done].
    intros vg2 tch H2.
    destruct (track >? 0), (track + 1 <? num);
      repeat apply mixing_push_fade_open; done.
  - unfold mixing_macro_crosslayer. rewrite E, G, Loop. cbn [negb].
    pose proof (pad_and_loop_open k vgmstream data max Hopen) as Hp.
    destruct (pad_and_loop vgmstream data max) as [[vg oc] num]. simpl in Hp.
    apply (mix_into_first_mixed_down k); [|done].
    apply fold_left_inv; [|done].
    intros vg1 loop H1.
    destruct (if Ascii.eqb mode "e" then _ else _) as [v1 v2].
    apply (fold_left_inv
             (fun st : VGMSTREAM * Z * spec_float * spec_float =>
                config_open k (fst (fst (fst st))))); [|done].
    intros [[[vg2 ch] w1] w2] layer H2. simpl in H2.
    destruct (crosslayer_volumes mode loop layer w1 w2) as [u1 u2].
    destruct (layer >? loop); [done|].
    destruct (if layer =? loop then _ else _) as [u1' ty]. simpl.
    apply fold_left_inv; [|done].
    intros vg3 lch H3. by apply mixing_push_fade_open.
Qed.

(** ** The search for the fade to stitch with *)

Lemma get_last_fade_from_spec chain target (n : nat) : forall i,
  get_last_fade_from chain n target = Some i
  <-> (i < n)%nat
      /\ (exists mix, chain !! i = Some mix /\ is_fade mix = true
                      /\ ch_dst mix = target)
      /\ forall j mix, (i < j < n)%nat -> chain !! j = Some mix ->
                       is_fade mix = true -> ch_dst mix <> target.
Proof.
  induction n as [|n IH]; intros i; cbn [get_last_fade_from].
  { split; [done|]. intros (Hi & _). lia. }
  assert (forall m, chain !! n = Some m -> is_fade m = true -> ch_dst m = target ->
                    (Some n = Some i
                     <-> (i < S n)%nat
                         /\ (exists mix, chain !! i = Some mix /\ is_fade mix = true
                                         /\ ch_dst mix = target)
                         /\ forall j mix, (i < j < S n)%nat -> chain !! j = Some mix ->
                                          is_fade mix = true -> ch_dst mix <> target))
    as Hhit.
  { intros m Em Fm Dm. split.
    - intros [= <-]. split; [lia|]. split; [by exists m|]. intros j mix Hj. lia.
    - intros (Hi & _ & Hlater). f_equal.
      destruct (decide (i = n)) as [->|Hne]; [done|].
      exfalso. by apply (Hlater n m ltac:(lia) Em Fm). }
  assert ((forall m, chain !! n = Some m -> is_fade m = true -> ch_dst m <> target) ->
          (get_last_fade_from chain n target = Some i
           <-> (i < S n)%nat
               /\ (exists mix, chain !! i = Some mix /\ is_fade mix = true
                               /\ ch_dst mix = target)
               /\ forall j mix, (i < j < S n)%nat -> chain !! j = Some mix ->
                                is_fade mix = true -> ch_dst mix <> target))
    as Hmiss.
  { intros Hn. rewrite IH. split.
    - intros (Hi & Hex & Hlater). split; [lia|]. split; [done|].
      intros j mix Hj Ej Fj.
      destruct (decide (j = n)) as [->|Hne]; [by apply (Hn mix)|].
      apply (Hlater j mix); [lia|done|done].
    - intros (Hi & Hex & Hlater).
      assert (i <> n) as Hne.
      { intros ->. destruct Hex as (mix & Em & Fm & Dm). by apply (Hn mix). }
      split; [lia|]. split; [done|].
      intros j mix Hj. apply Hlater. lia. }
  destruct (chain !! n) as [m|] eqn:En.
  - destruct (is_fade m) eqn:Fm; cbn [negb].
    + destruct (ch_dst m =? target) eqn:Dm.
      * apply (Hhit m); [done|done|lia].
      * apply Hmiss. intros m' [= <-] _. lia.
    + apply Hmiss. intros m' [= <-] F'. congruence.
  - apply Hmiss. intros m' Em'. done.
Qed.

(** X16: [get_last_fade] finds index [i] exactly when the command at [i]
    is a fade with the same channel selector as asked for and no later
    command of the chain is one; a fade on all channels and a fade on one
    channel are never each other's predecessor. *)
Theorem get_last_fade_spec data target_channel i :
  get_last_fade data target_channel = Some i
  <-> (exists mix, mixing_chain data !! i = Some mix /\ is_fade mix = true
                   /\ ch_dst mix = target_channel)
      /\ forall j mix, (i < j)%nat -> mixing_chain data !! j = Some mix ->
                       is_fade mix = true -> ch_dst mix <> target_channel.
Proof.
  unfold get_last_fade. rewrite get_last_fade_from_spec. split.
  - intros (Hi & Hex & Hlater). split; [done|].
    intros j mix Hj Ej. apply (Hlater j mix); [|done].
    apply lookup_lt_Some in Ej. lia.
  - intros (Hex & Hlater). split.
    + destruct Hex as (mix & Em & _). by apply lookup_lt_Some in Em.
    + split; [done|]. intros j mix Hj. apply Hlater. lia.
Qed.

(** ** Volume on one lane or on all *)

Lemma fold_scale_lanes v l : forall a j,
  NoDup l -> (forall c, c ∈ l -> 0 <= c < Z.of_nat (length a)) ->
  lane (fold_left (scale_lane v) l a) j
  = if decide (j ∈ l) then F32.mul (lane a j) v else lane a j.
Proof.
  induction l as [|c l IH]; intros a j Hnd Hin; cbn [fold_left].
  { destruct (decide (j ∈ [])) as [H|H]; [by apply elem_of_nil in H|done]. }
  apply NoDup_cons in Hnd as [Hc Hnd].
  rewrite IH; [|done|].
  2:{ intros c' Hc'. rewrite scale_lane_length. apply Hin. by right. }
  unfold scale_lane.
  destruct (decide (j ∈ l)) as [Hl|Hl].
  - destruct (decide (j ∈ c :: l)) as [_|Hn]; [|by destruct Hn; right].
    rewrite lane_set_lane_ne; [done|]. by intros ->.
  - destruct (decide (j = c)) as [->|Hne].
    + destruct (decide (c ∈ c :: l)) as [_|Hn]; [|by destruct Hn; left].
      apply lane_set_lane_eq. apply Hin. by left.
    + destruct (decide (j ∈ c :: l)) as [Hy|_].
      { apply elem_of_cons in Hy as [?|?]; done. }
      by apply lane_set_lane_ne.
Qed.

(** X17: the Volume step multiplies the selected lane by the command's
    volume, or with a negative selector each of the row's active lanes
    exactly once, and changes no other lane. *)
Theorem volume_step_lanes pos mix a w j :
  command mix = MIX_VOLUME ->
  ch_dst mix < w -> w <= Z.of_nat (length a) ->
  snd (mix_step pos (a, w) mix) = w
  /\ lane (fst (mix_step pos (a, w) mix)) j
     = if (if ch_dst mix <? 0 then (0 <=? j) && (j <? w) else j =? ch_dst mix)
       then F32.mul (lane a j) (vol mix)
       else lane a j.
Proof.
  intros Cmd Hd Hlen. unfold mix_step. rewrite Cmd.
  destruct (ch_dst mix <? 0) eqn:All; cbn [fst snd]; (split; [done|]).
  - rewrite fold_scale_lanes.
    + destruct (decide (j ∈ seqZ 0 w)) as [Hin|Hout].
      * apply elem_of_seqZ in Hin.
        assert ((0 <=? j) && (j <? w) = true) as -> by bool_lia. done.
      * assert ((0 <=? j) && (j <? w) = false) as ->; [|done].
        destruct ((0 <=? j) && (j <? w)) eqn:C; [|done].
        destruct Hout. apply elem_of_seqZ. bool_lia.
    + apply NoDup_seqZ.
    + intros c Hc. apply elem_of_seqZ in Hc. lia.
  - unfold scale_lane. destruct (j =? ch_dst mix) eqn:C.
    + assert (j = ch_dst mix) as -> by lia. apply lane_set_lane_eq. lia.
    + apply lane_set_lane_ne. lia.
Qed.

(** ** The Fade and Limit steps *)

(** X20: the Fade step leaves the row alone where the fade gives no gain;
    where it gives one, it multiplies the selected lane by it, or with a
    negative selector each active lane exactly once, and changes no other
    lane and never the channel count. *)
Theorem fade_step_lanes pos mix a w j :
  command mix = MIX_FADE ->
  ch_dst mix < w -> w <= Z.of_nat (length a) ->
  snd (mix_step pos (a, w) mix) = w
  /\ lane (fst (mix_step pos (a, w) mix)) j
     = match get_fade_gain mix pos with
       | None => lane a j
       | Some cur_vol =>
           if (if ch_dst mix <? 0 then (0 <=? j) && (j <? w) else j =? ch_dst mix)
           then F32.mul (lane a j) cur_vol
           else lane a j
       end.
Proof.
  intros Cmd Hd Hlen. unfold mix_step. rewrite Cmd.
  destruct (get_fade_gain mix pos) as [g|]; [|done].
  destruct (ch_dst mix <? 0) eqn:All; cbn [fst snd]; (split; [done|]).
  - rewrite fold_scale_lanes.
    + destruct (decide (j ∈ seqZ 0 w)) as [Hin|Hout].
      * apply elem_of_seqZ in Hin.
        assert ((0 <=? j) && (j <? w) = true) as -> by bool_lia. done.
      * assert ((0 <=? j) && (j <? w) = false) as ->; [|done].
        destruct ((0 <=? j) && (j <? w)) eqn:C; [|done].
        destruct Hout. apply elem_of_seqZ. bool_lia.
    + apply NoDup_seqZ.
    + intros c Hc. apply elem_of_seqZ in Hc. lia.
  - unfold scale_lane. destruct (j =? ch_dst mix) eqn:C.
    + assert (j = ch_dst mix) as -> by lia. apply lane_set_lane_eq. lia.
    + apply lane_set_lane_ne. lia.
Qed.

Lemma SFltb_irrefl x : SFltb x x = false.
Proof.
  unfold SFltb, SFcompare.
  destruct x as [s|s| |s m e]; [by destruct s|by destruct s|done|].
  destruct s; rewrite Z.compare_refl, Pos.compare_cont_refl; done.
Qed.

Lemma limit_lane_lane hi lo b c j :
  0 <= c < Z.of_nat (length b) ->
  lane (limit_lane hi lo b c) j
  = if decide (j = c)
    then (if SFltb hi (lane b c) then hi
          else if SFltb (lane b c) lo then lo else lane b c)
    else lane b j.
Proof.
  intros Hc. unfold limit_lane.
  destruct (decide (j = c)) as [->|Hne].
  - destruct (SFltb hi (lane b c)); [by apply lane_set_lane_eq|].
    destruct (SFltb (lane b c) lo); [by apply lane_set_lane_eq|done].
  - destruct (SFltb hi (lane b c)); [by apply lane_set_lane_ne|].
    destruct (SFltb (lane b c) lo); [by apply lane_set_lane_ne|done].
Qed.

Lemma fold_limit_lanes hi lo l : forall a j,
  NoDup l -> (forall c, c ∈ l -> 0 <= c < Z.of_nat (length a)) ->
  lane (fold_left (limit_lane hi lo) l a) j
  = if decide (j ∈ l)
    then (if SFltb hi (lane a j) then hi
          else if SFltb (lane a j) lo then lo else lane a j)
    else lane a j.
Proof.
  induction l as [|c l IH]; intros a j Hnd Hin; cbn [fold_left].
  { destruct (decide (j ∈ [])) as [H|H]; [by apply elem_of_nil in H|done]. }
  apply NoDup_cons in Hnd as [Hc Hnd].
  assert (0 <= c < Z.of_nat (length a)) as Hcr by (apply Hin; by left).
  rewrite IH; [|done|].
  2:{ intros c' Hc'. rewrite limit_lane_length. apply Hin. by right. }
  rewrite !limit_lane_lane by done.
  destruct (decide (j ∈ l)) as [Hl|Hl].
  - destruct (decide (j ∈ c :: l)) as [_|Hn]; [|by destruct Hn; right].
    destruct (decide (j = c)) as [->|_]; done.
  - destruct (decide (j = c)) as [->|Hne].
    + destruct (decide (c ∈ c :: l)) as [_|Hn]; [done|by destruct Hn; left].
    + destruct (decide (j ∈ c :: l)) as [Hy|_]; [|done].
      apply elem_of_cons in Hy as [?|?]; done.
Qed.

(** X21: after the Limit step every selected lane is the old value, or
    one of the two limits [32767 * vol] and [-32768 * vol]; when the upper
    limit is not below the lower one, the lane is then neither above the
    upper nor below the lower limit.  A lane that is not selected keeps its
    value. *)
Theorem limit_step_bounds pos mix a w j :
  command mix = MIX_LIMIT ->
  ch_dst mix < w -> w <= Z.of_nat (length a) ->
  let temp_max := F32.mul limiter_max (vol mix) in
  let temp_min := F32.mul limiter_min (vol mix) in
  let r := lane (fst (mix_step pos (a, w) mix)) j in
  if (if ch_dst mix <? 0 then (0 <=? j) && (j <? w) else j =? ch_dst mix)
  then (r = lane a j \/ r = temp_max \/ r = temp_min)
       /\ (SFltb temp_max temp_min = false ->
           SFltb temp_max r = false /\ SFltb r temp_min = false)
  else r = lane a j.
Proof.
  intros Cmd Hd Hlen hi lo. unfold mix_step. rewrite Cmd. fold hi lo.
  assert (forall x,
             let r := if SFltb hi x then hi else if SFltb x lo then lo else x in
             (r = x \/ r = hi \/ r = lo)
             /\ (SFltb hi lo = false -> SFltb hi r = false /\ SFltb r lo = false))
    as Hclamp.
  { intros x. cbn zeta.
    destruct (SFltb hi x) eqn:C1.
    - split; [by right; left|]. intros Hord. by rewrite SFltb_irrefl.
    - destruct (SFltb x lo) eqn:C2.
      + split; [by right; right|]. intros Hord. by rewrite SFltb_irrefl.
      + split; [by left|done]. }
  destruct (ch_dst mix <? 0) eqn:All; cbn [fst]; cbn zeta.
  - rewrite fold_limit_lanes.
    + destruct (decide (j ∈ seqZ 0 w)) as [Hin|Hout].
      * apply elem_of_seqZ in Hin.
        assert ((0 <=? j) && (j <? w) = true) as -> by bool_lia.
        apply Hclamp.
      * assert ((0 <=? j) && (j <? w) = false) as ->; [|done].
        destruct ((0 <=? j) && (j <? w)) eqn:C; [|done].
        destruct Hout. apply elem_of_seqZ. bool_lia.
    + apply NoDup_seqZ.
    + intros c Hc. apply elem_of_seqZ in Hc. lia.
  - rewrite limit_lane_lane by lia.
    destruct (j =? ch_dst mix) eqn:C.
    + destruct (decide (j = ch_dst mix)) as [->|Hne]; [|lia]. apply Hclamp.
    + destruct (decide (j = ch_dst mix)) as [->|Hne]; [lia|done].
Qed.

End Mixing.

(** ** The statements at concrete inputs

    [VGMSTREAM_MAX_CHANNELS] is 64 in the stream header; the C library
    functions play no part in the inputs below and are instantiated with
    the identity. *)

Lemma get_fade_gain_regions_witness :
  fade_wf example_fade
  /\ get_fade_gain (fun x => x) (fun x => x) (fun x => x) example_fade 50
     = Some (fade_between (fun x => x) (fun x => x) (fun x => x) example_fade 50).
Proof.
  assert (fade_wf example_fade) as W by (unfold fade_wf; simpl; lia).
  split; [exact W|].
  destruct (get_fade_gain_regions (fun x => x) (fun x => x) (fun x => x)
                                  example_fade 50 W) as (Hin & _).
  apply Hin. simpl. lia.
Defined.

Lemma mixing_push_fade_negative_times_witness :
  mixing_push_fade (mixing_init (plain_stream 2)) 0 F64.one F64.zero "T"
                   (-1) (-1) 100 (-1)
  = mixing_init (plain_stream 2).
Proof. apply mixing_push_fade_negative_times. left. lia. Defined.

Lemma mixing_push_killmix_spec_witness :
  option_map output_channels
             (vgmstream_mixing (mixing_push_killmix (mixing_init (plain_stream 4)) 2))
  = Some 2.
Proof.
  apply (mixing_push_killmix_spec (mixing_init (plain_stream 4)) fresh_data4 2
                                  eq_refl eq_refl).
  - unfold mixing_count, mixing_size. simpl. unfold VGMSTREAM_MAX_MIXING. lia.
  - simpl. lia.
Defined.

Lemma swap_step_involutive_witness :
  mix_step (fun x => x) (fun x => x) (fun x => x) 0
           (mix_step (fun x => x) (fun x => x) (fun x => x) 0
                     ([F32.one; F32.zero], 2)
                     (new_mix MIX_SWAP 0 1 F32.zero))
           (new_mix MIX_SWAP 0 1 F32.zero)
  = ([F32.one; F32.zero], 2).
Proof.
  apply swap_step_involutive; simpl; try reflexivity; lia.
Defined.

Lemma channel_counters_invariant_witness :
  exists data,
    vgmstream_mixing
      (mixing_push_killmix (mixing_push_upmix 64 (mixing_init (plain_stream 2)) 0) 1)
    = Some data
    /\ 1 <= output_channels data <= mixing_channels data.
Proof.
  apply (channel_counters_invariant 64 (plain_stream 2)
                                    [CallUpmix 0; CallKillmix 1]).
  - simpl. lia.
  - reflexivity.
Defined.

Lemma mix_vgmstream_inactive_witness :
  mix_vgmstream (fun x => x) (fun x => x) (fun x => x) [100; 200] 1
                (mixing_init (plain_stream 2))
  = ([100; 200], mixing_init (plain_stream 2)).
Proof.
  apply (mix_vgmstream_inactive (fun x => x) (fun x => x) (fun x => x)
                                [100; 200] 1 (mixing_init (plain_stream 2))
                                (MixingData 2 2 false VGMSTREAM_MAX_MIXING [] [])
                                eq_refl).
  left. reflexivity.
Defined.

Lemma layer_downmix_4_to_2_witness :
  exists vg',
    mixing_macro_layer 64 (mixing_init (plain_stream 4)) 2 15 "v" = Some vg'
    /\ chain_of vg' = layer_v_chain
    /\ option_map output_channels (vgmstream_mixing vg') = Some 2.
Proof.
  destruct (layer_downmix_4_to_2 64 (fun x => x) (fun x => x) (fun x => x)
                                 (plain_stream 4) eq_refl ltac:(lia))
    as (vg' & H1 & H2 & H3 & _).
  exists vg'. repeat split; assumption.
Defined.

Lemma mix_vgmstream_activity_witness :
  mix_vgmstream (fun x => x) (fun x => x) (fun x => x) [1; 2; 3; 4] 2 idle_fade_stream
  = ([1; 2; 3; 4], idle_fade_stream)
  /\ fst (mix_vgmstream (fun x => x) (fun x => x) (fun x => x)
                        [1; 2; 3; 4] 2 idle_fade_stream)
     = [1; 2; 3; 4].
Proof.
  destruct (mix_vgmstream_activity (fun x => x) (fun x => x) (fun x => x)
                                   [1; 2; 3; 4] 2 idle_fade_stream idle_fade_data
                                   eq_refl eq_refl) as [HA _].
  assert (Forall (fun mix => is_fade mix = true) (mixing_chain idle_fade_data)) as Hf
      by (repeat constructor).
  assert (Forall (range_misses_window (get_current_pos idle_fade_stream) 2)
                 (mixing_chain idle_fade_data)) as Hm.
  { change (get_current_pos idle_fade_stream) with 0.
    repeat constructor. intros p Hp [Hw _].
    change (100 <= p) in Hw. lia. }
  destruct (HA Hf Hm) as [Hskip Hsame]. split.
  - apply Hskip; [lia|]. repeat constructor. exists 150.
    unfold in_active_window. simpl. lia.
  - apply Hsame.
    + repeat constructor; simpl; lia.
    + change (get_current_pos idle_fade_stream) with 0. lia.
    + unfold buffers_fit, is_int16. simpl. repeat split; try lia.
      repeat constructor; lia.
Defined.

(** ** End-to-end checks of the engine

    A two-channel stream with [Swap(0,1)] turns the frame [100 200] into
    [200 100]; with [Volume(all, 0.5)] the frame [100 -200] becomes
    [50 -100]; the layering chain sums lanes pairwise. *)

Example swap_end_to_end :
  fst (mix_vgmstream (fun x => x) (fun x => x) (fun x => x) [100; 200] 1
         (mixing_setup true (mixing_push_swap (mixing_init (plain_stream 2)) 0 1) 1))
  = [200; 100].
Proof. reflexivity. Qed.

Example volume_end_to_end :
  fst (mix_vgmstream (fun x => x) (fun x => x) (fun x => x) [100; -200] 1
         (mixing_setup true
            (mixing_push_volume (mixing_init (plain_stream 2)) (-1)
                                (F64.div (F64.of_Z 1) (F64.of_Z 2)))
            1))
  = [50; -100].
Proof. reflexivity. Qed.

Example layer_end_to_end :
  option_map
    (fun vg => fst (mix_vgmstream (fun x => x) (fun x => x) (fun x => x)
                                  [1; 2; 30; 40; 32767; 32767; 32767; 32767] 2
                                  (mixing_setup true vg 2)))
    (mixing_macro_layer 64 (mixing_init (plain_stream 4)) 2 15 "v")
  = Some [31; 42; 32767; 32767; 32767; 32767; 32767; 32767].
Proof. reflexivity. Qed.

(** The range [[4, 6)] around a fade whose window is empty: the activity
    check lets the call through and the working buffer is rewritten, but no
    lane is scaled and the output buffer comes back as it was. *)
Example point_fade_pass :
  is_active_chain [point_fade] 4 6 = true
  /\ fst (mix_vgmstream (fun x => x) (fun x => x) (fun x => x)
                        [1; 2; 3; 4] 2 point_fade_stream)
     = [1; 2; 3; 4]
  /\ take 4 (chain_mixbuf
               (snd (mix_vgmstream (fun x => x) (fun x => x) (fun x => x)
                                   [1; 2; 3; 4] 2 point_fade_stream)))
     = [F32.of_Z 1; F32.of_Z 2; F32.of_Z 3; F32.of_Z 4].
Proof. repeat split; reflexivity. Qed.

(** ** Further statements at concrete inputs *)

Ltac closed_goal :=
  first [ reflexivity | lia | (simpl; lia)
        | (vm_compute; repeat split;
           first [reflexivity | discriminate | (intros ?; discriminate) | lia]) ].

Lemma built_chain_row_width_witness :
  let vg' := mixing_push_killmix
               (mixing_push_upmix 64 (mixing_init (plain_stream 2)) 0) 1 in
  exists data,
    vgmstream_mixing vg' = Some data
    /\ channels vg' = channels (plain_stream 2)
    /\ snd (mix_row (fun x => x) (fun x => x) (fun x => x) 0
                    (mixing_chain data) ([], channels vg'))
       = output_channels data
    /\ mixing_info vg'
       = Some (Z.max (channels vg') (output_channels data), output_channels data).
Proof.
  exact (built_chain_row_width 64 (fun x => x) (fun x => x) (fun x => x)
                               (plain_stream 2) [CallUpmix 0; CallKillmix 1]
                               _ 0 [] eq_refl).
Defined.

Lemma built_chain_valid_witness :
  let vg' := mixing_push_killmix
               (mixing_push_upmix 64 (mixing_init (plain_stream 2)) 0) 1 in
  exists data,
    vgmstream_mixing vg' = Some data
    /\ channels vg' <= mixing_channels data
    /\ chain_valid (channels vg') (mixing_channels data) (mixing_chain data).
Proof.
  exact (built_chain_valid 64 (plain_stream 2) [CallUpmix 0; CallKillmix 1]
                           _ eq_refl).
Defined.

Lemma activation_locks_chain_witness :
  let vg := mixing_setup true (mixing_init (plain_stream 2)) 4 in
  exists data',
    vgmstream_mixing (mixing_push_killmix (mixing_push_swap vg 0 1) 1) = Some data'
    /\ mixing_on data' = true
    /\ mixing_count data' = 0
    /\ output_channels data' = 2
    /\ mixing_channels data' = 2
    /\ mixbuf data' = replicate 8 F32.zero.
Proof.
  exact (activation_locks_chain
           64 [CallSwap 0 1; CallKillmix 1]
           (mixing_setup true (mixing_init (plain_stream 2)) 4)
           (MixingData 2 2 true VGMSTREAM_MAX_MIXING [] (replicate 8 F32.zero))
           _ eq_refl eq_refl eq_refl).
Defined.

Lemma mix_vgmstream_writes_prefix_witness :
  let vg := mixing_setup true
              (mixing_push_killmix (mixing_init (plain_stream 2)) 1) 1 in
  let out := fst (mix_vgmstream (fun x => x) (fun x => x) (fun x => x)
                                [100; 200; 7] 1 vg) in
  length out = 3%nat /\ drop 1 out = [200; 7].
Proof.
  exact (mix_vgmstream_writes_prefix
           (fun x => x) (fun x => x) (fun x => x) [100; 200; 7] 1
           (mixing_setup true (mixing_push_killmix (mixing_init (plain_stream 2)) 1) 1)
           _ eq_refl).
Defined.


Lemma stitched_fades_never_overlap_witness :
  let prev := MixCommand MIX_FADE 0 0 F32.zero F32.one F32.zero "T" (-1) 0 100 (-1) in
  let data := MixingData 2 2 false VGMSTREAM_MAX_MIXING [prev] [] in
  let vg := set_vgmstream_mixing (Some data) (plain_stream 2) in
  exists p' m',
    chain_of (mixing_push_fade vg 0 F64.zero F64.one "T" (-1) 200 300 (-1))
    = <[0%nat := p']> [prev] ++ [m']
    /\ time_post p' = time_pre m'
    /\ 100 <= time_pre m' <= 200
    /\ (time_post prev < 0 -> time_pre m' = 100)
    /\ forall pos,
        get_fade_gain (fun x => x) (fun x => x) (fun x => x) p' pos = None
        \/ get_fade_gain (fun x => x) (fun x => x) (fun x => x) m' pos = None.
Proof.
  apply (stitched_fades_never_overlap
           (fun x => x) (fun x => x) (fun x => x)
           (set_vgmstream_mixing
              (Some (MixingData 2 2 false VGMSTREAM_MAX_MIXING
                       [MixCommand MIX_FADE 0 0 F32.zero F32.one F32.zero "T"
                                   (-1) 0 100 (-1)] []))
              (plain_stream 2))
           (MixingData 2 2 false VGMSTREAM_MAX_MIXING
              [MixCommand MIX_FADE 0 0 F32.zero F32.one F32.zero "T"
                          (-1) 0 100 (-1)] [])
           0 F64.zero F64.one "T" (-1) 200 300 (-1) 0%nat
           (MixCommand MIX_FADE 0 0 F32.zero F32.one F32.zero "T" (-1) 0 100 (-1))
           eq_refl eq_refl);
    try reflexivity; unfold fade_wf; simpl; lia.
Defined.

Lemma mix_vgmstream_frames_witness :
  fst (mix_vgmstream (fun x => x) (fun x => x) (fun x => x) [100; 200] 1
         (mixing_setup true (mixing_push_swap (mixing_init (plain_stream 2)) 0 1) 1))
      !! 0%nat
  = Some 200.
Proof.
  apply (mix_vgmstream_frames
           (fun x => x) (fun x => x) (fun x => x) [100; 200] 1
           (mixing_setup true (mixing_push_swap (mixing_init (plain_stream 2)) 0 1) 1)
           (MixingData 2 2 true VGMSTREAM_MAX_MIXING [new_mix MIX_SWAP 0 1 F32.zero]
                       [F32.zero; F32.zero])
           0 0 eq_refl eq_refl eq_refl);
    closed_goal.
Defined.

Lemma built_stream_frames_witness :
  fst (mix_vgmstream (fun x => x) (fun x => x) (fun x => x) [100; 200] 1
         (mixing_setup true (mixing_push_swap (mixing_init (plain_stream 2)) 0 1) 1))
      !! 1%nat
  = Some 100.
Proof.
  apply (built_stream_frames
           64 (fun x => x) (fun x => x) (fun x => x)
           (plain_stream 2) [CallSwap 0 1]
           (mixing_push_swap (mixing_init (plain_stream 2)) 0 1) 1
           (MixingData 2 2 true VGMSTREAM_MAX_MIXING [new_mix MIX_SWAP 0 1 F32.zero]
                       [F32.zero; F32.zero])
           (mixing_setup true (mixing_push_swap (mixing_init (plain_stream 2)) 0 1) 1)
           [F32.zero; F32.zero] [100; 200] 1 0 1);
    try reflexivity; simpl; lia.
Defined.


Lemma upmix_inserts_silent_lane_witness :
  let row := [F32.one; F32.of_Z 2; F32.zero] in
  let st := mix_step (fun x => x) (fun x => x) (fun x => x) 0 (row, 2)
                     (new_mix MIX_UPMIX 0 0 F32.zero) in
  snd st = 3 /\ lane (fst st) 1 = F32.one.
Proof.
  apply (upmix_inserts_silent_lane
           (fun x => x) (fun x => x) (fun x => x) 0
           (new_mix MIX_UPMIX 0 0 F32.zero) [F32.one; F32.of_Z 2; F32.zero] 2 1
           eq_refl); simpl; lia.
Defined.

Lemma downmix_removes_lane_witness :
  let row := [F32.one; F32.of_Z 2] in
  let st := mix_step (fun x => x) (fun x => x) (fun x => x) 0 (row, 2)
                     (new_mix MIX_DOWNMIX 0 0 F32.zero) in
  snd st = 1 /\ lane (fst st) 0 = F32.of_Z 2.
Proof.
  apply (downmix_removes_lane
           (fun x => x) (fun x => x) (fun x => x) 0
           (new_mix MIX_DOWNMIX 0 0 F32.zero) [F32.one; F32.of_Z 2] 2 0
           eq_refl); simpl; lia.
Defined.

Lemma upmix_downmix_round_trip_witness :
  let row := [F32.one; F32.of_Z 2; F32.zero] in
  let st := mix_step (fun x => x) (fun x => x) (fun x => x) 0
              (mix_step (fun x => x) (fun x => x) (fun x => x) 0 (row, 2)
                        (new_mix MIX_UPMIX 1 0 F32.zero))
              (new_mix MIX_DOWNMIX 1 0 F32.zero) in
  snd st = 2 /\ lane (fst st) 1 = F32.of_Z 2.
Proof.
  apply (upmix_downmix_round_trip
           (fun x => x) (fun x => x) (fun x => x) 0
           (new_mix MIX_UPMIX 1 0 F32.zero) (new_mix MIX_DOWNMIX 1 0 F32.zero)
           [F32.one; F32.of_Z 2; F32.zero] 2 1 eq_refl eq_refl eq_refl);
    simpl; lia.
Defined.

Lemma mix_down_macros_channels_witness :
  exists vg',
    mixing_macro_layer 64 (mixing_init (plain_stream 4)) 2 15 "v" = Some vg'
    /\ mixed_down 2 vg'.
Proof.
  eexists. split; [reflexivity|].
  assert (mixing_count fresh_data4 <= mixing_size fresh_data4) as Room
      by (vm_compute; discriminate).
  assert (0 < 2 < output_channels fresh_data4) as Hmax by (simpl; lia).
  apply (proj1 (mix_down_macros_channels 64 (mixing_init (plain_stream 4))
                                         fresh_data4 2 eq_refl eq_refl Room Hmax)
               15 "v"%char).
  reflexivity.
Defined.

Lemma volume_step_lanes_witness :
  let row := [F32.of_Z 100; F32.of_Z 200] in
  let st := mix_step (fun x => x) (fun x => x) (fun x => x) 0 (row, 2)
                     (new_mix MIX_VOLUME (-1) 0 f32_half) in
  snd st = 2 /\ lane (fst st) 1 = F32.mul (F32.of_Z 200) f32_half.
Proof.
  apply (volume_step_lanes
           (fun x => x) (fun x => x) (fun x => x) 0
           (new_mix MIX_VOLUME (-1) 0 f32_half) [F32.of_Z 100; F32.of_Z 200] 2 1
           eq_refl); simpl; lia.
Defined.

Lemma built_fades_wf_witness :
  let mix := MixCommand MIX_FADE 0 0 F32.zero (F32.of_double F64.one)
                        (F32.of_double F64.zero) "T" (-1) 0 100 (-1) in
  fade_wf mix /\ 0 <= time_start mix.
Proof.
  apply (built_fades_wf 64 [CallFade 0 F64.one F64.zero "T" (-1) 0 100 (-1)]
                        (plain_stream 2) _ _ eq_refl);
    [apply list_elem_of_here|reflexivity].
Defined.

Lemma rejected_call_leaves_stream_witness :
  mixing_push_swap (mixing_init (plain_stream 2)) 0 0 = mixing_init (plain_stream 2).
Proof.
  exact (rejected_call_leaves_stream 64 (CallSwap 0 0) (mixing_init (plain_stream 2))
                                     _ I eq_refl eq_refl).
Defined.

Lemma fade_step_lanes_witness :
  let row := [F32.of_Z 100; F32.of_Z 200] in
  let st := mix_step (fun x => x) (fun x => x) (fun x => x) 200 (row, 2)
                     example_fade in
  snd st = 2 /\ lane (fst st) 0 = F32.mul (F32.of_Z 100) F32.zero.
Proof.
  apply (fade_step_lanes
           (fun x => x) (fun x => x) (fun x => x) 200 example_fade
           [F32.of_Z 100; F32.of_Z 200] 2 0 eq_refl); closed_goal.
Defined.

Lemma limit_step_bounds_witness :
  let temp_max := F32.mul limiter_max f32_half in
  let temp_min := F32.mul limiter_min f32_half in
  let r := lane (fst (mix_step (fun x => x) (fun x => x) (fun x => x) 0
                               ([F32.of_Z 30000; F32.of_Z 5], 2)
                               (new_mix MIX_LIMIT 0 0 f32_half))) 0 in
  (r = F32.of_Z 30000 \/ r = temp_max \/ r = temp_min)
  /\ (SFltb temp_max temp_min = false ->
      SFltb temp_max r = false /\ SFltb r temp_min = false).
Proof.
  assert (ch_dst (new_mix MIX_LIMIT 0 0 f32_half) < 2) as H1 by closed_goal.
  assert (2 <= Z.of_nat (length [F32.of_Z 30000; F32.of_Z 5])) as H2 by closed_goal.
  exact (limit_step_bounds
           (fun x => x) (fun x => x) (fun x => x) 0
           (new_mix MIX_LIMIT 0 0 f32_half) [F32.of_Z 30000; F32.of_Z 5] 2 0
           eq_refl H1 H2).
Defined.
